(** * TBM assistant: the fence-stripping transform, the service client,
      the file-upload handler and the speech controller.

    A shallow embedding of [services/geminiService.ts], [hooks/useTTS.ts]
    and [App.tsx].  JavaScript strings are sequences of UTF-16 code units;
    external collaborators (the model endpoint, pdf.js, the file reader,
    marked, DOMPurify, the DOM) are inputs of the model. *)

From Stdlib Require Import String Ascii.
From Stdlib Require Import List NArith Arith Bool Lia.
Import ListNotations.

(** ** JavaScript strings *)

Module Js.

(** A string is its list of UTF-16 code units. *)
Abbreviation jsstring := (list N).

(** An ASCII literal as a JavaScript string. *)
Definition lit (s : string) : jsstring :=
  map N_of_ascii (list_ascii_of_string s).

Definition eqb (a b : jsstring) : bool :=
  if list_eq_dec N.eq_dec a b then true else false.

(** ECMAScript WhiteSpace and LineTerminator code points: what
    [String.prototype.trim] removes and what [\s] matches. *)
Definition is_space (c : N) : bool :=
  ((9 <=? c) && (c <=? 13) || (c =? 32) || (c =? 160) || (c =? 5760)
   || (8192 <=? c) && (c <=? 8202) || (c =? 8232) || (c =? 8233)
   || (c =? 8239) || (c =? 8287) || (c =? 12288) || (c =? 65279))%N.

(** [\w]: ASCII letters, digits and underscore. *)
Definition is_word (c : N) : bool :=
  ((48 <=? c) && (c <=? 57) || (65 <=? c) && (c <=? 90) || (c =? 95)
   || (97 <=? c) && (c <=? 122))%N.

Fixpoint trimStart (s : jsstring) : jsstring :=
  match s with
  | c :: r => if is_space c then trimStart r else s
  | [] => []
  end.

Definition trimEnd (s : jsstring) : jsstring := rev (trimStart (rev s)).

Definition trim (s : jsstring) : jsstring := trimEnd (trimStart s).

(** [s.startsWith(p)] *)
Fixpoint startsWith (p s : jsstring) : bool :=
  match p, s with
  | [], _ => true
  | a :: p', b :: s' => (a =? b)%N && startsWith p' s'
  | _ :: _, [] => false
  end.

(** [s.includes(p)] *)
Fixpoint includes (p s : jsstring) : bool :=
  startsWith p s || match s with [] => false | _ :: r => includes p r end.

(** [s.split(sep)[0]] for a one-unit separator: the text before the first
    separator, the whole string when there is none. *)
Fixpoint split_head (sep : N) (s : jsstring) : jsstring :=
  match s with
  | [] => []
  | c :: r => if (c =? sep)%N then [] else c :: split_head sep r
  end.

(** [s.split(sep)[1]]: the text between the first and the second
    separator; [undefined] when there is no separator. *)
Fixpoint split_second (sep : N) (s : jsstring) : option jsstring :=
  match s with
  | [] => None
  | c :: r => if (c =? sep)%N then Some (split_head sep r) else split_second sep r
  end.

(** The longest prefix of units satisfying [p], and what follows it. *)
Fixpoint takeWhile (p : N -> bool) (s : jsstring) : jsstring :=
  match s with
  | c :: r => if p c then c :: takeWhile p r else []
  | [] => []
  end.

Fixpoint dropWhile (p : N -> bool) (s : jsstring) : jsstring :=
  match s with
  | c :: r => if p c then dropWhile p r else s
  | [] => []
  end.

(** Truthiness of a string value: non-empty. *)
Definition truthy (s : jsstring) : bool :=
  match s with [] => false | _ :: _ => true end.

(** [a || b] on strings. *)
Definition or_else (a b : jsstring) : jsstring := if truthy a then a else b.

End Js.

Import Js.

Notation "'js' s" := (Js.lit s%string) (at level 9, s at level 0, only parsing).
Notation "a +++ b" := (@app N a b) (at level 60, right associativity).

(** ** A backtracking matcher for the fence pattern

    Matchers follow the continuation-passing semantics of the ECMAScript
    specification: a matcher gets a state and a continuation and returns
    the first successful result in priority order. *)

Module Regex.

Record MatchState := mkState {
  ms_pos  : nat;               (* endIndex: units consumed so far *)
  ms_rest : jsstring;          (* input from endIndex on *)
  ms_cap1 : option jsstring;   (* capture 1, [None] = undefined *)
  ms_cap2 : option jsstring    (* capture 2 *)
}.

Definition Cont := MatchState -> option MatchState.
Definition Matcher := MatchState -> Cont -> option MatchState.

Definition orElse (a b : option MatchState) : option MatchState :=
  match a with Some r => Some r | None => b end.

(** One code unit satisfying [p]. *)
Definition m_char (p : N -> bool) : Matcher := fun x k =>
  match ms_rest x with
  | c :: r => if p c then k (mkState (S (ms_pos x)) r (ms_cap1 x) (ms_cap2 x)) else None
  | [] => None
  end.

Definition m_seq (a b : Matcher) : Matcher := fun x k => a x (fun y => b y k).

(** A literal string. *)
Fixpoint m_lit (s : jsstring) : Matcher :=
  match s with
  | [] => fun x k => k x
  | c :: r => m_seq (m_char (N.eqb c)) (m_lit r)
  end.

(** [^] without the multiline flag. *)
Definition m_bos : Matcher := fun x k =>
  if Nat.eqb (ms_pos x) 0 then k x else None.

(** [$] without the multiline flag. *)
Definition m_eos : Matcher := fun x k =>
  match ms_rest x with [] => k x | _ :: _ => None end.

(** Greedy [a?]: one iteration first, rejected when it matched the empty
    string (RepeatMatcher, step 2.b), then none. *)
Definition m_opt (a : Matcher) : Matcher := fun x k =>
  orElse (a x (fun y => if Nat.eqb (ms_pos y) (ms_pos x) then None else k y))
         (k x).

(** Greedy [c*] for a character class [c]: longest run first. *)
Fixpoint star_greedy (p : N -> bool) (s : jsstring) (i : nat)
         (c1 c2 : option jsstring) (k : Cont) : option MatchState :=
  match s with
  | ch :: r =>
      if p ch
      then orElse (star_greedy p r (S i) c1 c2 k) (k (mkState i s c1 c2))
      else k (mkState i s c1 c2)
  | [] => k (mkState i [] c1 c2)
  end.

Definition m_star (p : N -> bool) : Matcher := fun x k =>
  star_greedy p (ms_rest x) (ms_pos x) (ms_cap1 x) (ms_cap2 x) k.

(** Lazy [c*?]: shortest run first. *)
Fixpoint star_lazy (p : N -> bool) (s : jsstring) (i : nat)
         (c1 c2 : option jsstring) (k : Cont) : option MatchState :=
  orElse (k (mkState i s c1 c2))
         match s with
         | ch :: r => if p ch then star_lazy p r (S i) c1 c2 k else None
         | [] => None
         end.

Definition m_star_lazy (p : N -> bool) : Matcher := fun x k =>
  star_lazy p (ms_rest x) (ms_pos x) (ms_cap1 x) (ms_cap2 x) k.

(** The text between two states of one match. *)
Definition captured (x y : MatchState) : jsstring :=
  firstn (ms_pos y - ms_pos x) (ms_rest x).

Definition m_group1 (a : Matcher) : Matcher := fun x k =>
  a x (fun y => k (mkState (ms_pos y) (ms_rest y) (Some (captured x y)) (ms_cap2 y))).

Definition m_group2 (a : Matcher) : Matcher := fun x k =>
  a x (fun y => k (mkState (ms_pos y) (ms_rest y) (ms_cap1 y) (Some (captured x y)))).

(** [str.match(re)] for a non-global pattern: the first start index, from
    the left, at which the pattern matches. *)
Fixpoint exec_from (m : Matcher) (i : nat) (s : jsstring) : option MatchState :=
  orElse (m (mkState i s None None) (fun y => Some y))
         match s with
         | _ :: r => exec_from m (S i) r
         | [] => None
         end.

Definition exec (m : Matcher) (s : jsstring) : option MatchState := exec_from m 0 s.

End Regex.

Import Regex.

Infix ";;" := m_seq (at level 61, right associativity).

(** ** The fence pattern and the transform *)

Definition backtick : N := 96%N.
Definition newline : N := 10%N.
Definition fence : jsstring := [backtick; backtick; backtick].
Definition any_unit (_ : N) : bool := true.

(** The pattern after the body group: optional line break, white space,
    closing fence, end of input. *)
Definition fenceTail : Matcher :=
  m_opt (m_char (N.eqb newline)) ;; m_star is_space ;; m_lit fence ;; m_eos.

(** The pattern after the optional language tag. *)
Definition fenceBody : Matcher :=
  m_star is_space ;; m_opt (m_char (N.eqb newline)) ;;
  m_group2 (m_star_lazy any_unit) ;; fenceTail.

(** The [fenceRegex] literal, flag [s]: start of input, three backticks,
    an optional group 1 of word characters (greedy), white space (greedy),
    an optional line break, group 2 of any units (lazy, dot matches line
    breaks), an optional line break, white space, three backticks, end of
    input. *)
Definition fenceRegex : Matcher :=
  m_bos ;; m_lit fence ;; m_opt (m_group1 (m_star is_word)) ;; fenceBody.

(** The clean-up both [convertTextToMarkdown] and [translateText] apply to
    [response.text]:
    [cleaned = text.trim(); m = cleaned.match(fenceRegex);
     if (m && m[2]) cleaned = m[2].trim(); return cleaned]. *)
Definition stripFence (text : jsstring) : jsstring :=
  let cleanedText := trim text in
  match exec fenceRegex cleanedText with
  | Some m =>
      match ms_cap2 m with
      | Some (c :: b) => trim (c :: b)
      | _ => cleanedText
      end
  | None => cleanedText
  end.

(** A text made of one fenced block: opening fence, language tag, line
    break, body, line break, closing fence. *)
Definition fenced (tag body : jsstring) : jsstring :=
  fence +++ tag +++ [newline] +++ body +++ [newline] +++ fence.

(** [s.endsWith(p)] *)
Definition endsWith (p s : jsstring) : bool := startsWith (rev p) (rev s).

(** A text is wrapped when it opens with a fence and, after it, closes
    with another one. *)
Definition wrapped (t : jsstring) : bool :=
  startsWith fence t && endsWith fence (skipn 3 t).

(** What lies between the opening and the closing fence of a wrapped
    text. *)
Definition middle (t : jsstring) : jsstring :=
  firstn (length t - 6) (skipn 3 t).

(** The transform without the pattern: trim; if the text is wrapped, drop
    the fences and the leading word characters, trim again, and keep the
    result unless it is empty. *)
Definition stripFence_closed (text : jsstring) : jsstring :=
  let cleanedText := trim text in
  if wrapped cleanedText then
    match trim (dropWhile is_word (middle cleanedText)) with
    | [] => cleanedText
    | c :: b => c :: b
    end
  else cleanedText.

(** The first unit of [s], if any, is not white space. *)
Definition head_nonspace (s : jsstring) : Prop :=
  match s with c :: _ => is_space c = false | [] => True end.

(** ** The service client ([services/geminiService.ts]) *)

(** A thrown value: an [Error] with its message, or a value that is not an
    [Error] and carries no message. *)
Inductive Thrown :=
| ErrorObj (message : jsstring)
| NonError.

Inductive Result (A : Type) :=
| Ok (a : A)
| Throw (e : Thrown).

Arguments Ok {A} a.
Arguments Throw {A} e.

(** [err.message || fallback] *)
Definition message_or (e : Thrown) (fallback : jsstring) : jsstring :=
  match e with
  | ErrorObj m => or_else m fallback
  | NonError => fallback
  end.

(** The content of a [generateContent] request: an inline image with a
    text part, or a plain prompt. *)
Inductive Contents :=
| ImageAndText (mimeType : jsstring) (data : option jsstring) (text : jsstring)
| PromptText (text : jsstring).

(** Sampling parameters are kept as written, temperature and topP in
    tenths. *)
Record Request := mkRequest {
  rq_model : jsstring;
  rq_contents : Contents;
  rq_systemInstruction : option jsstring;
  rq_temperature10 : N;
  rq_topP10 : N;
  rq_topK : N
}.

(** What the endpoint does with a request. *)
Inductive Response :=
| RespText (text : jsstring)   (* resolves; [response.text] is a string *)
| RespNoText                   (* resolves; [response.text] is not a string *)
| RespReject (e : Thrown).     (* rejects *)

(** What the handlers do to the outside, in order. *)
Inductive Event :=
| CallExtractText (data : option jsstring) (mimeType : jsstring)
| CallConvertToMarkdown (rawText : jsstring)
| CallTranslate (text code : jsstring)
| Network (r : Request)
| SpeechCancel
| SpeechSpeak (text : jsstring) (voiceLang : option jsstring) (lang : jsstring).

Definition Log := list Event.

Definition is_network (e : Event) : bool :=
  match e with Network _ => true | _ => false end.

Definition network_calls (l : Log) : nat := length (filter is_network l).

(** The environment: the configured credential and the endpoint, whose
    answer may depend on how many requests came before. *)
Record Env := mkEnv {
  API_KEY : option jsstring;             (* [None]: not a string *)
  generateContent : nat -> Request -> Response
}.

Definition GEMINI_MODEL_NAME : jsstring := js "gemini-2.5-flash-preview-04-17".

Definition configurationError : jsstring :=
  js "API Key for Gemini is not configured as expected in environment variables. Please ensure API_KEY is a non-empty string.".

Definition ensureApiKeyIsConfigured (env : Env) : Result unit :=
  match API_KEY env with
  | Some apiKey =>
      if Nat.eqb (length (trim apiKey)) 0
      then Throw (ErrorObj configurationError)
      else Ok tt
  | None => Throw (ErrorObj configurationError)
  end.

Definition invalidKeyError : jsstring :=
  js "Invalid API Key for Gemini. Please check your Gemini API key configuration.".

(** The [catch] block the three operations share, up to its two texts. *)
Definition rethrow (prefix unknown : jsstring) (error : Thrown) : Thrown :=
  match error with
  | ErrorObj message =>
      if includes (js "API key not valid") message
         || includes (js "API_KEY_INVALID") message
         || includes (js "API key is invalid") message
      then ErrorObj invalidKeyError
      else ErrorObj (prefix +++ message)
  | NonError => ErrorObj unknown
  end.

(** One awaited [ai.models.generateContent] inside [try]: the request is
    logged, [onText] post-processes a text answer, anything else goes
    through the [catch] block. *)
Definition callModel (env : Env) (req : Request) (onText : jsstring -> jsstring)
           (badFormat prefix unknown : jsstring) (log : Log)
  : Result jsstring * Log :=
  let log' := log ++ [Network req] in
  match generateContent env (network_calls log) req with
  | RespText text => (Ok (onText text), log')
  | RespNoText => (Throw (rethrow prefix unknown (ErrorObj badFormat)), log')
  | RespReject e => (Throw (rethrow prefix unknown e), log')
  end.

Definition ocrPrompt : jsstring :=
  js "Perform OCR on this image and extract all text content.
Preserve line breaks and paragraph structure as accurately as possible from the image.
If the image contains forms or tables, try to maintain a semblance of that structure in the extracted text.
The primary goal is to get all readable text.".

Definition ocrRequest (base64ImageData : option jsstring) (mimeType : jsstring) : Request :=
  mkRequest GEMINI_MODEL_NAME (ImageAndText mimeType base64ImageData ocrPrompt)
            None 1 9 20.

Definition extractTextFromImageData (env : Env)
           (base64ImageData : option jsstring) (mimeType : jsstring) (log : Log)
  : Result jsstring * Log :=
  let log := log ++ [CallExtractText base64ImageData mimeType] in
  match ensureApiKeyIsConfigured env with
  | Throw e => (Throw e, log)
  | Ok _ =>
      callModel env (ocrRequest base64ImageData mimeType) trim
                (js "OCR failed: Unexpected response format from AI.")
                (js "AI OCR service error: ")
                (js "An unknown error occurred while communicating with the AI OCR service.")
                log
  end.

Definition markdownPrompt (rawText : jsstring) : jsstring :=
  js "Convert the following text content, which may have been extracted via OCR, into well-formatted Markdown.
Infer structure like headings, paragraphs, lists, and tables if discernible from the text.
Ensure the output is only Markdown.
Raw text:
---
" +++ rawText +++ js "
---".

Definition markdownRequest (rawText : jsstring) : Request :=
  mkRequest GEMINI_MODEL_NAME (PromptText (markdownPrompt rawText))
            (Some (js "You are an expert text processor specializing in converting unstructured text (potentially from OCR) to clean Markdown."))
            2 8 20.

Definition convertTextToMarkdown (env : Env) (rawText : jsstring) (log : Log)
  : Result jsstring * Log :=
  let log := log ++ [CallConvertToMarkdown rawText] in
  match ensureApiKeyIsConfigured env with
  | Throw e => (Throw e, log)
  | Ok _ =>
      if negb (truthy (trim rawText)) then (Ok [], log)
      else
        callModel env (markdownRequest rawText) stripFence
                  (js "Markdown conversion failed: Unexpected response format from AI.")
                  (js "AI Markdown conversion service error: ")
                  (js "An unknown error occurred while communicating with the AI Markdown conversion service.")
                  log
  end.

Definition translatePrompt (text targetLanguageCode : jsstring) : jsstring :=
  js "Translate the following text (which may be in Markdown format) into "
  +++ targetLanguageCode +++ js ".
Preserve the Markdown formatting (headings, lists, bold, italics, tables, etc.) in the translated output.
Original text:
---
" +++ text +++ js "
---".

(** [systemInstructionText || default], then the fixed persona. *)
Definition fullSystemInstruction (systemInstructionText : option jsstring) : jsstring :=
  match systemInstructionText with
  | Some (c :: t) => c :: t
  | _ => js "You are a helpful translation assistant."
  end +++ js "
You are translating TBM (Toolbox Meeting) material for construction site safety.
The input text might be in Markdown format. Your translated output MUST also be in Markdown format, preserving the original structure (headings, lists, paragraphs, tables, emphasis, etc.).
Ensure the translation is clear, accurate, and uses terminology appropriate for a construction safety context.
The target audience is foreign workers who may not be native speakers of the target language, so keep the language accessible but precise for safety instructions.".

Definition translateRequest (text code : jsstring) (sys : option jsstring) : Request :=
  mkRequest GEMINI_MODEL_NAME (PromptText (translatePrompt text code))
            (Some (fullSystemInstruction sys)) 3 9 30.

Definition translateText (env : Env) (text targetLanguageCode : jsstring)
           (systemInstructionText : option jsstring) (log : Log)
  : Result jsstring * Log :=
  let log := log ++ [CallTranslate text targetLanguageCode] in
  match ensureApiKeyIsConfigured env with
  | Throw e => (Throw e, log)
  | Ok _ =>
      callModel env (translateRequest text targetLanguageCode systemInstructionText)
                stripFence
                (js "Translation failed: Unexpected response format from AI.")
                (js "AI translation service error: ")
                (js "An unknown error occurred while communicating with the AI translation service.")
                log
  end.

(** ** The speech controller ([hooks/useTTS.ts]) *)

Record Voice := mkVoice {
  voice_name : jsstring;
  voice_lang : jsstring;
  voice_default : bool
}.

Record Utterance := mkUtterance {
  utt_text : jsstring;
  utt_voice : option Voice;
  utt_lang : jsstring
}.

Record TTS := mkTTS {
  isSpeaking : bool;
  isSynthesizing : bool;
  ttsError : option jsstring;
  voices : list Voice;
  isSupported : bool;
  speechSynthesis : bool;                 (* [window.speechSynthesis] is there *)
  currentUtterance : option Utterance
}.

Definition dash : N := 45%N.

(** [list.find(v => v.default) || list[0]] *)
Definition preferDefault (l : list Voice) : option Voice :=
  match find voice_default l with
  | Some v => Some v
  | None => hd_error l
  end.

(** The voice selection of [speak]. *)
Definition selectVoice (voices : list Voice) (languageCode : jsstring) : option Voice :=
  let exactLangMatchVoices :=
    filter (fun voice => Js.eqb (voice_lang voice) languageCode) voices in
  let selectedVoice :=
    match exactLangMatchVoices with
    | _ :: _ => preferDefault exactLangMatchVoices
    | [] => None
    end in
  let selectedVoice :=
    match selectedVoice with
    | Some v => Some v
    | None =>
        let baseLanguage := split_head dash languageCode in
        let baseLangMatchVoices :=
          filter (fun voice => startsWith baseLanguage (voice_lang voice)) voices in
        match baseLangMatchVoices with
        | _ :: _ => preferDefault baseLangMatchVoices
        | [] => None
        end
    end in
  match selectedVoice with
  | Some v => Some v
  | None =>
      match voices with
      | _ :: _ => preferDefault voices
      | [] => None
      end
  end.

(** The utterance [speak] hands to the platform. *)
Definition makeUtterance (voices : list Voice) (text languageCode : jsstring) : Utterance :=
  match selectVoice voices languageCode with
  | Some selectedVoice => mkUtterance text (Some selectedVoice) (voice_lang selectedVoice)
  | None => mkUtterance text None languageCode
  end.

(** What [speak] reads from [window.speechSynthesis] when it is called:
    the platform's [speaking] and [pending] flags. *)
Record SynthFlags := mkSynthFlags {
  speaking : bool;
  pending : bool
}.

(** [speak]: the platform calls it makes and the hook state it sets.  An
    utterance still spoken or queued on the platform is cancelled first;
    that cancel sets no state of the hook. *)
Definition speak (t : TTS) (synth : SynthFlags) (text languageCode : jsstring)
           (log : Log) : TTS * Log :=
  if negb (isSupported t) || negb (speechSynthesis t) then
    (mkTTS (isSpeaking t) (isSynthesizing t)
           (Some (js "Text-to-Speech is not supported or initialized."))
           (voices t) (isSupported t) (speechSynthesis t) (currentUtterance t), log)
  else
    let log := if speaking synth || pending synth then log ++ [SpeechCancel] else log in
    let utterance := makeUtterance (voices t) text languageCode in
    (mkTTS false true None (voices t) (isSupported t) (speechSynthesis t)
           (Some utterance),
     log ++ [SpeechSpeak (utt_text utterance)
                         (option_map voice_lang (utt_voice utterance))
                         (utt_lang utterance)]).

Definition cancel (t : TTS) (log : Log) : TTS * Log :=
  if negb (isSupported t) || negb (speechSynthesis t) then (t, log)
  else
    (mkTTS false false (ttsError t) (voices t) (isSupported t) (speechSynthesis t) None,
     log ++ [SpeechCancel]).

(** The lifecycle callbacks of the current utterance. *)
Inductive SpeechEvent :=
| OnStart | OnEnd | OnError (error : jsstring) | OnPause | OnResume.

Definition onSpeechEvent (t : TTS) (e : SpeechEvent) : TTS :=
  match e with
  | OnStart =>
      mkTTS true false (ttsError t) (voices t) (isSupported t) (speechSynthesis t)
            (currentUtterance t)
  | OnEnd =>
      mkTTS false false (ttsError t) (voices t) (isSupported t) (speechSynthesis t) None
  | OnError error =>
      mkTTS false false (Some (js "Speech error: " +++ error)) (voices t)
            (isSupported t) (speechSynthesis t) None
  | OnPause =>
      mkTTS false (isSynthesizing t) (ttsError t) (voices t) (isSupported t)
            (speechSynthesis t) (currentUtterance t)
  | OnResume =>
      mkTTS true (isSynthesizing t) (ttsError t) (voices t) (isSupported t)
            (speechSynthesis t) (currentUtterance t)
  end.

(** The resolution order in the words of the specification: a voice with
    the requested tag, else a voice with the same primary subtag, else any
    voice, each time a default-flagged one if there is one and the first
    otherwise; [None] when no voice is enumerable. *)
Definition primarySubtag (tag : jsstring) : jsstring := split_head dash tag.

Definition resolveVoice_spec (voices : list Voice) (tag : jsstring) : option Voice :=
  let exact := filter (fun v => Js.eqb (voice_lang v) tag) voices in
  let same :=
    filter (fun v => Js.eqb (primarySubtag (voice_lang v)) (primarySubtag tag)) voices in
  match preferDefault exact with
  | Some v => Some v
  | None =>
      match preferDefault same with
      | Some v => Some v
      | None => preferDefault voices
      end
  end.
(** ** The orchestrator ([App.tsx]) *)

Record TargetLanguage := mkLang { code : jsstring; name : jsstring }.

Record App := mkApp {
  inputText : jsstring;
  translatedText : jsstring;
  isLoading : bool;
  error : option jsstring;                (* general / translation *)
  isExtractingText : bool;
  isFormattingToMarkdown : bool;
  fileProcessingError : option jsstring;
  currentTtsError : option jsstring;      (* speech *)
  targetLanguage : TargetLanguage;
  tts : TTS;
  fileInputValue : jsstring
}.

Definition setInputText v (s : App) :=
  mkApp v (translatedText s) (isLoading s) (error s) (isExtractingText s)
        (isFormattingToMarkdown s) (fileProcessingError s) (currentTtsError s)
        (targetLanguage s) (tts s) (fileInputValue s).
Definition setTranslatedText v (s : App) :=
  mkApp (inputText s) v (isLoading s) (error s) (isExtractingText s)
        (isFormattingToMarkdown s) (fileProcessingError s) (currentTtsError s)
        (targetLanguage s) (tts s) (fileInputValue s).
Definition setIsLoading v (s : App) :=
  mkApp (inputText s) (translatedText s) v (error s) (isExtractingText s)
        (isFormattingToMarkdown s) (fileProcessingError s) (currentTtsError s)
        (targetLanguage s) (tts s) (fileInputValue s).
Definition setError v (s : App) :=
  mkApp (inputText s) (translatedText s) (isLoading s) v (isExtractingText s)
        (isFormattingToMarkdown s) (fileProcessingError s) (currentTtsError s)
        (targetLanguage s) (tts s) (fileInputValue s).
Definition setIsExtractingText v (s : App) :=
  mkApp (inputText s) (translatedText s) (isLoading s) (error s) v
        (isFormattingToMarkdown s) (fileProcessingError s) (currentTtsError s)
        (targetLanguage s) (tts s) (fileInputValue s).
Definition setIsFormattingToMarkdown v (s : App) :=
  mkApp (inputText s) (translatedText s) (isLoading s) (error s)
        (isExtractingText s) v (fileProcessingError s) (currentTtsError s)
        (targetLanguage s) (tts s) (fileInputValue s).
Definition setFileProcessingError v (s : App) :=
  mkApp (inputText s) (translatedText s) (isLoading s) (error s)
        (isExtractingText s) (isFormattingToMarkdown s) v (currentTtsError s)
        (targetLanguage s) (tts s) (fileInputValue s).
Definition setCurrentTtsError v (s : App) :=
  mkApp (inputText s) (translatedText s) (isLoading s) (error s)
        (isExtractingText s) (isFormattingToMarkdown s) (fileProcessingError s) v
        (targetLanguage s) (tts s) (fileInputValue s).
Definition setTargetLanguage v (s : App) :=
  mkApp (inputText s) (translatedText s) (isLoading s) (error s)
        (isExtractingText s) (isFormattingToMarkdown s) (fileProcessingError s)
        (currentTtsError s) v (tts s) (fileInputValue s).
Definition setTts v (s : App) :=
  mkApp (inputText s) (translatedText s) (isLoading s) (error s)
        (isExtractingText s) (isFormattingToMarkdown s) (fileProcessingError s)
        (currentTtsError s) (targetLanguage s) v (fileInputValue s).
(** [fileInputRef.current.value = ''] *)
Definition clearFileInput (s : App) :=
  mkApp (inputText s) (translatedText s) (isLoading s) (error s)
        (isExtractingText s) (isFormattingToMarkdown s) (fileProcessingError s)
        (currentTtsError s) (targetLanguage s) (tts s) [].

(** [if (isTtsSupported) cancel()] *)
Definition cancelIfSupported (s : App) (log : Log) : App * Log :=
  if isSupported (tts s)
  then let '(t, log') := cancel (tts s) log in (setTts t s, log')
  else (s, log).

(** The effect copying a speech error of the hook into its slot. *)
Definition syncTtsError (s : App) : App :=
  match ttsError (tts s) with
  | Some (c :: m) => setCurrentTtsError (Some (c :: m)) s
  | _ => s
  end.

(** *** What the platform yields for an uploaded file *)

Inductive PageResult :=
| GetPageFails (e : Thrown)      (* [pdf.getPage(i)] rejects *)
| NoCanvasContext                (* [canvas.getContext] gives null *)
| RenderFails (e : Thrown)       (* [page.render(...).promise] rejects *)
| Rendered (imageDataUrl : jsstring).

Inductive PdfResult :=
| BufferFails (e : Thrown)       (* [file.arrayBuffer()] rejects *)
| OpenFails (e : Thrown)         (* [getDocument(...).promise] rejects *)
| Opened (pages : list PageResult).

Inductive ReadResult :=
| ReadError                      (* [reader.onerror]: rejects with the event *)
| ReadNull                       (* [reader.result] is null *)
| ReadDataUrl (url : jsstring).

Record File := mkFile {
  file_name : jsstring;
  file_type : jsstring;          (* [file.type], as the handler reads it *)
  file_pdf : PdfResult;          (* what pdf.js makes of the bytes *)
  file_read : ReadResult         (* what [readAsDataURL] makes of them *)
}.

Definition comma : N := 44%N.

(** [toLowerCase] on a MIME type: the ASCII capitals are lowered.  The
    File API delivers [type] as an ASCII string, and no unit outside ASCII
    lower-cases to a letter of the accepted types. *)
Definition toLowerCase (s : jsstring) : jsstring :=
  map (fun c => if (65 <=? c) && (c <=? 90) then c + 32 else c)%N s.

Definition validImageTypes : list jsstring :=
  [js "image/jpeg"; js "image/png"; js "image/webp"; js "image/jpg"].

(** [list.includes(s)] *)
Definition list_includes (l : list jsstring) (s : jsstring) : bool :=
  existsb (Js.eqb s) l.

Inductive FileKind := KindPdf | KindImage | KindUnsupported.

(** The [if] / [else if] / [else] of [handleFileUpload]. *)
Definition dispatch (type : jsstring) : FileKind :=
  if Js.eqb type (js "application/pdf") then KindPdf
  else if list_includes validImageTypes (toLowerCase type) then KindImage
  else KindUnsupported.

Definition blankLine : jsstring := [newline; newline].

(** The page loop of the PDF branch, from page [i] on, inside the outer
    [try]: a throw leaves the loop for the outer [catch]. *)
Fixpoint ocrPages (env : Env) (pages : list PageResult) (fullRawText : jsstring)
         (log : Log) : Result jsstring * Log :=
  match pages with
  | [] => (Ok fullRawText, log)
  | page :: rest =>
      match page with
      | GetPageFails e => (Throw e, log)
      | NoCanvasContext =>
          (Throw (ErrorObj (js "Could not get canvas context for PDF page rendering.")), log)
      | RenderFails e => (Throw e, log)
      | Rendered imageDataUrl =>
          match split_second comma imageDataUrl with
          | Some (c :: d) =>
              match extractTextFromImageData env (Some (c :: d)) (js "image/jpeg") log with
              | (Ok textFromPage, log') =>
                  ocrPages env rest (fullRawText +++ textFromPage +++ blankLine) log'
              | (Throw _, log') => ocrPages env rest fullRawText log'
              end
          | _ => ocrPages env rest fullRawText log
          end
      end
  end.

(** The reformat stage both branches share, up to the label in the
    warning: the raw text is already in the buffer. *)
Definition formatStage (env : Env) (label rawText : jsstring) (s : App) (log : Log)
  : App * Log :=
  let s := setIsFormattingToMarkdown true s in
  match convertTextToMarkdown env rawText log with
  | (Ok markdownText, log') =>
      (setIsFormattingToMarkdown false (setInputText markdownText s), log')
  | (Throw mdErr, log') =>
      (setIsFormattingToMarkdown false
         (setFileProcessingError
            (Some (js "Markdown Conversion Error (" +++ label +++ js "): "
                   +++ message_or mdErr (js "Could not format extracted text.")
                   +++ js ". Raw text loaded.")) s), log')
  end.

(** After the page loop. *)
Definition pdfFinish (env : Env) (fullRawText : jsstring) (s : App) (log : Log)
  : App * Log :=
  let rawPdfText := trim fullRawText in
  if truthy rawPdfText then
    formatStage env (js "PDF") rawPdfText
                (setIsExtractingText false (setInputText rawPdfText s)) log
  else
    (setIsExtractingText false
       (setFileProcessingError
          (Some (js "No text content could be extracted from the PDF (OCR).")) s), log).

(** The outer [catch] of the PDF branch. *)
Definition pdfCatch (err : Thrown) (s : App) : App :=
  setIsFormattingToMarkdown false
    (setIsExtractingText false
       (setFileProcessingError
          (Some (js "PDF Processing/OCR Error: "
                 +++ message_or err (js "Could not process PDF."))) s)).

Definition pdfBranch (env : Env) (file : File) (s : App) (log : Log) : App * Log :=
  let '(s', log') :=
    match file_pdf file with
    | BufferFails e => (pdfCatch e s, log)
    | OpenFails e => (pdfCatch e s, log)
    | Opened pages =>
        match ocrPages env pages [] log with
        | (Ok fullRawText, log') => pdfFinish env fullRawText s log'
        | (Throw err, log') => (pdfCatch err s, log')
        end
    end in
  (clearFileInput s', log').

(** The image branch; [stale] is the file-processing slot as the handler
    closed over it. *)
Definition imageBranch (env : Env) (stale : option jsstring) (file : File)
           (s : App) (log : Log) : App * Log :=
  let outerCatch (err : Thrown) (s : App) :=
    let s := match stale with
             | Some (_ :: _) => s
             | _ => setFileProcessingError
                      (Some (js "Image Processing Error: "
                             +++ message_or err (js "Could not process image file."))) s
             end in
    setIsFormattingToMarkdown false (setIsExtractingText false s) in
  let '(s', log') :=
    match file_read file with
    | ReadError => (outerCatch NonError s, log)
    | ReadNull => (outerCatch (ErrorObj (js "File reading resulted in null.")) s, log)
    | ReadDataUrl url =>
        let base64ImageData := split_second comma url in
        let mimeType := file_type file in
        match extractTextFromImageData env base64ImageData mimeType log with
        | (Throw ocrErr, log') =>
            (clearFileInput
               (setIsExtractingText false
                  (setFileProcessingError
                     (Some (js "Image OCR Error: "
                            +++ message_or ocrErr (js "Could not extract text from image.")))
                     s)), log')
        | (Ok rawTextFromImage, log') =>
            let s := setIsExtractingText false (setInputText rawTextFromImage s) in
            if truthy (trim rawTextFromImage) then
              formatStage env (js "Image") rawTextFromImage s log'
            else
              (setFileProcessingError
                 (Some (js "No text content could be extracted from the image (OCR).")) s,
               log')
        end
    end in
  (clearFileInput s', log').

Definition unsupportedMessage (file : File) : jsstring :=
  js "Unsupported file type: " +++ file_name file +++ js " (" +++ file_type file
  +++ js "). Please upload a PDF, JPG, PNG, or WEBP file.".

(** The statements of [handleFileUpload] before the dispatch. *)
Definition beginUpload (s : App) (log : Log) : App * Log :=
  cancelIfSupported
    (setTranslatedText []
       (setInputText []
          (setError None
             (setFileProcessingError None
                (setIsFormattingToMarkdown false
                   (setIsExtractingText true s)))))) log.

Definition handleFileUpload (env : Env) (file : option File) (s0 : App) (log : Log)
  : App * Log :=
  match file with
  | None => (s0, log)
  | Some file =>
      let '(s, log) := beginUpload s0 log in
      match dispatch (file_type file) with
      | KindPdf => pdfBranch env file s log
      | KindImage => imageBranch env (fileProcessingError s0) file s log
      | KindUnsupported =>
          (clearFileInput
             (setIsExtractingText false
                (setFileProcessingError (Some (unsupportedMessage file)) s)), log)
      end
  end.

(** [Object.entries(terms).map(([ko, en]) => ...).join] with a line break. *)
Fixpoint lawTermsString (terms : list (jsstring * jsstring)) : jsstring :=
  match terms with
  | [] => []
  | [(ko, en)] => js "* " +++ ko +++ js ": " +++ en
  | (ko, en) :: rest =>
      js "* " +++ ko +++ js ": " +++ en +++ [newline] +++ lawTermsString rest
  end.

Definition handleTranslate (env : Env) (terms : list (jsstring * jsstring))
           (s : App) (log : Log) : App * Log :=
  if negb (truthy (trim (inputText s))) then
    (setError (Some (js "Please upload a file or ensure there is content to translate.")) s,
     log)
  else
    let '(s1, log) :=
      cancelIfSupported
        (setTranslatedText []
           (setIsLoading true (setCurrentTtsError None (setError None s)))) log in
    let baseSystemInstruction :=
      js "Reference for some Korean construction/safety terms (use if relevant):
" +++ lawTermsString terms in
    match translateText env (inputText s) (code (targetLanguage s))
                        (Some baseSystemInstruction) log with
    | (Ok result, log') => (setIsLoading false (setTranslatedText result s1), log')
    | (Throw err, log') =>
        (setIsLoading false
           (setError
              (Some match err with
                    | ErrorObj m => m
                    | NonError => js "An unknown error occurred during translation."
                    end) s1), log')
    end.

(** The language selector. *)
Definition onSelectLanguage (lang : TargetLanguage) (s : App) (log : Log) : App * Log :=
  let '(s, log) := cancelIfSupported (setTargetLanguage lang s) log in
  (setCurrentTtsError None s, log).

(** *** Controls *)

Definition showOverallSpinner (s : App) : bool :=
  isExtractingText s || isFormattingToMarkdown s.

Definition ttsBusy (s : App) : bool :=
  isSupported (tts s) && (isSynthesizing (tts s) || isSpeaking (tts s)).

Definition uploadDisabled (s : App) : bool :=
  showOverallSpinner s || isLoading s || ttsBusy s.

Definition translateDisabled (s : App) : bool :=
  isLoading s || showOverallSpinner s || negb (truthy (trim (inputText s)))
  || ttsBusy s.

Definition speakDisabled (s : App) : bool :=
  negb (isSupported (tts s)) || isLoading s || showOverallSpinner s
  || negb (truthy (trim (translatedText s))).

(** *** Rendering and speech text

    [marked], DOMPurify and the DOM are outside the repository. *)

Inductive SanitizeConfig := DefaultConfig | HtmlProfile.

(** Truthiness of a [string | null] slot. *)
Definition truthy_opt (slot : option jsstring) : bool :=
  match slot with
  | Some message => truthy message
  | None => false
  end.

Section Rendering.

Variable marked_parse : jsstring -> jsstring.
Variable sanitize : SanitizeConfig -> jsstring -> jsstring.
(** [textContent] and [innerText] of a [div] whose [innerHTML] was set to
    the argument. *)
Variable textContent : jsstring -> jsstring.
Variable innerText : jsstring -> jsstring.

(** [tempDiv.textContent || tempDiv.innerText || (empty)] after
    [tempDiv.innerHTML = DOMPurify.sanitize(marked.parse(text), html profile)]. *)
Definition plainText (markup : jsstring) : jsstring :=
  let html := sanitize HtmlProfile (marked_parse markup) in
  or_else (textContent html) (or_else (innerText html) []).

Definition handleSpeakOrStop (s : App) (synth : SynthFlags) (log : Log) : App * Log :=
  if negb (isSupported (tts s)) then
    (setCurrentTtsError (Some (js "Text-to-Speech is not supported by this browser.")) s,
     log)
  else
    let s := setCurrentTtsError None s in
    if isSpeaking (tts s) || isSynthesizing (tts s) then
      let '(t, log') := cancel (tts s) log in (setTts t s, log')
    else if truthy (translatedText s) then
      let textToSpeak := plainText (translatedText s) in
      if truthy (trim textToSpeak) then
        let '(t, log') :=
          speak (tts s) synth (trim textToSpeak) (code (targetLanguage s)) log in
        (setTts t s, log')
      else (setCurrentTtsError (Some (js "No text content available to speak.")) s, log)
    else (s, log).

(** What the two sections of the view put on the page: a spinner, a fixed
    text, or an element whose markup is set directly. *)
Inductive Node :=
| SpinnerNode
| TextNode (text : jsstring)
| HtmlNode (innerHTML : jsstring).

(** [cond && element] *)
Definition shown (cond : bool) (element : Node) : list Node :=
  if cond then [element] else [].

(** The input section above its controls. *)
Definition inputSection (s : App) : list Node :=
  shown (showOverallSpinner s && Js.eqb (inputText s) []) SpinnerNode
  ++ shown (negb (showOverallSpinner s) && negb (truthy (inputText s)))
       (TextNode (js "Upload a PDF or Image (JPG, PNG, WEBP) to see its Markdown content here, or use the example."))
  ++ shown (truthy (inputText s)
            && (negb (showOverallSpinner s)
                || (showOverallSpinner s && negb (Js.eqb (inputText s) []))))
       (HtmlNode (sanitize DefaultConfig (marked_parse (inputText s)))).

(** The output section above the speak button. *)
Definition outputSection (s : App) : list Node :=
  shown (isLoading s && negb (truthy (translatedText s))) SpinnerNode
  ++ shown (negb (isLoading s) && negb (truthy (translatedText s))
            && negb (truthy_opt (error s)))
       (TextNode (js "Translated text (Markdown rendered) will appear here."))
  ++ shown (truthy (translatedText s) && negb (isLoading s))
       (HtmlNode (sanitize DefaultConfig (marked_parse (translatedText s))))
  ++ shown (negb (isLoading s) && truthy_opt (error s)
            && negb (truthy (translatedText s)))
       (TextNode (js "Translation failed. Please check error messages above.")).

End Rendering.

(** ** Vocabulary of the statements *)

(** Events of the OCR operation: its invocation and its image request. *)
Definition is_ocr_event (e : Event) : bool :=
  match e with
  | CallExtractText _ _ => true
  | Network r =>
      match rq_contents r with ImageAndText _ _ _ => true | PromptText _ => false end
  | _ => false
  end.

(** Events of the reformat and translate operations. *)
Definition is_reformat_or_translate (e : Event) : bool :=
  match e with
  | CallConvertToMarkdown _ | CallTranslate _ _ => true
  | Network r =>
      match rq_contents r with PromptText _ => true | ImageAndText _ _ _ => false end
  | _ => false
  end.

(** Events of the service client: invocations and requests. *)
Definition is_service_event (e : Event) : bool :=
  match e with
  | SpeechCancel | SpeechSpeak _ _ _ => false
  | _ => true
  end.

(** The credential is a string with a non-blank character. *)
Definition credentialConfigured (env : Env) : Prop :=
  exists apiKey, API_KEY env = Some apiKey /\ trim apiKey <> [].

(** The credential is absent or blank. *)
Definition credentialMissing (env : Env) : Prop :=
  API_KEY env = None \/ exists apiKey, API_KEY env = Some apiKey /\ trim apiKey = [].

(** The label of a branch in its reformat warning. *)
Definition branchLabel (file : File) : jsstring :=
  match dispatch (file_type file) with
  | KindPdf => js "PDF"
  | _ => js "Image"
  end.

(** OCR of an upload succeeded with raw text [raw], taking the log from
    [log0] to [log1]: all pages of a PDF were processed and [raw] is the
    trimmed accumulation, or the single OCR call of an image returned
    [raw]. *)
Definition ocrSucceeded (env : Env) (file : File) (log0 : Log)
           (raw : jsstring) (log1 : Log) : Prop :=
  match dispatch (file_type file) with
  | KindPdf =>
      exists pages fullRawText,
        file_pdf file = Opened pages
        /\ ocrPages env pages [] log0 = (Ok fullRawText, log1)
        /\ raw = trim fullRawText
  | KindImage =>
      exists url,
        file_read file = ReadDataUrl url
        /\ extractTextFromImageData env (split_second comma url) (file_type file) log0
           = (Ok raw, log1)
  | KindUnsupported => False
  end.

(** The platform hands [file.type] to the handler in lower case: [f] is
    what the handler gets for a file declared with the type [declared]. *)
Definition declaredAs (f : File) (declared : jsstring) : Prop :=
  file_type f = toLowerCase declared.

(** The platform cancel [speak] issues first when the platform is still
    speaking or has an utterance queued. *)
Definition cancelFirst (synth : SynthFlags) : Log :=
  if speaking synth || pending synth then [SpeechCancel] else [].

(** The warning of a failed reformat stage. *)
Definition reformatWarning (label : jsstring) (mdErr : Thrown) : jsstring :=
  js "Markdown Conversion Error (" +++ label +++ js "): "
  +++ message_or mdErr (js "Could not format extracted text.")
  +++ js ". Raw text loaded.".

(** *** Sample data *)

Definition sampleTts : TTS := mkTTS false false None [] true true None.

Definition sampleApp : App :=
  mkApp (js "# Title") (js "Hello") false None false false None
        (Some (js "Speech error: network"))
        (mkLang (js "en-US") (js "English (US)")) sampleTts (js "C:\fakepath\a.pdf").

Definition dataUrl (payload : jsstring) : jsstring :=
  js "data:image/jpeg;base64," +++ payload.

(** An endpoint that reads every image except the second one it gets. *)
Definition sampleEnv : Env :=
  mkEnv (Some (js "key"))
        (fun n r =>
           match rq_contents r with
           | ImageAndText _ _ _ =>
               if Nat.eqb n 1 then RespReject (ErrorObj (js "overloaded"))
               else RespText (js " page text ")
           | PromptText _ => RespText (js "# page text")
           end).

(** An endpoint that reads images and fails to reformat. *)
Definition sampleEnvNoReformat : Env :=
  mkEnv (Some (js "key"))
        (fun n r =>
           match rq_contents r with
           | ImageAndText _ _ _ => RespText (js "raw text")
           | PromptText _ => RespReject (ErrorObj (js "quota"))
           end).

(** No credential at all. *)
Definition sampleEnvNoKey : Env := mkEnv None (fun _ _ => RespNoText).

Definition samplePdf (pages : list PageResult) : File :=
  mkFile (js "tbm.pdf") (js "application/pdf") (Opened pages) ReadError.

Definition sampleImage (type : jsstring) : File :=
  mkFile (js "tbm.img") type (OpenFails NonError) (ReadDataUrl (dataUrl (js "QUJD"))).

Definition koKR : Voice := mkVoice (js "Yuna") (js "ko-KR") false.
Definition enUS : Voice := mkVoice (js "Samantha") (js "en-US") true.
Definition filPH : Voice := mkVoice (js "Angelo") (js "fil-PH") false.
Definition kokIN : Voice := mkVoice (js "Konkani") (js "kok-IN") false.
Definition koBare : Voice := mkVoice (js "Korean") (js "ko") false.

Definition synthIdle : SynthFlags := mkSynthFlags false false.
Definition synthPaused : SynthFlags := mkSynthFlags true false.

(** A stand-in for the renderer on a one-line paragraph: [marked] wraps it
    in a paragraph element and ends with a line break; the sanitizer keeps
    that; the text content of the result drops the tags. *)
Definition sampleMarked (s : jsstring) : jsstring := js "<p>" +++ s +++ js "</p>
".
Definition sampleSanitize (_ : SanitizeConfig) (html : jsstring) : jsstring := html.

Fixpoint dropTags (inTag : bool) (html : jsstring) : jsstring :=
  match html with
  | [] => []
  | c :: r =>
      if (c =? 60)%N then dropTags true r
      else if (c =? 62)%N then dropTags false r
      else if inTag then dropTags inTag r
      else c :: dropTags inTag r
  end.

Definition sampleTextContent (html : jsstring) : jsstring := dropTags false html.

(** ** The rest of the hook and of the view *)

(** [loadVoices] of the hook's effect: a non-empty list replaces the known
    voices, an empty one is ignored. *)
Definition loadVoices (availableVoices : list Voice) (t : TTS) : TTS :=
  match availableVoices with
  | _ :: _ =>
      mkTTS (isSpeaking t) (isSynthesizing t) (ttsError t) availableVoices
            (isSupported t) (speechSynthesis t) (currentUtterance t)
  | [] => t
  end.

(** The hook's effect on mount: without [speechSynthesis] in [window] it
    records the error and unsets the support flag; otherwise it sets the
    flag and loads the voices. *)
Definition mountTTS (hasSpeechSynthesis : bool) (availableVoices : list Voice)
           (t : TTS) : TTS :=
  if hasSpeechSynthesis then
    loadVoices availableVoices
      (mkTTS (isSpeaking t) (isSynthesizing t) (ttsError t) (voices t)
             true true (currentUtterance t))
  else
    mkTTS (isSpeaking t) (isSynthesizing t)
          (Some (js "Web Speech API (Text-to-Speech) is not supported by this browser."))
          (voices t) false false (currentUtterance t).

(** [supportedLanguages] of [constants.ts]. *)
Definition supportedLanguages : list TargetLanguage :=
  [ mkLang (js "en-US") (js "English (US)");
    mkLang (js "es-ES") (js "Spanish (Spain)");
    mkLang (js "fr-FR") (js "French (France)");
    mkLang (js "de-DE") (js "German");
    mkLang (js "ja-JP") (js "Japanese");
    mkLang (js "ko-KR") (js "Korean");
    mkLang (js "vi-VN") (js "Vietnamese");
    mkLang (js "zh-CN") (js "Chinese (Simplified)");
    mkLang (js "ru-RU") (js "Russian");
    mkLang (js "uz-UZ") (js "Uzbek");
    mkLang (js "ne-NP") (js "Nepali");
    mkLang (js "id-ID") (js "Indonesian");
    mkLang (js "th-TH") (js "Thai");
    mkLang (js "my-MM") (js "Burmese (Myanmar)");
    mkLang (js "km-KH") (js "Khmer (Cambodian)") ].

(** [handleChange] of the language selector: the catalog entry with the
    chosen code, if there is one, goes to the selection callback. *)
Definition handleChange (langCode : jsstring) (s : App) (log : Log) : App * Log :=
  match find (fun lang => Js.eqb (code lang) langCode) supportedLanguages with
  | Some language => onSelectLanguage language s log
  | None => (s, log)
  end.

(** The speech alert of the view: shown when the slot holds a non-empty
    message, as an error when the message starts with the speech-error
    prefix or mentions missing support, as information otherwise. *)
Inductive AlertType := AlertError | AlertSuccess | AlertInfo | AlertWarning.

Definition ttsAlert (s : App) : option (jsstring * AlertType) :=
  match currentTtsError s with
  | Some (c :: m) =>
      Some (js "TTS Info: " +++ c :: m,
            if startsWith (js "Speech error:") (c :: m)
               || includes (js "not supported") (c :: m)
            then AlertError else AlertInfo)
  | _ => None
  end.

(** *** Vocabulary of the further statements *)

(** [r] occurs in [t] as a contiguous piece. *)
Definition substring_of (r t : jsstring) : Prop := exists a b, t = a ++ r ++ b.

Definition is_ocr_call (e : Event) : bool :=
  match e with CallExtractText _ _ => true | _ => false end.

(** A page that reaches the OCR call: it renders and its data URL has a
    non-empty payload. *)
Definition page_has_payload (page : PageResult) : bool :=
  match page with
  | Rendered imageDataUrl =>
      match split_second comma imageDataUrl with
      | Some (_ :: _) => true
      | _ => false
      end
  | _ => false
  end.

(** What a page throws into the outer [catch], if it does. *)
Definition page_throws (page : PageResult) : option Thrown :=
  match page with
  | GetPageFails e => Some e
  | NoCanvasContext =>
      Some (ErrorObj (js "Could not get canvas context for PDF page rendering."))
  | RenderFails e => Some e
  | Rendered _ => None
  end.

(** The fields no stage of the upload writes after its prologue. *)
Definition same_frame (a b : App) : Prop :=
  translatedText b = translatedText a /\ error b = error a
  /\ isLoading b = isLoading a /\ targetLanguage b = targetLanguage a.

(** The hook is idle. *)
Definition idle (t : TTS) : Prop :=
  isSpeaking t = false /\ isSynthesizing t = false /\ currentUtterance t = None.

(** An endpoint that rejects every request with the same message. *)
Definition rejectingEnv (message : jsstring) : Env :=
  mkEnv (Some (js "key")) (fun _ _ => RespReject (ErrorObj message)).

(** An endpoint that answers every image with one text and every prompt
    with another. *)
Definition answeringEnv (ocrAnswer promptAnswer : jsstring) : Env :=
  mkEnv (Some (js "key"))
        (fun _ r =>
           match rq_contents r with
           | ImageAndText _ _ _ => RespText ocrAnswer
           | PromptText _ => RespText promptAnswer
           end).

(** The endpoint answers images and prompts with fixed texts. *)
Definition answers (env : Env) (ocrAnswer promptAnswer : jsstring) : Prop :=
  forall n r,
    generateContent env n r
    = match rq_contents r with
      | ImageAndText _ _ _ => RespText ocrAnswer
      | PromptText _ => RespText promptAnswer
      end.


(** ** Facts about trimming *)

Section TrimFacts.

Lemma trimStart_split (s : jsstring) :
  exists w, s = w ++ trimStart s /\ forallb is_space w = true.
Proof.
  induction s as [|c r [w [E F]]]; simpl.
  - exists []; auto.
  - destruct (is_space c) eqn:Hc.
    + exists (c :: w). split; simpl.
      * f_equal. exact E.
      * rewrite Hc. exact F.
    + exists []; auto.
Qed.

Lemma trimStart_head (s : jsstring) : head_nonspace (trimStart s).
Proof.
  induction s as [|c r IH]; simpl; auto.
  destruct (is_space c) eqn:Hc; simpl; auto.
Qed.

Lemma trimStart_id (s : jsstring) : head_nonspace s -> trimStart s = s.
Proof. destruct s as [|c r]; simpl; auto. intros ->; reflexivity. Qed.

Lemma trimStart_spaces (w s : jsstring) :
  forallb is_space w = true -> trimStart (w ++ s) = trimStart s.
Proof.
  induction w as [|c w IH]; simpl; auto.
  intros H. apply andb_prop in H as [-> H]. auto.
Qed.

Lemma trimStart_app_keep (s t : jsstring) :
  trimStart s <> [] -> trimStart (s ++ t) = trimStart s ++ t.
Proof.
  induction s as [|c r IH]; simpl; [congruence|].
  destruct (is_space c); auto.
Qed.

Lemma trimEnd_split (s : jsstring) :
  exists w, s = trimEnd s ++ w /\ forallb is_space w = true.
Proof.
  unfold trimEnd. destruct (trimStart_split (rev s)) as [w [E F]].
  exists (rev w). split.
  - rewrite <- rev_app_distr, <- E, rev_involutive. reflexivity.
  - rewrite forallb_forall in *. intros c Hc. apply F, in_rev, Hc.
Qed.

Lemma trimEnd_last (s : jsstring) : head_nonspace (rev (trimEnd s)).
Proof. unfold trimEnd. rewrite rev_involutive. apply trimStart_head. Qed.

Lemma trimEnd_id (s : jsstring) : head_nonspace (rev s) -> trimEnd s = s.
Proof.
  intros H. unfold trimEnd. rewrite trimStart_id by exact H.
  apply rev_involutive.
Qed.

Lemma trimEnd_spaces (s w : jsstring) :
  forallb is_space w = true -> trimEnd (s ++ w) = trimEnd s.
Proof.
  intros H. unfold trimEnd. rewrite rev_app_distr, trimStart_spaces; auto.
  rewrite forallb_forall in *. intros c Hc. apply H, in_rev. exact Hc.
Qed.

Lemma trimEnd_head (s : jsstring) :
  head_nonspace s -> head_nonspace (trimEnd s).
Proof.
  intros H. destruct (trimEnd_split s) as [w [E _]].
  destruct (trimEnd s) as [|c r]; simpl; auto.
  rewrite E in H. exact H.
Qed.

Lemma trim_head (s : jsstring) : head_nonspace (trim s).
Proof. apply trimEnd_head, trimStart_head. Qed.

Lemma trim_last (s : jsstring) : head_nonspace (rev (trim s)).
Proof. apply trimEnd_last. Qed.

Lemma trim_id (s : jsstring) :
  head_nonspace s -> head_nonspace (rev s) -> trim s = s.
Proof.
  intros H1 H2. unfold trim. rewrite trimStart_id by exact H1.
  apply trimEnd_id, H2.
Qed.

Lemma trim_idem (s : jsstring) : trim (trim s) = trim s.
Proof. apply trim_id; [apply trim_head | apply trim_last]. Qed.

(** A text with a non-blank character splits into leading white space,
    its trimmed form and trailing white space. *)
Lemma trim_split (s : jsstring) :
  trim s <> [] ->
  exists w1 w2, s = w1 ++ trim s ++ w2
                /\ forallb is_space w1 = true /\ forallb is_space w2 = true.
Proof.
  intros _. destruct (trimStart_split s) as [w1 [E1 F1]].
  destruct (trimEnd_split (trimStart s)) as [w2 [E2 F2]].
  exists w1, w2. unfold trim. rewrite <- E2. auto.
Qed.

Lemma trimStart_blank (w : jsstring) :
  forallb is_space w = true -> trimStart w = [].
Proof.
  intros H. rewrite <- (app_nil_r w). rewrite trimStart_spaces by exact H.
  reflexivity.
Qed.

Lemma trimStart_nil_blank (s : jsstring) :
  trimStart s = [] -> forallb is_space s = true.
Proof.
  intros H. destruct (trimStart_split s) as (w & E & F).
  rewrite H, app_nil_r in E. subst. exact F.
Qed.

Lemma trim_nil_blank (s : jsstring) : trim s = [] -> forallb is_space s = true.
Proof.
  unfold trim, trimEnd. intros H. apply (f_equal (@rev N)) in H.
  rewrite rev_involutive in H. cbn [rev] in H.
  apply trimStart_nil_blank in H. apply trimStart_nil_blank.
  destruct (trimStart s) as [|c r] eqn:E; [reflexivity|]. exfalso.
  pose proof (trimStart_head s) as Hh. rewrite E in Hh. cbn in Hh.
  rewrite forallb_forall in H. rewrite (H c) in Hh; [discriminate|].
  apply (proj1 (in_rev (c :: r) c)). left. reflexivity.
Qed.

(** White space around a text does not change its trimmed form. *)
Lemma trim_spaces (w s w' : jsstring) :
  forallb is_space w = true -> forallb is_space w' = true ->
  trim (w ++ s ++ w') = trim s.
Proof.
  intros F F'. unfold trim. rewrite trimStart_spaces by exact F.
  destruct (trimStart s) as [|c r] eqn:E.
  - rewrite (trimStart_spaces s w') by (apply trimStart_nil_blank, E).
    rewrite (trimStart_blank w' F'). reflexivity.
  - rewrite trimStart_app_keep by (rewrite E; discriminate).
    rewrite E. apply trimEnd_spaces, F'.
Qed.

Lemma takeWhile_dropWhile (p : N -> bool) (s : jsstring) :
  s = takeWhile p s ++ dropWhile p s
  /\ forallb p (takeWhile p s) = true
  /\ match dropWhile p s with c :: _ => p c = false | [] => True end.
Proof.
  induction s as [|c r (E & F & H)]; simpl; auto.
  destruct (p c) eqn:Hc; simpl.
  - rewrite Hc, F, <- E. auto.
  - rewrite Hc. auto.
Qed.

Lemma dropWhile_all (p : N -> bool) (w s : jsstring) :
  forallb p w = true -> dropWhile p (w ++ s) = dropWhile p s.
Proof.
  induction w as [|c w IH]; simpl; auto.
  intros H. apply andb_prop in H as [-> H]. auto.
Qed.

End TrimFacts.

(** ** Facts about the matcher combinators *)

Section MatcherFacts.

Lemma orElse_some (a b : option MatchState) (r : MatchState) :
  orElse a b = Some r -> a = Some r \/ b = Some r.
Proof. destruct a; simpl; auto. Qed.

(** Greedy star: the longest run is tried first. *)
Lemma star_greedy_max (p : N -> bool) (k : Cont) (res : MatchState)
      (c1 c2 : option jsstring) (w r : jsstring) :
  forall i,
    forallb p w = true ->
    match r with c :: _ => p c = false | [] => True end ->
    k (mkState (i + length w) r c1 c2) = Some res ->
    star_greedy p (w ++ r) i c1 c2 k = Some res.
Proof.
  induction w as [|c w IH]; simpl; intros i Hw Hr Hk.
  - rewrite Nat.add_0_r in Hk. destruct r as [|c r]; simpl; auto.
    rewrite Hr. exact Hk.
  - apply andb_prop in Hw as [Hc Hw]. rewrite Hc.
    rewrite (IH (S i)); auto.
    rewrite <- Hk. f_equal. f_equal. lia.
Qed.

(** Whatever a star returns, the continuation returned it after a run of
    matching units. *)
Lemma star_greedy_inv (p : N -> bool) (k : Cont) (res : MatchState)
      (c1 c2 : option jsstring) (s : jsstring) :
  forall i,
    star_greedy p s i c1 c2 k = Some res ->
    exists w r, s = w ++ r /\ forallb p w = true
                /\ k (mkState (i + length w) r c1 c2) = Some res.
Proof.
  induction s as [|c s IH]; simpl; intros i H.
  - exists [], []. simpl. rewrite Nat.add_0_r. auto.
  - destruct (p c) eqn:Hc.
    + apply orElse_some in H as [H|H].
      * apply IH in H as (w & r & E & F & K).
        exists (c :: w), r. simpl. rewrite Hc, F, E.
        replace (i + S (length w)) with (S i + length w) by lia. auto.
      * exists [], (c :: s). simpl. rewrite Nat.add_0_r. auto.
    + exists [], (c :: s). simpl. rewrite Nat.add_0_r. auto.
Qed.

(** Lazy star: the shortest run the continuation accepts wins. *)
Lemma star_lazy_first (k : Cont) (res : MatchState)
      (c1 c2 : option jsstring) (b q : jsstring) :
  forall i,
    (forall b1 b2, b = b1 ++ b2 -> b2 <> [] ->
                   k (mkState (i + length b1) (b2 ++ q) c1 c2) = None) ->
    k (mkState (i + length b) q c1 c2) = Some res ->
    star_lazy any_unit (b ++ q) i c1 c2 k = Some res.
Proof.
  induction b as [|c b IH]; simpl; intros i Hn Hk.
  - rewrite Nat.add_0_r in Hk. destruct q; simpl; rewrite Hk; reflexivity.
  - assert (H0 := Hn [] (c :: b) eq_refl ltac:(discriminate)).
    simpl in H0. rewrite Nat.add_0_r in H0. rewrite H0. simpl.
    apply IH.
    + intros b1 b2 E Hb2. specialize (Hn (c :: b1) b2).
      simpl in Hn. rewrite <- Hn; subst; auto. f_equal. f_equal. lia.
    + rewrite <- Hk. f_equal. f_equal. lia.
Qed.

Lemma star_lazy_inv (p : N -> bool) (k : Cont) (res : MatchState)
      (c1 c2 : option jsstring) (s : jsstring) :
  forall i,
    star_lazy p s i c1 c2 k = Some res ->
    exists b q, s = b ++ q /\ k (mkState (i + length b) q c1 c2) = Some res.
Proof.
  induction s as [|c s IH]; simpl; intros i H.
  - apply orElse_some in H as [H|H]; [|discriminate].
    exists [], []. simpl. rewrite Nat.add_0_r. auto.
  - apply orElse_some in H as [H|H].
    + exists [], (c :: s). simpl. rewrite Nat.add_0_r. auto.
    + destruct (p c); [|discriminate].
      apply IH in H as (b & q & E & K).
      exists (c :: b), q. simpl. rewrite E.
      replace (i + S (length b)) with (S i + length b) by lia. auto.
Qed.

(** The closing-fence literal consumes exactly three backticks. *)
Lemma m_lit_fence (x : MatchState) (k : Cont) (r : jsstring) :
  ms_rest x = fence ++ r ->
  m_lit fence x k = k (mkState (3 + ms_pos x) r (ms_cap1 x) (ms_cap2 x)).
Proof.
  intros E. unfold fence, m_lit, m_seq, m_char. rewrite E. simpl. reflexivity.
Qed.

Lemma m_char_inv (p : N -> bool) (x : MatchState) (k : Cont) (res : MatchState) :
  m_char p x k = Some res ->
  exists c r, ms_rest x = c :: r /\ p c = true
              /\ k (mkState (S (ms_pos x)) r (ms_cap1 x) (ms_cap2 x)) = Some res.
Proof.
  unfold m_char. destruct (ms_rest x) as [|c r]; [discriminate|].
  destruct (p c) eqn:Hc; [|discriminate]. intros H. exists c, r. auto.
Qed.

Lemma m_lit_fence_inv (x : MatchState) (k : Cont) (res : MatchState) :
  m_lit fence x k = Some res ->
  exists r, ms_rest x = fence ++ r
            /\ k (mkState (3 + ms_pos x) r (ms_cap1 x) (ms_cap2 x)) = Some res.
Proof.
  change (m_lit fence) with
    (m_char (N.eqb backtick) ;; m_char (N.eqb backtick) ;;
     m_char (N.eqb backtick) ;; (fun y k' => k' y)).
  unfold m_seq. intros H.
  apply m_char_inv in H as (a & ra & Ea & Ha & H).
  apply m_char_inv in H as (b & rb & Eb & Hb & H).
  apply m_char_inv in H as (c & rc & Ec & Hc & H).
  apply N.eqb_eq in Ha, Hb, Hc. cbn [ms_rest ms_pos ms_cap1 ms_cap2] in *.
  subst a b c ra rb. exists rc. rewrite Ea. auto.
Qed.

Lemma space_not_backtick (w : jsstring) :
  forallb is_space w = true -> ~ In backtick w.
Proof.
  rewrite forallb_forall. intros H Hin. apply H in Hin. discriminate.
Qed.

Lemma word_not_backtick (w : jsstring) :
  forallb is_word w = true -> ~ In backtick w.
Proof.
  rewrite forallb_forall. intros H Hin. apply H in Hin. discriminate.
Qed.

(** The tail of the pattern accepts exactly white space followed by the
    closing fence. *)
Lemma fenceTail_inv (x : MatchState) (k : Cont) (res : MatchState) :
  fenceTail x k = Some res ->
  exists ws, ms_rest x = ws ++ fence /\ forallb is_space ws = true.
Proof.
  unfold fenceTail, m_seq, m_opt, m_star, m_eos. intros H.
  apply orElse_some in H as [H|H].
  - apply m_char_inv in H as (c & r & E & Hc & H).
    apply N.eqb_eq in Hc. subst c. cbn [ms_rest ms_pos ms_cap1 ms_cap2] in H.
    destruct (Nat.eqb _ _); [discriminate|].
    apply star_greedy_inv in H as (w & r' & E' & F & K).
    apply m_lit_fence_inv in K as (r'' & E'' & K).
    cbn [ms_rest ms_pos ms_cap1 ms_cap2] in *.
    destruct r''; [|discriminate].
    exists (newline :: w). rewrite E, E', E''. simpl. rewrite F. auto.
  - apply star_greedy_inv in H as (w & r' & E' & F & K).
    apply m_lit_fence_inv in K as (r'' & E'' & K).
    cbn [ms_rest ms_pos ms_cap1 ms_cap2] in *.
    destruct r''; [|discriminate].
    exists w. rewrite E', E''. auto.
Qed.

Lemma fenceTail_ok (x : MatchState) (k : Cont) (res : MatchState)
      (ws : jsstring) :
  forallb is_space ws = true ->
  ms_rest x = ws ++ fence ->
  k (mkState (ms_pos x + length ws + 3) [] (ms_cap1 x) (ms_cap2 x)) = Some res ->
  fenceTail x k = Some res.
Proof.
  intros F E K. unfold fenceTail, m_seq, m_opt.
  assert (Hstar : forall w i, forallb is_space w = true ->
            i + length w = ms_pos x + length ws ->
            star_greedy is_space (w ++ fence) i (ms_cap1 x) (ms_cap2 x)
              (fun y => m_lit fence y (fun z => m_eos z k)) = Some res).
  { intros w i Fw Hi. apply star_greedy_max; auto.
    - reflexivity.
    - erewrite m_lit_fence by reflexivity. unfold m_eos.
      cbn [ms_rest ms_pos ms_cap1 ms_cap2].
      rewrite <- K. f_equal. f_equal. lia. }
  unfold m_char at 1. rewrite E.
  destruct ws as [|c ws'].
  - change ([] ++ fence) with fence. unfold fence at 1.
    change (N.eqb newline backtick) with false. cbn [orElse].
    unfold m_star. rewrite E. apply (Hstar []); auto.
  - cbn [app]. cbn [forallb] in F. apply andb_prop in F as [Fc F].
    destruct (N.eqb_spec newline c) as [<-|Hne].
    + cbn [ms_rest ms_pos ms_cap1 ms_cap2].
      replace (Nat.eqb (S (ms_pos x)) (ms_pos x)) with false
        by (symmetry; apply Nat.eqb_neq; lia).
      unfold m_star. cbn [ms_rest ms_pos ms_cap1 ms_cap2].
      rewrite (Hstar ws'); auto; cbn [length]; lia.
    + cbn [orElse]. unfold m_star. rewrite E.
      apply (Hstar (c :: ws')); auto. cbn [forallb]. rewrite Fc. exact F.
Qed.

Lemma firstn_length_app (l r : jsstring) : firstn (length l) (l ++ r) = l.
Proof. induction l; simpl; congruence. Qed.

(** On white space, a body with a non-blank first and last unit, white
    space and the closing fence, group 2 is the body. *)
Lemma m_opt_newline_skip (x : MatchState) (k : Cont) :
  head_nonspace (ms_rest x) -> m_opt (m_char (N.eqb newline)) x k = k x.
Proof.
  unfold m_opt, m_char, head_nonspace. destruct (ms_rest x) as [|c r].
  - reflexivity.
  - destruct (N.eqb_spec newline c) as [<-|_]; [discriminate|reflexivity].
Qed.

Lemma head_nonspace_app (s t : jsstring) :
  s <> [] -> head_nonspace s -> head_nonspace (s ++ t).
Proof. destruct s; simpl; auto. congruence. Qed.

Lemma fenceBody_ok (x : MatchState) (w core ws2 : jsstring) :
  forallb is_space w = true ->
  core <> [] -> head_nonspace core -> head_nonspace (rev core) ->
  forallb is_space ws2 = true ->
  ms_rest x = w ++ core ++ ws2 ++ fence ->
  exists m, fenceBody x (fun y => Some y) = Some m /\ ms_cap2 m = Some core.
Proof.
  intros Fw Hne Hh Hl F2 E.
  assert (Hh' := head_nonspace_app core (ws2 ++ fence) Hne Hh).
  eexists. split.
  - unfold fenceBody, m_seq, m_star. rewrite E.
    apply star_greedy_max; auto.
    rewrite m_opt_newline_skip by exact Hh'.
    unfold m_group2, m_star_lazy.
    cbn [ms_rest ms_pos ms_cap1 ms_cap2].
    apply star_lazy_first.
    + intros b1 b2 Eb Hb2.
      match goal with |- ?t = None => destruct t eqn:Ht; [exfalso|reflexivity] end.
      apply fenceTail_inv in Ht as (ws & Ews & Fws).
      cbn [ms_rest] in Ews. rewrite app_assoc in Ews.
      apply app_inv_tail in Ews. subst ws.
      rewrite forallb_app in Fws. apply andb_prop in Fws as [Fb2 _].
      rewrite Eb, rev_app_distr in Hl.
      destruct (rev b2) as [|cl rb] eqn:Er.
      * apply (f_equal (@rev N)) in Er. rewrite rev_involutive in Er.
        simpl in Er. congruence.
      * simpl in Hl. rewrite forallb_forall in Fb2.
        rewrite (Fb2 cl) in Hl; [discriminate|].
        apply in_rev. rewrite Er. left; reflexivity.
    + eapply fenceTail_ok; [exact F2 | reflexivity | reflexivity].
  - cbn [ms_cap2]. unfold captured. cbn [ms_rest ms_pos]. f_equal.
    replace (ms_pos x + length w + length core - (ms_pos x + length w))
      with (length core) by lia.
    apply firstn_length_app.
Qed.

Lemma fenceBody_inv (x : MatchState) (k : Cont) (res : MatchState) :
  fenceBody x k = Some res -> exists pre, ms_rest x = pre ++ fence.
Proof.
  unfold fenceBody, m_seq, m_star, m_opt, m_group2, m_star_lazy. intros H.
  apply star_greedy_inv in H as (w & r & E & _ & H).
  cbn [ms_rest ms_pos ms_cap1 ms_cap2] in H.
  apply orElse_some in H as [H|H].
  - apply m_char_inv in H as (c & r' & E' & _ & H).
    cbn [ms_rest ms_pos ms_cap1 ms_cap2] in *.
    destruct (Nat.eqb _ _); [discriminate|].
    apply star_lazy_inv in H as (b & q & Eq & H).
    apply fenceTail_inv in H as (ws & Ews & _). cbn [ms_rest] in Ews.
    exists (w ++ c :: b ++ ws). rewrite E, E', Eq, Ews.
    rewrite <- !app_assoc. simpl. rewrite <- !app_assoc. reflexivity.
  - apply star_lazy_inv in H as (b & q & Eq & H).
    apply fenceTail_inv in H as (ws & Ews & _). cbn [ms_rest] in Ews.
    exists (w ++ b ++ ws). rewrite E, Eq, Ews.
    rewrite <- !app_assoc. reflexivity.
Qed.

(** The pattern is anchored: only start index 0 can match. *)
Lemma exec_from_anchored (s : jsstring) :
  forall i, exec_from fenceRegex (S i) s = None.
Proof.
  induction s as [|c s IH]; intros i; simpl; auto.
Qed.

Lemma exec_fenceRegex (s : jsstring) :
  exec fenceRegex s = fenceRegex (mkState 0 s None None) (fun y => Some y).
Proof.
  unfold exec. destruct s as [|c s]; cbn [exec_from].
  - destruct (fenceRegex _ _); reflexivity.
  - rewrite exec_from_anchored. destruct (fenceRegex _ _); reflexivity.
Qed.

(** Soundness: a text the pattern matches opens and closes with a fence. *)
Lemma fenceRegex_match_wrapped (c : jsstring) (m : MatchState) :
  exec fenceRegex c = Some m -> exists mid, c = fence ++ mid ++ fence.
Proof.
  rewrite exec_fenceRegex. unfold fenceRegex, m_seq, m_bos.
  cbn [ms_pos Nat.eqb]. intros H.
  apply m_lit_fence_inv in H as (r1 & E1 & H). cbn [ms_rest] in E1.
  unfold m_opt in H. apply orElse_some in H as [H|H].
  - unfold m_group1, m_star in H. cbn [ms_rest ms_pos ms_cap1 ms_cap2] in H.
    apply star_greedy_inv in H as (w & r2 & E2 & _ & H).
    cbn [ms_rest ms_pos ms_cap1 ms_cap2] in H.
    destruct (Nat.eqb _ _); [discriminate|].
    apply fenceBody_inv in H as (pre & Ep). cbn [ms_rest] in Ep.
    exists (w ++ pre). rewrite E1, E2, Ep, <- app_assoc. reflexivity.
  - apply fenceBody_inv in H as (pre & Ep). cbn [ms_rest] in Ep.
    exists pre. rewrite E1, Ep. reflexivity.
Qed.

Lemma wrapped_intro (mid : jsstring) : wrapped (fence ++ mid ++ fence) = true.
Proof.
  unfold wrapped, endsWith, fence. simpl. rewrite rev_app_distr.
  reflexivity.
Qed.

(** A star whose class rejects the next unit takes nothing. *)
Lemma star_greedy_none (p : N -> bool) (k : Cont) (c1 c2 : option jsstring)
      (s : jsstring) (i : nat) :
  match s with c :: _ => p c = false | [] => True end ->
  star_greedy p s i c1 c2 k = k (mkState i s c1 c2).
Proof. destruct s as [|c r]; simpl; auto. intros ->. reflexivity. Qed.

(** On white space and the closing fence alone, group 2 is empty. *)
Lemma fenceBody_blank (x : MatchState) (w : jsstring) :
  forallb is_space w = true ->
  ms_rest x = w ++ fence ->
  exists m, fenceBody x (fun y => Some y) = Some m /\ ms_cap2 m = Some [].
Proof.
  intros Fw E. eexists. split.
  - unfold fenceBody, m_seq, m_star. rewrite E.
    apply star_greedy_max; [exact Fw | reflexivity |].
    rewrite m_opt_newline_skip by reflexivity.
    unfold m_group2, m_star_lazy. cbn [ms_rest ms_pos ms_cap1 ms_cap2].
    unfold fence at 1. cbn [star_lazy]. fold fence.
    erewrite (fenceTail_ok _ _ _ []); [reflexivity | reflexivity | reflexivity |].
    reflexivity.
  - cbn [ms_cap2]. unfold captured. cbn [ms_rest ms_pos].
    rewrite Nat.sub_diag. reflexivity.
Qed.

(** On a tag of word characters followed by text that does not go on
    with a word character, group 2 is that text, trimmed. *)
Lemma fenceRegex_tagged (tag mid' : jsstring) :
  forallb is_word tag = true ->
  match mid' with c :: _ => is_word c = false | [] => True end ->
  exists m, exec fenceRegex (fence ++ (tag ++ mid') ++ fence) = Some m
            /\ ms_cap2 m = Some (trim mid').
Proof.
  intros Ft Hd.
  assert (Hhead : match mid' ++ fence with
                  | c :: _ => is_word c = false | [] => True end).
  { destruct mid' as [|c r]; [reflexivity | exact Hd]. }
  assert (Hbody : forall x, ms_rest x = mid' ++ fence ->
             exists m, fenceBody x (fun y => Some y) = Some m
                       /\ ms_cap2 m = Some (trim mid')).
  { intros x Ex. destruct (trim mid') as [|c t] eqn:Et.
    - apply (fenceBody_blank x mid'); [apply trim_nil_blank, Et | exact Ex].
    - destruct (trim_split mid') as (w1 & w2 & Eb & F1 & F2);
        [rewrite Et; discriminate|].
      rewrite <- Et.
      apply (fenceBody_ok x w1 (trim mid') w2); auto.
      + rewrite Et. discriminate.
      + apply trim_head.
      + apply trim_last.
      + rewrite Ex. rewrite Eb at 1. rewrite <- !app_assoc. reflexivity. }
  rewrite exec_fenceRegex. unfold fenceRegex, m_seq, m_bos.
  cbn [ms_pos Nat.eqb]. erewrite m_lit_fence by reflexivity.
  cbn [ms_rest ms_pos ms_cap1 ms_cap2]. unfold m_opt, m_group1, m_star.
  cbn [ms_rest ms_pos ms_cap1 ms_cap2].
  rewrite <- app_assoc.
  destruct tag as [|t tag'].
  - cbn [app]. rewrite star_greedy_none by exact Hhead.
    cbn [ms_pos]. rewrite Nat.eqb_refl. cbn [orElse].
    apply Hbody. reflexivity.
  - destruct (Hbody (mkState (3 + 0 + length (t :: tag')) (mid' ++ fence)
                      (Some (t :: tag')) None) eq_refl) as (m & Hm & Hc).
    exists m. split; [|exact Hc].
    match goal with
    | |- orElse ?a _ = _ => assert (Hs : a = Some m); [|rewrite Hs; reflexivity]
    end.
    apply star_greedy_max; [exact Ft | exact Hhead |].
    cbn [ms_rest ms_pos ms_cap1 ms_cap2 length].
    replace (Nat.eqb _ _) with false by (symmetry; apply Nat.eqb_neq; lia).
    rewrite <- Hm. f_equal. f_equal. unfold captured.
    cbn [ms_rest ms_pos length].
    replace (3 + 0 + S (length tag') - (3 + 0)) with (length (t :: tag'))
      by (cbn [length]; lia).
    f_equal. apply (firstn_length_app (t :: tag')).
Qed.

(** Completeness: on a wrapped text the pattern matches, and group 2 is
    what is left of the middle after the leading word characters, trimmed. *)
Lemma fenceRegex_wrapped (mid : jsstring) :
  exists m, exec fenceRegex (fence ++ mid ++ fence) = Some m
            /\ ms_cap2 m = Some (trim (dropWhile is_word mid)).
Proof.
  destruct (takeWhile_dropWhile is_word mid) as (Em & Ft & Hd).
  replace (fence ++ mid ++ fence)
    with (fence ++ (takeWhile is_word mid ++ dropWhile is_word mid) ++ fence)
    by (rewrite <- Em; reflexivity).
  apply fenceRegex_tagged; assumption.
Qed.

Lemma startsWith_split (p s : jsstring) :
  startsWith p s = true -> exists r, s = p ++ r.
Proof.
  revert s. induction p as [|a p IH]; intros s H.
  - exists s. reflexivity.
  - destruct s as [|b s]; [discriminate|]. simpl in H.
    apply andb_prop in H as [Hab H]. apply N.eqb_eq in Hab. subst b.
    destruct (IH s H) as [r ->]. exists r. reflexivity.
Qed.

Lemma wrapped_elim (c : jsstring) :
  wrapped c = true -> exists mid, c = fence ++ mid ++ fence.
Proof.
  unfold wrapped, endsWith. intros H. apply andb_prop in H as [H1 H2].
  apply startsWith_split in H1 as [r ->].
  change (skipn 3 (fence ++ r)) with r in H2.
  apply startsWith_split in H2 as [q E].
  exists (rev q). apply (f_equal (@rev N)) in E.
  rewrite rev_involutive, rev_app_distr, rev_involutive in E.
  rewrite E. reflexivity.
Qed.

Lemma middle_wrapped (mid : jsstring) : middle (fence ++ mid ++ fence) = mid.
Proof.
  unfold middle. change (skipn 3 (fence ++ mid ++ fence)) with (mid ++ fence).
  rewrite !length_app. change (length fence) with 3.
  replace (3 + (length mid + 3) - 6) with (length mid) by lia.
  apply firstn_length_app.
Qed.

Lemma fenced_trimmed (tag body : jsstring) :
  trim (fenced tag body) = fenced tag body.
Proof.
  apply trim_id.
  - reflexivity.
  - unfold fenced. rewrite !app_assoc, rev_app_distr. reflexivity.
Qed.

End MatcherFacts.

(** ** Fence stripping *)

Section FenceStripping.

Example strip_markdown_block :
  stripFence (fenced (js "markdown") (js "# Title")) = js "# Title".
Proof. vm_compute. reflexivity. Qed.

(** A text that is not wrapped comes back trimmed and otherwise as it is. *)
Lemma stripFence_unwrapped (text : jsstring) :
  wrapped (trim text) = false -> stripFence text = trim text.
Proof.
  intros H. unfold stripFence.
  destruct (exec fenceRegex (trim text)) as [m|] eqn:E; [|reflexivity].
  apply fenceRegex_match_wrapped in E as [mid E].
  rewrite E, wrapped_intro in H. discriminate.
Qed.

(** The transform in closed form. *)
Lemma stripFence_closed_form (text : jsstring) :
  stripFence text = stripFence_closed text.
Proof.
  unfold stripFence_closed. destruct (wrapped (trim text)) eqn:W.
  - apply wrapped_elim in W as [mid E]. unfold stripFence. rewrite E.
    destruct (fenceRegex_wrapped mid) as (m & -> & ->).
    rewrite middle_wrapped.
    destruct (trim (dropWhile is_word mid)) as [|c b] eqn:Et; [reflexivity|].
    rewrite <- Et. apply trim_idem.
  - apply stripFence_unwrapped, W.
Qed.

(** One fenced block with a non-blank body gives the trimmed body. *)
Lemma stripFence_fenced (tag body : jsstring) :
  forallb is_word tag = true -> trim body <> [] ->
  stripFence (fenced tag body) = trim body.
Proof.
  intros Ft Hb. rewrite stripFence_closed_form. unfold stripFence_closed.
  rewrite fenced_trimmed. unfold fenced.
  replace (fence ++ tag ++ [newline] ++ body ++ [newline] ++ fence)
    with (fence ++ (tag ++ [newline] ++ body ++ [newline]) ++ fence)
    by (rewrite <- !app_assoc; reflexivity).
  rewrite wrapped_intro, middle_wrapped, dropWhile_all by exact Ft.
  change (dropWhile is_word ([newline] ++ body ++ [newline]))
    with ([newline] ++ body ++ [newline]).
  rewrite trim_spaces by reflexivity.
  destruct (trim body); [congruence | reflexivity].
Qed.

(** The result never carries surrounding white space. *)
Lemma stripFence_trimmed (text : jsstring) :
  trim (stripFence text) = stripFence text.
Proof.
  unfold stripFence.
  destruct (exec fenceRegex (trim text)) as [m|]; [|apply trim_idem].
  destruct (ms_cap2 m) as [[|c b]|]; apply trim_idem.
Qed.

(** A second application changes nothing unless the first result is
    itself wrapped. *)
Lemma stripFence_twice (text : jsstring) :
  wrapped (stripFence text) = false ->
  stripFence (stripFence text) = stripFence text.
Proof.
  intros H. rewrite stripFence_unwrapped.
  - apply stripFence_trimmed.
  - rewrite stripFence_trimmed. exact H.
Qed.

(** C1, as amended: a text whose trimmed form is not wrapped in fences is
    returned trimmed (unchanged when it has no surrounding white space),
    and a second application changes nothing; a single fenced block with a
    language tag of word characters and a body that is not blank gives
    the trimmed body, and a second application changes nothing when that
    trimmed body is not itself wrapped in fences. *)
Theorem stripFence_idempotent_on_unwrapped_and_single_block
        (text tag body : jsstring) :
  (wrapped (trim text) = false ->
   stripFence text = trim text
   /\ (trim text = text -> stripFence text = text)
   /\ stripFence (stripFence text) = stripFence text)
  /\ (forallb is_word tag = true -> trim body <> [] ->
      stripFence (fenced tag body) = trim body
      /\ (wrapped (trim body) = false ->
          stripFence (stripFence (fenced tag body)) = stripFence (fenced tag body))).
Proof.
  split.
  - intros H. assert (E := stripFence_unwrapped text H). repeat split.
    + exact E.
    + intros T. rewrite E. exact T.
    + apply stripFence_twice. rewrite E. exact H.
  - intros Ft Hb. assert (E := stripFence_fenced tag body Ft Hb). split.
    + exact E.
    + intros H. apply stripFence_twice. rewrite E. exact H.
Qed.

Lemma stripFence_idempotent_witness :
  (stripFence (js "# Title") = js "# Title"
   /\ stripFence (stripFence (js "# Title")) = stripFence (js "# Title"))
  /\ (stripFence (fenced (js "markdown") (js "  # Title ")) = js "# Title"
      /\ stripFence (stripFence (fenced (js "markdown") (js "  # Title ")))
         = stripFence (fenced (js "markdown") (js "  # Title "))).
Proof.
  destruct (stripFence_idempotent_on_unwrapped_and_single_block
              (js "# Title") (js "markdown") (js "  # Title ")) as [A B].
  split.
  - destruct (A eq_refl) as (A1 & _ & A3). split; [exact A1 | exact A3].
  - destruct (B eq_refl ltac:(vm_compute; discriminate)) as (B1 & B2).
    split; [exact B1 | exact (B2 eq_refl)].
Defined.

(** C1, as stated, fails: a doubly fenced text loses one fence per
    application; a fenced block with an empty body comes back whole, not
    as its (empty) body; a language tag with a character outside the word
    class leaks into the result; a text with surrounding white space that
    is not wrapped comes back changed. *)
Lemma stripFence_not_idempotent :
  stripFence (stripFence (fenced [] (fenced [] (js "abc"))))
    <> stripFence (fenced [] (fenced [] (js "abc")))
  /\ stripFence (fenced (js "md") []) = fenced (js "md") []
  /\ stripFence (fenced (js "md") []) <> trim []
  /\ stripFence (fenced (js "c++") (js "x")) = js "++" +++ [newline] +++ js "x"
  /\ wrapped (js " hello ") = false
  /\ stripFence (js " hello ") <> js " hello ".
Proof.
  repeat split; vm_compute; discriminate.
Qed.

End FenceStripping.

(** ** The service client *)

Section ServiceFacts.

Variable env : Env.

Lemma ensure_configured :
  credentialConfigured env -> ensureApiKeyIsConfigured env = Ok tt.
Proof.
  intros (k & E & H). unfold ensureApiKeyIsConfigured. rewrite E.
  destruct (trim k); [congruence | reflexivity].
Qed.

Lemma ensure_missing :
  credentialMissing env ->
  ensureApiKeyIsConfigured env = Throw (ErrorObj configurationError).
Proof.
  unfold ensureApiKeyIsConfigured.
  intros [E | (k & E & H)]; rewrite E; [reflexivity|]. rewrite H. reflexivity.
Qed.

(** A model call appends exactly its request to the log. *)
Lemma callModel_log req onText bad prefix unknown (log : Log) :
  snd (callModel env req onText bad prefix unknown log) = log ++ [Network req].
Proof. unfold callModel. destruct (generateContent _ _ _); reflexivity. Qed.

(** The OCR operation returns trimmed text. *)
Lemma extractText_trimmed data mime (log log' : Log) (t : jsstring) :
  extractTextFromImageData env data mime log = (Ok t, log') -> trim t = t.
Proof.
  unfold extractTextFromImageData, callModel.
  destruct (ensureApiKeyIsConfigured env); [|discriminate].
  destruct (generateContent _ _ _); intros H; inversion H.
  apply trim_idem.
Qed.

(** The OCR operation appends only its own events. *)
Lemma extractText_log data mime (log : Log) :
  exists added,
    snd (extractTextFromImageData env data mime log) = log ++ added
    /\ forallb is_ocr_event added = true.
Proof.
  unfold extractTextFromImageData.
  destruct (ensureApiKeyIsConfigured env).
  - rewrite callModel_log. exists [CallExtractText data mime; Network (ocrRequest data mime)].
    rewrite <- app_assoc. split; reflexivity.
  - exists [CallExtractText data mime]. split; reflexivity.
Qed.

(** So does the page loop, however it ends. *)
Lemma ocrPages_log (pages : list PageResult) :
  forall (acc : jsstring) (log : Log),
  exists added,
    snd (ocrPages env pages acc log) = log ++ added
    /\ forallb is_ocr_event added = true.
Proof.
  induction pages as [|page rest IH]; intros acc log; cbn [ocrPages].
  - exists []. rewrite app_nil_r. split; reflexivity.
  - assert (Hskip : forall a, exists added,
               snd (ocrPages env rest a log) = log ++ added
               /\ forallb is_ocr_event added = true) by (intros a; apply IH).
    assert (Hnil : exists added : Log,
               log = log ++ added /\ forallb is_ocr_event added = true)
      by (exists []; rewrite app_nil_r; split; reflexivity).
    destruct page as [e| |e|url]; cbn [snd]; auto.
    destruct (split_second comma url) as [[|c d]|]; auto.
    destruct (extractText_log (Some (c :: d)) (js "image/jpeg") log)
      as (a1 & E1 & F1).
    destruct (extractTextFromImageData env (Some (c :: d)) (js "image/jpeg") log)
      as [[t|e] log1]; cbn [snd] in E1; subst log1.
    + destruct (IH (acc +++ t +++ blankLine) (log ++ a1)) as (a2 & E2 & F2).
      exists (a1 ++ a2). rewrite E2, app_assoc, forallb_app, F1, F2. auto.
    + destruct (IH acc (log ++ a1)) as (a2 & E2 & F2).
      exists (a1 ++ a2). rewrite E2, app_assoc, forallb_app, F1, F2. auto.
Qed.

End ServiceFacts.

(** ** The upload handler *)

Section Upload.

Variable env : Env.

(** What the statements before the dispatch leave behind. *)
Lemma beginUpload_state (s : App) (log : Log) :
  let s' := fst (beginUpload s log) in
  inputText s' = [] /\ translatedText s' = []
  /\ error s' = None /\ fileProcessingError s' = None
  /\ isExtractingText s' = true /\ isFormattingToMarkdown s' = false
  /\ currentTtsError s' = currentTtsError s.
Proof.
  unfold beginUpload, cancelIfSupported, cancel. cbn.
  destruct (isSupported (tts s)); cbn;
    [destruct (speechSynthesis (tts s)); cbn|]; repeat split.
Qed.

Lemma beginUpload_controls (s : App) (log : Log) :
  translateDisabled (fst (beginUpload s log)) = true
  /\ speakDisabled (fst (beginUpload s log)) = true.
Proof.
  destruct (beginUpload_state s log) as (_ & _ & _ & _ & E & _).
  unfold translateDisabled, speakDisabled, showOverallSpinner.
  cbv zeta in E. rewrite E. cbn [orb]. rewrite !orb_true_r. auto.
Qed.

Lemma formatStage_speech_slot label raw (s : App) (log : Log) :
  currentTtsError (fst (formatStage env label raw s log)) = currentTtsError s.
Proof.
  unfold formatStage. destruct (convertTextToMarkdown _ _ _) as [[md|e] l];
    reflexivity.
Qed.

(** No path of the handler writes the speech slot. *)
Lemma handleFileUpload_speech_slot (file : option File) (s : App) (log : Log) :
  currentTtsError (fst (handleFileUpload env file s log)) = currentTtsError s.
Proof.
  destruct file as [f|]; [|reflexivity]. unfold handleFileUpload.
  destruct (beginUpload_state s log) as (_ & _ & _ & _ & _ & _ & E).
  cbv zeta in E. destruct (beginUpload s log) as [s1 log0]. cbn [fst] in E.
  rewrite <- E. destruct (dispatch (file_type f)).
  - unfold pdfBranch. destruct (file_pdf f) as [e|e|pages]; try reflexivity.
    destruct (ocrPages env pages [] log0) as [[acc|e] log1]; [|reflexivity].
    unfold pdfFinish. destruct (truthy (trim acc)); [|reflexivity].
    match goal with
    | |- context [formatStage ?e ?l ?r ?st ?lg] =>
        assert (F := formatStage_speech_slot l r st lg);
        destruct (formatStage e l r st lg)
    end. exact F.
  - unfold imageBranch. destruct (file_read f) as [| |url].
    + destruct (fileProcessingError s) as [[|c m]|]; reflexivity.
    + destruct (fileProcessingError s) as [[|c m]|]; reflexivity.
    + destruct (extractTextFromImageData _ _ _ _) as [[raw|e] log1];
        [|reflexivity].
      destruct (truthy (trim raw)); [|reflexivity].
      match goal with
      | |- context [formatStage ?e ?l ?r ?st ?lg] =>
          assert (F := formatStage_speech_slot l r st lg);
          destruct (formatStage e l r st lg)
      end. exact F.
  - reflexivity.
Qed.

(** C2: on a file selection the handler empties both text buffers and the
    general and file-processing slots and disables translate and speak
    before ingestion starts, but it never writes the speech slot: that
    slot holds after the prologue, and after the whole upload, what it
    held before; a state showing a speech error still shows it. *)
Theorem upload_keeps_speech_error (file : File) (s : App) (log : Log) :
  let s1 := fst (beginUpload s log) in
  let s2 := fst (handleFileUpload env (Some file) s log) in
  inputText s1 = [] /\ translatedText s1 = []
  /\ error s1 = None /\ fileProcessingError s1 = None
  /\ translateDisabled s1 = true /\ speakDisabled s1 = true
  /\ currentTtsError s1 = currentTtsError s
  /\ currentTtsError s2 = currentTtsError s
  /\ currentTtsError
       (fst (handleFileUpload sampleEnv (Some (samplePdf [])) sampleApp []))
     = Some (js "Speech error: network").
Proof.
  intros s1 s2.
  destruct (beginUpload_state s log) as (H1 & H2 & H3 & H4 & _ & _ & H7).
  destruct (beginUpload_controls s log) as (C1 & C2).
  repeat split; auto.
  apply handleFileUpload_speech_slot.
Qed.

Lemma handleTranslate_clears_speech_slot :
  currentTtsError (fst (handleTranslate sampleEnv [] sampleApp [])) = None.
Proof. vm_compute. reflexivity. Qed.

Lemma beginUpload_log (s : App) (log : Log) :
  snd (beginUpload s log) = log \/ snd (beginUpload s log) = log ++ [SpeechCancel].
Proof.
  unfold beginUpload, cancelIfSupported, cancel. cbn.
  destruct (isSupported (tts s)); cbn; auto.
  destruct (speechSynthesis (tts s)); cbn; auto.
Qed.

Lemma dispatch_pdf : dispatch (js "application/pdf") = KindPdf.
Proof. reflexivity. Qed.

(** The post-loop stage never reports a PDF processing error. *)
Lemma pdfFinish_not_fatal (acc : jsstring) (s : App) (log : Log) (m : jsstring) :
  fileProcessingError s = None ->
  fileProcessingError (fst (pdfFinish env acc s log))
    <> Some (js "PDF Processing/OCR Error: " +++ m).
Proof.
  intros E. unfold pdfFinish, formatStage.
  destruct (truthy (trim acc)).
  - destruct (convertTextToMarkdown _ _ _) as [[md|e] l]; cbn.
    + rewrite E. discriminate.
    + discriminate.
  - cbn. discriminate.
Qed.

Lemma pdfFinish_flags (acc : jsstring) (s : App) (log : Log) :
  isFormattingToMarkdown s = false ->
  isExtractingText (fst (pdfFinish env acc s log)) = false
  /\ isFormattingToMarkdown (fst (pdfFinish env acc s log)) = false.
Proof.
  intros E. unfold pdfFinish, formatStage. destruct (truthy (trim acc)).
  - destruct (convertTextToMarkdown _ _ _) as [[md|e] l]; cbn; auto.
  - cbn. auto.
Qed.

(** The handler on a PDF whose page loop ends normally. *)
Lemma handleFileUpload_pdf (f : File) (s : App) (log log1 : Log)
      (pages : list PageResult) (acc : jsstring) :
  file_type f = js "application/pdf" ->
  file_pdf f = Opened pages ->
  ocrPages env pages [] (snd (beginUpload s log)) = (Ok acc, log1) ->
  handleFileUpload env (Some f) s log
  = (clearFileInput (fst (pdfFinish env acc (fst (beginUpload s log)) log1)),
     snd (pdfFinish env acc (fst (beginUpload s log)) log1)).
Proof.
  intros Et Ep Eo. unfold handleFileUpload.
  destruct (beginUpload s log) as [s1 log0]. cbn [fst snd] in *.
  rewrite Et, dispatch_pdf. unfold pdfBranch. rewrite Ep, Eo.
  destruct (pdfFinish env acc s1 log1). reflexivity.
Qed.

(** A page whose OCR call fails adds nothing and the loop goes on with
    the remaining pages. *)
Lemma ocrPages_failed_page (u d : jsstring) (rest : list PageResult)
      (acc : jsstring) (e : Thrown) (log log' : Log) :
  split_second comma u = Some d -> truthy d = true ->
  extractTextFromImageData env (Some d) (js "image/jpeg") log = (Throw e, log') ->
  ocrPages env (Rendered u :: rest) acc log = ocrPages env rest acc log'.
Proof.
  intros S T E. cbn [ocrPages]. rewrite S.
  destruct d as [|c d]; [discriminate|]. rewrite E. reflexivity.
Qed.

(** A page whose OCR call succeeds adds its text and a blank line. *)
Lemma ocrPages_read_page (u d t : jsstring) (rest : list PageResult)
      (acc : jsstring) (log log' : Log) :
  split_second comma u = Some d -> truthy d = true ->
  extractTextFromImageData env (Some d) (js "image/jpeg") log = (Ok t, log') ->
  ocrPages env (Rendered u :: rest) acc log
  = ocrPages env rest (acc +++ t +++ blankLine) log'.
Proof.
  intros S T E. cbn [ocrPages]. rewrite S.
  destruct d as [|c d]; [discriminate|]. rewrite E. reflexivity.
Qed.

(** C3: a page whose OCR call fails adds nothing to the accumulated text
    and the loop goes on with the remaining pages; so when the second of
    three pages fails OCR, the accumulated raw text is the text of pages
    1 and 3, each followed by a blank line; the upload goes on to the
    stage after the loop with that text and does not end in a PDF
    processing error. *)
Theorem pdf_failed_page_is_skipped
        (u1 u2 u3 d1 d2 d3 t1 t3 : jsstring) (e2 : Thrown)
        (log0 log1 log2 log3 : Log) :
  split_second comma u1 = Some d1 -> truthy d1 = true ->
  split_second comma u2 = Some d2 -> truthy d2 = true ->
  split_second comma u3 = Some d3 -> truthy d3 = true ->
  extractTextFromImageData env (Some d1) (js "image/jpeg") log0 = (Ok t1, log1) ->
  extractTextFromImageData env (Some d2) (js "image/jpeg") log1 = (Throw e2, log2) ->
  extractTextFromImageData env (Some d3) (js "image/jpeg") log2 = (Ok t3, log3) ->
  let pages := [Rendered u1; Rendered u2; Rendered u3] in
  let fullRawText := t1 +++ blankLine +++ t3 +++ blankLine in
  (forall rest acc,
      ocrPages env (Rendered u2 :: rest) acc log1 = ocrPages env rest acc log2)
  /\ ocrPages env pages [] log0 = (Ok fullRawText, log3)
  /\ forall (f : File) (s : App) (log : Log),
      file_type f = js "application/pdf" ->
      file_pdf f = Opened pages ->
      snd (beginUpload s log) = log0 ->
      let s' := fst (handleFileUpload env (Some f) s log) in
      s' = clearFileInput (fst (pdfFinish env fullRawText (fst (beginUpload s log)) log3))
      /\ isExtractingText s' = false
      /\ isFormattingToMarkdown s' = false
      /\ forall m, fileProcessingError s'
                   <> Some (js "PDF Processing/OCR Error: " +++ m).
Proof.
  intros S1 T1 S2 T2 S3 T3 E1 E2 E3 pages fullRawText.
  assert (Hskip : forall rest acc,
             ocrPages env (Rendered u2 :: rest) acc log1
             = ocrPages env rest acc log2).
  { intros rest acc. apply (ocrPages_failed_page u2 d2 rest acc e2); assumption. }
  assert (Hloop : ocrPages env pages [] log0 = (Ok fullRawText, log3)).
  { unfold pages, fullRawText.
    rewrite (ocrPages_read_page u1 d1 t1 _ _ log0 log1 S1 T1 E1).
    rewrite Hskip.
    rewrite (ocrPages_read_page u3 d3 t3 _ _ log2 log3 S3 T3 E3).
    cbn [ocrPages app]. rewrite <- app_assoc. reflexivity. }
  split; [exact Hskip|]. split; [exact Hloop|].
  intros f s log Et Ep El s'.
  destruct (beginUpload_state s log) as (_ & _ & _ & Hfp & _ & Hfm & _).
  cbv zeta in Hfp, Hfm.
  assert (Hs : s' = clearFileInput
                      (fst (pdfFinish env fullRawText (fst (beginUpload s log)) log3))).
  { unfold s'. rewrite (handleFileUpload_pdf f s log log3 pages fullRawText Et Ep); [reflexivity|].
    rewrite El. exact Hloop. }
  split; [exact Hs|]. rewrite Hs.
  destruct (pdfFinish_flags fullRawText (fst (beginUpload s log)) log3 Hfm)
    as [F1 F2].
  repeat split; cbn; auto.
  intros m. apply (pdfFinish_not_fatal fullRawText _ log3 m Hfp).
Qed.

(** C4: when every page was processed and the accumulated text is blank,
    the upload ends with the no-content message in the file-processing
    slot and nothing in the buffer, and no reformat or translate event
    was produced. *)
Theorem pdf_without_text_reports_no_content
        (f : File) (s : App) (log log1 : Log)
        (pages : list PageResult) (fullRawText : jsstring) :
  file_type f = js "application/pdf" ->
  file_pdf f = Opened pages ->
  ocrPages env pages [] (snd (beginUpload s log)) = (Ok fullRawText, log1) ->
  trim fullRawText = [] ->
  let s' := fst (handleFileUpload env (Some f) s log) in
  let log' := snd (handleFileUpload env (Some f) s log) in
  fileProcessingError s'
  = Some (js "No text content could be extracted from the PDF (OCR).")
  /\ inputText s' = []
  /\ isExtractingText s' = false /\ isFormattingToMarkdown s' = false
  /\ exists added,
      log' = log ++ added
      /\ forallb (fun e => negb (is_reformat_or_translate e)) added = true.
Proof.
  intros Et Ep Eo Hblank s' log'. unfold s', log'.
  rewrite (handleFileUpload_pdf f s log log1 pages fullRawText Et Ep Eo).
  destruct (beginUpload_state s log) as (Hin & _ & _ & _ & _ & Hfm & _).
  cbv zeta in Hin, Hfm.
  unfold pdfFinish. rewrite Hblank. cbn.
  repeat split; auto.
  destruct (ocrPages_log env pages [] (snd (beginUpload s log)))
    as (a & Ea & Fa).
  rewrite Eo in Ea. cbn [snd] in Ea.
  assert (Fa' : forallb (fun e => negb (is_reformat_or_translate e)) a = true).
  { rewrite forallb_forall in *. intros e He. apply Fa in He.
    destruct e as [| | |r| |]; try discriminate; try reflexivity.
    cbn in *. destruct (rq_contents r); [reflexivity|discriminate]. }
  destruct (beginUpload_log s log) as [El|El]; rewrite El in Ea.
  - exists a. auto.
  - exists ([SpeechCancel] ++ a). rewrite app_assoc. split; [exact Ea|].
    cbn. exact Fa'.
Qed.

Lemma eqb_true (a b : jsstring) : Js.eqb a b = true <-> a = b.
Proof.
  unfold Js.eqb. destruct (list_eq_dec N.eq_dec a b); split; auto; discriminate.
Qed.

Lemma eqb_false (a b : jsstring) : Js.eqb a b = false <-> a <> b.
Proof.
  unfold Js.eqb. destruct (list_eq_dec N.eq_dec a b); split; auto;
    try discriminate. intros H; contradiction.
Qed.

Lemma list_includes_In (l : list jsstring) (x : jsstring) :
  list_includes l x = true <-> In x l.
Proof.
  unfold list_includes. rewrite existsb_exists. split.
  - intros (y & Hy & E). apply eqb_true in E. subst. exact Hy.
  - intros H. exists x. split; [exact H | apply eqb_true; reflexivity].
Qed.

Lemma dispatch_image (type : jsstring) :
  In (toLowerCase type) validImageTypes -> dispatch type = KindImage.
Proof.
  intros H. unfold dispatch.
  destruct (Js.eqb type (js "application/pdf")) eqn:E.
  - apply eqb_true in E. subst type. exfalso.
    repeat (destruct H as [H|H]; [discriminate H|]). exact H.
  - apply list_includes_In in H. rewrite H. reflexivity.
Qed.

Lemma dispatch_unsupported (type : jsstring) :
  ~ In (toLowerCase type) (js "application/pdf" :: validImageTypes) ->
  dispatch type = KindUnsupported.
Proof.
  intros H. unfold dispatch.
  destruct (Js.eqb type (js "application/pdf")) eqn:E.
  - apply eqb_true in E. subst type. exfalso. apply H. left. reflexivity.
  - destruct (list_includes validImageTypes (toLowerCase type)) eqn:I;
      [|reflexivity].
    apply list_includes_In in I. exfalso. apply H. right. exact I.
Qed.

(** C5: once OCR has produced non-empty raw text, a failing reformat
    leaves the raw text in the input buffer and a warning in the
    file-processing slot, and the upload ends with both progress flags
    down; a successful reformat leaves the reformatted markup in the
    buffer and no warning. *)
Theorem reformat_failure_keeps_raw_text
        (f : File) (s : App) (log log1 log2 : Log) (raw : jsstring)
        (r : Result jsstring) :
  ocrSucceeded env f (snd (beginUpload s log)) raw log1 ->
  raw <> [] ->
  convertTextToMarkdown env raw log1 = (r, log2) ->
  let s' := fst (handleFileUpload env (Some f) s log) in
  isExtractingText s' = false /\ isFormattingToMarkdown s' = false
  /\ match r with
     | Throw mdErr =>
         inputText s' = raw
         /\ fileProcessingError s' = Some (reformatWarning (branchLabel f) mdErr)
     | Ok markdownText =>
         inputText s' = markdownText /\ fileProcessingError s' = None
     end.
Proof.
  intros Hocr Hraw Hconv s'. unfold s', handleFileUpload.
  destruct (beginUpload_state s log) as (_ & _ & _ & Hfp & _ & _ & _).
  cbv zeta in Hfp. unfold ocrSucceeded, branchLabel in *.
  destruct (beginUpload s log) as [s1 log0]. cbn [fst snd] in *.
  destruct (dispatch (file_type f)); [| |contradiction].
  - destruct Hocr as (pages & acc & Ep & Eo & Er). subst raw.
    unfold pdfBranch. rewrite Ep, Eo. unfold pdfFinish.
    destruct (trim acc) as [|c t] eqn:Et; [congruence|]. cbn [truthy].
    unfold formatStage. rewrite Hconv.
    destruct r as [md|e]; cbn; auto.
  - destruct Hocr as (url & Er & Eo).
    assert (Ht := extractText_trimmed env _ _ _ _ _ Eo).
    unfold imageBranch. rewrite Er, Eo. rewrite Ht.
    destruct raw as [|c t]; [congruence|]. cbn [truthy].
    unfold formatStage. rewrite Hconv.
    destruct r as [md|e]; cbn; auto.
Qed.

Lemma toLowerCase_idempotent (type : jsstring) :
  toLowerCase (toLowerCase type) = toLowerCase type.
Proof.
  unfold toLowerCase. rewrite map_map. apply map_ext. intros c.
  destruct ((65 <=? c) && (c <=? 90))%N eqn:E; [|rewrite E; reflexivity].
  apply andb_prop in E as [E1 E2]. apply N.leb_le in E1, E2.
  replace (c + 32 <=? 90)%N with false by (symmetry; apply N.leb_gt; lia).
  rewrite andb_false_r. reflexivity.
Qed.

(** C6, as amended.  Of the type the handler reads: [application/pdf]
    takes the PDF branch; a type that lower-cases to [image/jpeg],
    [image/png], [image/webp] or [image/jpg] takes the image branch; a
    type that lower-cases to none of these five is rejected with a message
    naming the file and that type, the progress flag is down again, and
    the log holds no event beyond those of the statements before the
    dispatch, none of them a service event.  Of the declared type: the
    handler reads it in lower case, so the match does not depend on case:
    a file whose declared type lower-cases to [application/pdf] takes the
    PDF branch, one whose declared type lower-cases to one of the four
    image types takes the image branch, and a file of any other declared
    type is rejected as above. *)
Theorem dispatch_by_declared_type (f : File) (s : App) (log : Log) :
  let s1 := fst (beginUpload s log) in
  let log0 := snd (beginUpload s log) in
  let rejected (type : jsstring) :=
    fileProcessingError (fst (handleFileUpload env (Some f) s log))
    = Some (js "Unsupported file type: " +++ file_name f +++ js " (" +++ type
            +++ js "). Please upload a PDF, JPG, PNG, or WEBP file.")
    /\ isExtractingText (fst (handleFileUpload env (Some f) s log)) = false
    /\ snd (handleFileUpload env (Some f) s log) = log0
    /\ filter is_service_event log0 = filter is_service_event log in
  (file_type f = js "application/pdf" ->
   handleFileUpload env (Some f) s log = pdfBranch env f s1 log0)
  /\ (In (toLowerCase (file_type f))
         [js "image/jpeg"; js "image/png"; js "image/webp"; js "image/jpg"] ->
      handleFileUpload env (Some f) s log
      = imageBranch env (fileProcessingError s) f s1 log0)
  /\ (~ In (toLowerCase (file_type f))
          [js "application/pdf"; js "image/jpeg"; js "image/png";
           js "image/webp"; js "image/jpg"] ->
      rejected (file_type f))
  /\ (forall declared, declaredAs f declared ->
      (toLowerCase declared = js "application/pdf" ->
       handleFileUpload env (Some f) s log = pdfBranch env f s1 log0)
      /\ (In (toLowerCase declared)
             [js "image/jpeg"; js "image/png"; js "image/webp"; js "image/jpg"] ->
          handleFileUpload env (Some f) s log
          = imageBranch env (fileProcessingError s) f s1 log0)
      /\ (~ In (toLowerCase declared)
              [js "application/pdf"; js "image/jpeg"; js "image/png";
               js "image/webp"; js "image/jpg"] ->
          rejected (toLowerCase declared))).
Proof.
  intros s1 log0 rejected.
  assert (Hrej : ~ In (toLowerCase (file_type f))
                      [js "application/pdf"; js "image/jpeg"; js "image/png";
                       js "image/webp"; js "image/jpg"] ->
                 rejected (file_type f)).
  { intros H. unfold rejected, s1, log0, handleFileUpload.
    assert (Hlog := beginUpload_log s log).
    destruct (beginUpload s log) as [s1' log0']. cbn [fst snd] in *.
    rewrite (dispatch_unsupported _ H). cbn [fst snd]. unfold unsupportedMessage.
    repeat split.
    destruct Hlog as [-> | ->]; [reflexivity|].
    rewrite filter_app. cbn. apply app_nil_r. }
  assert (Hpdf : file_type f = js "application/pdf" ->
                 handleFileUpload env (Some f) s log = pdfBranch env f s1 log0).
  { intros E. unfold s1, log0, handleFileUpload.
    destruct (beginUpload s log) as [s1' log0']. rewrite E, dispatch_pdf.
    reflexivity. }
  assert (Himg : In (toLowerCase (file_type f))
                    [js "image/jpeg"; js "image/png"; js "image/webp"; js "image/jpg"] ->
                 handleFileUpload env (Some f) s log
                 = imageBranch env (fileProcessingError s) f s1 log0).
  { intros H. unfold s1, log0, handleFileUpload.
    destruct (beginUpload s log) as [s1' log0']. rewrite (dispatch_image _ H).
    reflexivity. }
  split; [exact Hpdf|]. split; [exact Himg|]. split; [exact Hrej|].
  intros declared Hd. unfold declaredAs in Hd.
  split; [|split].
  - intros E. apply Hpdf. rewrite Hd. exact E.
  - intros H. apply Himg. rewrite Hd, toLowerCase_idempotent. exact H.
  - intros H. rewrite <- Hd. apply Hrej.
    rewrite Hd, toLowerCase_idempotent. exact H.
Qed.

Lemma convert_log (raw : jsstring) (l : Log) :
  exists added, snd (convertTextToMarkdown env raw l) = l ++ added.
Proof.
  unfold convertTextToMarkdown. destruct (ensureApiKeyIsConfigured env).
  - destruct (negb (truthy (trim raw))).
    + eexists. reflexivity.
    + rewrite callModel_log, <- app_assoc. eexists. reflexivity.
  - eexists. reflexivity.
Qed.

Lemma formatStage_log (label raw : jsstring) (s : App) (l : Log) :
  exists added, snd (formatStage env label raw s l) = l ++ added.
Proof.
  unfold formatStage. destruct (convert_log raw l) as (added & E).
  destruct (convertTextToMarkdown env raw l) as [[md|e] l']; cbn [snd] in *;
    exists added; exact E.
Qed.

(** The OCR operation logs its invocation and, with a configured
    credential, its request. *)
Lemma extractText_shape (data : option jsstring) (mime : jsstring) (l : Log) :
  exists rest,
    snd (extractTextFromImageData env data mime l)
    = l ++ CallExtractText data mime :: rest
    /\ (credentialConfigured env ->
        exists rest', rest = Network (ocrRequest data mime) :: rest').
Proof.
  unfold extractTextFromImageData.
  destruct (ensureApiKeyIsConfigured env) as [[]|e] eqn:Ek.
  - rewrite callModel_log, <- app_assoc. eexists. split; [reflexivity|].
    intros _. eexists. reflexivity.
  - exists []. split; [reflexivity|].
    intros Hc. rewrite (ensure_configured env Hc) in Ek. discriminate.
Qed.

(** C10: a file declared [image/jpg] is dispatched like one declared
    [image/jpeg], to the image branch; when its bytes are read, the OCR
    operation is invoked on the base64 payload with the declared type,
    and with a configured credential the request goes out; the upload
    never ends in the unsupported-type message. *)
Theorem jpg_alias_is_accepted (f : File) (s : App) (log : Log) :
  file_type f = js "image/jpg" ->
  let s1 := fst (beginUpload s log) in
  let log0 := snd (beginUpload s log) in
  let s' := fst (handleFileUpload env (Some f) s log) in
  let log' := snd (handleFileUpload env (Some f) s log) in
  dispatch (file_type f) = dispatch (js "image/jpeg")
  /\ handleFileUpload env (Some f) s log
     = imageBranch env (fileProcessingError s) f s1 log0
  /\ (forall url, file_read f = ReadDataUrl url ->
        exists rest,
          log' = log0 ++ CallExtractText (split_second comma url) (js "image/jpg") :: rest
          /\ (credentialConfigured env ->
              exists rest',
                rest = Network (ocrRequest (split_second comma url) (js "image/jpg"))
                       :: rest'))
  /\ fileProcessingError s' <> Some (unsupportedMessage f).
Proof.
  intros Et s1 log0 s' log'.
  assert (Hd : dispatch (file_type f) = KindImage) by (rewrite Et; reflexivity).
  assert (Hh : handleFileUpload env (Some f) s log
               = imageBranch env (fileProcessingError s) f s1 log0).
  { unfold handleFileUpload, s1, log0.
    destruct (beginUpload s log) as [a b]. rewrite Hd. reflexivity. }
  destruct (beginUpload_state s log) as (_ & _ & _ & Hfp & _ & _ & _).
  cbv zeta in Hfp. fold s1 in Hfp.
  split; [rewrite Hd; reflexivity|]. split; [exact Hh|]. split.
  - intros url Er. unfold log'. rewrite Hh. unfold imageBranch.
    rewrite Er, Et.
    destruct (extractText_shape (split_second comma url) (js "image/jpg") log0)
      as (rest & El & Hk).
    assert (Hadd : forall l2 : Log, (exists added, l2 = snd
                (extractTextFromImageData env (split_second comma url)
                   (js "image/jpg") log0) ++ added) ->
              exists rest0,
                l2 = log0 ++ CallExtractText (split_second comma url) (js "image/jpg")
                          :: rest0
                /\ (credentialConfigured env ->
                    exists rest',
                      rest0 = Network (ocrRequest (split_second comma url)
                                                  (js "image/jpg")) :: rest')).
    { intros l2 (added & E2). rewrite El in E2. exists (rest ++ added). split.
      - rewrite E2, <- app_assoc. reflexivity.
      - intros Hc. destruct (Hk Hc) as (rest' & ->).
        exists (rest' ++ added). reflexivity. }
    destruct (extractTextFromImageData env (split_second comma url)
                (js "image/jpg") log0) as [[raw|e] l1]; cbn [snd] in *.
    + destruct (truthy (trim raw)).
      * match goal with
        | |- context [formatStage ?a ?b ?c ?d ?l] =>
            destruct (formatStage_log b c d l) as (added & Ea);
            destruct (formatStage a b c d l) as [sf lf]
        end.
        cbn [snd] in *. apply Hadd. exists added. exact Ea.
      * cbn [snd]. apply Hadd. exists []. rewrite app_nil_r. reflexivity.
    + cbn [snd]. apply Hadd. exists []. rewrite app_nil_r. reflexivity.
  - unfold s'. rewrite Hh. unfold imageBranch, unsupportedMessage.
    destruct (file_read f) as [| |url].
    + destruct (fileProcessingError s) as [[|c m]|]; cbn; rewrite ?Hfp;
        discriminate.
    + destruct (fileProcessingError s) as [[|c m]|]; cbn; rewrite ?Hfp;
        discriminate.
    + destruct (extractTextFromImageData _ _ _ _) as [[raw|e] l1]; cbn;
        [|discriminate].
      destruct (truthy (trim raw)); cbn; [|discriminate].
      unfold formatStage.
      destruct (convertTextToMarkdown _ _ _) as [[md|e] l2]; cbn;
        rewrite ?Hfp; discriminate.
Qed.

End Upload.

(** ** Instances of the upload theorems *)

Lemma pdf_failed_page_is_skipped_witness :
  fst (ocrPages sampleEnv
         [Rendered (dataUrl (js "QUJD")); Rendered (dataUrl (js "REVG"));
          Rendered (dataUrl (js "R0hJ"))] [] [SpeechCancel])
  = Ok (js "page text" +++ blankLine +++ js "page text" +++ blankLine).
Proof.
  pose (l1 := snd (extractTextFromImageData sampleEnv (Some (js "QUJD"))
                     (js "image/jpeg") [SpeechCancel])).
  pose (l2 := snd (extractTextFromImageData sampleEnv (Some (js "REVG"))
                     (js "image/jpeg") l1)).
  pose (l3 := snd (extractTextFromImageData sampleEnv (Some (js "R0hJ"))
                     (js "image/jpeg") l2)).
  destruct (pdf_failed_page_is_skipped sampleEnv
              (dataUrl (js "QUJD")) (dataUrl (js "REVG")) (dataUrl (js "R0hJ"))
              (js "QUJD") (js "REVG") (js "R0hJ")
              (js "page text") (js "page text")
              (ErrorObj (js "AI OCR service error: overloaded"))
              [SpeechCancel] l1 l2 l3
              eq_refl eq_refl eq_refl eq_refl eq_refl eq_refl
              ltac:(vm_compute; reflexivity)
              ltac:(vm_compute; reflexivity)
              ltac:(vm_compute; reflexivity)) as (_ & H & _).
  rewrite H. reflexivity.
Defined.

Lemma pdf_without_text_reports_no_content_witness :
  fileProcessingError
    (fst (handleFileUpload sampleEnvNoKey
            (Some (samplePdf [Rendered (dataUrl (js "QUJD")); Rendered (js "blank")]))
            sampleApp []))
  = Some (js "No text content could be extracted from the PDF (OCR).").
Proof.
  pose (pages := [Rendered (dataUrl (js "QUJD")); Rendered (js "blank")]).
  pose (l1 := snd (ocrPages sampleEnvNoKey pages [] (snd (beginUpload sampleApp [])))).
  destruct (pdf_without_text_reports_no_content sampleEnvNoKey
              (samplePdf pages) sampleApp [] l1 pages []
              eq_refl eq_refl ltac:(vm_compute; reflexivity) eq_refl) as [H _].
  exact H.
Defined.

Lemma reformat_failure_keeps_raw_text_witness :
  inputText
    (fst (handleFileUpload sampleEnvNoReformat (Some (sampleImage (js "image/png")))
            sampleApp []))
  = js "raw text".
Proof.
  pose (l0 := snd (beginUpload sampleApp [])).
  pose (data := split_second comma (dataUrl (js "QUJD"))).
  pose (l1 := snd (extractTextFromImageData sampleEnvNoReformat data
                     (js "image/png") l0)).
  pose (l2 := snd (convertTextToMarkdown sampleEnvNoReformat (js "raw text") l1)).
  destruct (reformat_failure_keeps_raw_text sampleEnvNoReformat
              (sampleImage (js "image/png")) sampleApp [] l1 l2 (js "raw text")
              (Throw (ErrorObj (js "AI Markdown conversion service error: quota"))))
    as (_ & _ & H & _).
  - exists (dataUrl (js "QUJD")). split; vm_compute; reflexivity.
  - discriminate.
  - vm_compute. reflexivity.
  - exact H.
Defined.

Lemma dispatch_by_declared_type_witness :
  handleFileUpload sampleEnv
    (Some (mkFile (js "tbm.pdf") (toLowerCase (js "APPLICATION/PDF")) (Opened []) ReadError))
    sampleApp []
  = pdfBranch sampleEnv
      (mkFile (js "tbm.pdf") (toLowerCase (js "APPLICATION/PDF")) (Opened []) ReadError)
      (fst (beginUpload sampleApp [])) (snd (beginUpload sampleApp []))
  /\ fileProcessingError
       (fst (handleFileUpload sampleEnv
               (Some (mkFile (js "notes.txt") (toLowerCase (js "Text/Plain"))
                             (OpenFails NonError) ReadError))
               sampleApp []))
     = Some (js "Unsupported file type: notes.txt (text/plain). Please upload a PDF, JPG, PNG, or WEBP file.").
Proof.
  assert (Hp : declaredAs (mkFile (js "tbm.pdf") (toLowerCase (js "APPLICATION/PDF"))
                                  (Opened []) ReadError)
                          (js "APPLICATION/PDF")) by reflexivity.
  assert (Ht : declaredAs (mkFile (js "notes.txt") (toLowerCase (js "Text/Plain"))
                                  (OpenFails NonError) ReadError)
                          (js "Text/Plain")) by reflexivity.
  assert (Hn : ~ In (toLowerCase (js "Text/Plain"))
                    [js "application/pdf"; js "image/jpeg"; js "image/png";
                     js "image/webp"; js "image/jpg"]).
  { vm_compute. intros H.
    repeat (destruct H as [H|H]; [discriminate H|]). exact H. }
  split.
  - destruct (dispatch_by_declared_type sampleEnv
                (mkFile (js "tbm.pdf") (toLowerCase (js "APPLICATION/PDF"))
                        (Opened []) ReadError)
                sampleApp []) as (_ & _ & _ & H).
    destruct (H (js "APPLICATION/PDF") Hp) as (H1 & _).
    apply H1. reflexivity.
  - destruct (dispatch_by_declared_type sampleEnv
                (mkFile (js "notes.txt") (toLowerCase (js "Text/Plain"))
                        (OpenFails NonError) ReadError)
                sampleApp []) as (_ & _ & _ & H).
    destruct (H (js "Text/Plain") Ht) as (_ & _ & H3).
    destruct (H3 Hn) as (H1 & _). exact H1.
Defined.

(** C6, as stated, fails: [image/jpg] is none of the four listed types,
    in any case of its letters, and a file declared [image/jpg] is
    accepted all the same: it takes the image branch and is sent to
    OCR. *)
Lemma accepted_types_are_not_exactly_the_four :
  ~ In (toLowerCase (js "image/jpg"))
       [js "application/pdf"; js "image/jpeg"; js "image/png"; js "image/webp"]
  /\ declaredAs (sampleImage (js "image/jpg")) (js "image/jpg")
  /\ dispatch (file_type (sampleImage (js "image/jpg"))) = KindImage
  /\ In (Network (ocrRequest (Some (js "QUJD")) (js "image/jpg")))
        (snd (handleFileUpload sampleEnv (Some (sampleImage (js "image/jpg")))
                sampleApp []))
  /\ fileProcessingError
       (fst (handleFileUpload sampleEnv (Some (sampleImage (js "image/jpg")))
               sampleApp []))
     = None.
Proof.
  split; [|split; [reflexivity|split; [reflexivity|split]]].
  - vm_compute. intros H.
    repeat (destruct H as [H|H]; [discriminate H|]). exact H.
  - vm_compute. right. right. left. reflexivity.
  - vm_compute. reflexivity.
Qed.

Lemma jpg_alias_is_accepted_witness :
  handleFileUpload sampleEnv (Some (sampleImage (js "image/jpg"))) sampleApp []
  = imageBranch sampleEnv (fileProcessingError sampleApp)
                (sampleImage (js "image/jpg"))
                (fst (beginUpload sampleApp [])) (snd (beginUpload sampleApp [])).
Proof.
  destruct (jpg_alias_is_accepted sampleEnv (sampleImage (js "image/jpg"))
              sampleApp [] eq_refl) as (_ & H & _).
  exact H.
Defined.

(** ** Credentials and the reformat short-circuit *)

Section Credentials.

Variable env : Env.

Lemma credential_cases : credentialConfigured env \/ credentialMissing env.
Proof.
  unfold credentialConfigured, credentialMissing.
  destruct (API_KEY env) as [k|]; [|right; left; reflexivity].
  destruct (trim k) as [|c t] eqn:E.
  - right. right. exists k. auto.
  - left. exists k. split; [reflexivity|]. rewrite E. discriminate.
Qed.

(** C7: with a configured credential, a blank input makes the reformat
    operation return the empty string after logging its invocation only,
    so without any request; with an absent or blank credential each of
    the three operations throws the configuration error, again without
    any request; and one of the two cases always applies. *)
Theorem reformat_short_circuit_and_fail_fast (rawText : jsstring) (log : Log) :
  (credentialConfigured env -> trim rawText = [] ->
   convertTextToMarkdown env rawText log
   = (Ok [], log ++ [CallConvertToMarkdown rawText])
   /\ network_calls (snd (convertTextToMarkdown env rawText log))
      = network_calls log)
  /\ (credentialMissing env ->
      forall (data : option jsstring) (mime text code : jsstring)
             (sys : option jsstring),
        convertTextToMarkdown env rawText log
        = (Throw (ErrorObj configurationError), log ++ [CallConvertToMarkdown rawText])
        /\ extractTextFromImageData env data mime log
           = (Throw (ErrorObj configurationError), log ++ [CallExtractText data mime])
        /\ translateText env text code sys log
           = (Throw (ErrorObj configurationError), log ++ [CallTranslate text code]))
  /\ (credentialConfigured env \/ credentialMissing env).
Proof.
  split; [|split; [|apply credential_cases]].
  - intros Hc Hb.
    assert (E : convertTextToMarkdown env rawText log
                = (Ok [], log ++ [CallConvertToMarkdown rawText])).
    { unfold convertTextToMarkdown. rewrite (ensure_configured env Hc), Hb.
      reflexivity. }
    split; [exact E|]. rewrite E. cbn [snd]. unfold network_calls.
    rewrite filter_app. cbn. rewrite app_nil_r. reflexivity.
  - intros Hm data mime text code sys.
    unfold convertTextToMarkdown, extractTextFromImageData, translateText.
    rewrite (ensure_missing env Hm). auto.
Qed.

End Credentials.

Lemma reformat_short_circuit_and_fail_fast_witness :
  convertTextToMarkdown sampleEnv (js "  ") []
  = (Ok [], [CallConvertToMarkdown (js "  ")])
  /\ translateText sampleEnvNoKey (js "text") (js "en-US") None []
     = (Throw (ErrorObj configurationError), [CallTranslate (js "text") (js "en-US")]).
Proof.
  split.
  - destruct (reformat_short_circuit_and_fail_fast sampleEnv (js "  ") [])
      as (H & _ & _).
    destruct H as [H _].
    + exists (js "key"). split; [reflexivity | discriminate].
    + reflexivity.
    + exact H.
  - destruct (reformat_short_circuit_and_fail_fast sampleEnvNoKey (js "  ") [])
      as (_ & H & _).
    destruct (H (or_introl eq_refl) None [] (js "text") (js "en-US") None)
      as (_ & _ & H3).
    exact H3.
Defined.

(** ** Voice resolution *)

Section VoiceResolution.

Lemma preferDefault_In (l : list Voice) (v : Voice) :
  preferDefault l = Some v -> In v l.
Proof.
  unfold preferDefault. destruct (find voice_default l) as [d|] eqn:E.
  - intros H; inversion H; subst. apply find_some in E. tauto.
  - destruct l as [|a l]; simpl; [discriminate|].
    intros H; inversion H. auto.
Qed.

Lemma preferDefault_default (l : list Voice) (v d : Voice) :
  preferDefault l = Some v -> In d l -> voice_default d = true ->
  voice_default v = true.
Proof.
  unfold preferDefault. destruct (find voice_default l) as [d'|] eqn:E.
  - intros H _ _; inversion H; subst. apply find_some in E. tauto.
  - intros _ Hin Hd. rewrite (find_none _ _ E d Hin) in Hd. discriminate.
Qed.

Lemma preferDefault_first (l : list Voice) (a : Voice) :
  (forall d, In d (a :: l) -> voice_default d = false) ->
  preferDefault (a :: l) = Some a.
Proof.
  intros H. unfold preferDefault.
  destruct (find voice_default (a :: l)) as [d|] eqn:E; [|reflexivity].
  apply find_some in E as [Hin Hd]. rewrite (H d Hin) in Hd. discriminate.
Qed.

Lemma preferDefault_guarded (l : list Voice) :
  match l with
  | _ :: _ => preferDefault l
  | [] => None
  end = preferDefault l.
Proof. destruct l; reflexivity. Qed.

(** The three steps of [speak], each over its own candidates. *)
Lemma selectVoice_steps (voices : list Voice) (languageCode : jsstring) :
  selectVoice voices languageCode
  = match preferDefault
            (filter (fun v => Js.eqb (voice_lang v) languageCode) voices) with
    | Some v => Some v
    | None =>
        match preferDefault
                (filter (fun v => startsWith (split_head dash languageCode)
                                             (voice_lang v)) voices) with
        | Some v => Some v
        | None => preferDefault voices
        end
    end.
Proof.
  unfold selectVoice. rewrite !preferDefault_guarded.
  destruct (preferDefault (filter _ voices)); [reflexivity|].
  destruct (preferDefault (filter _ voices)); reflexivity.
Qed.

Lemma preferDefault_nonempty (l : list Voice) :
  l <> [] -> exists v, preferDefault l = Some v.
Proof.
  intros H. destruct l as [|a l]; [congruence|]. unfold preferDefault.
  destruct (find voice_default (a :: l)); eexists; reflexivity.
Qed.

(** C8: [speak] resolves the voice in the stated order except in its
    second step.  When some voice carries the requested tag, the choice is
    the one of the stated order, a default-flagged voice with that tag if
    there is one and the first with that tag otherwise; with no voice at
    all the requested tag is set on the utterance; and the choice is the
    one of the stated order whenever every voice whose tag begins with the
    requested base language has that base language as its primary subtag.
    For [ko-KR] among a non-default [ko-KR] voice and a default [en-US]
    voice the [ko-KR] voice is chosen.  The second step, though, tests a
    prefix where it announces a match on the base language: for [ko-KR],
    a code of the catalog, among a default [en-US] voice, a [kok-IN] voice
    and a [ko] voice, [speak] takes the [kok-IN] voice, whose primary
    subtag is [kok], and labels the utterance [kok-IN]; the stated order
    gives the [ko] voice. *)
Theorem second_step_tests_a_prefix :
  (forall voices tag,
      filter (fun v => Js.eqb (voice_lang v) tag) voices <> [] ->
      selectVoice voices tag = resolveVoice_spec voices tag
      /\ selectVoice voices tag
         = preferDefault (filter (fun v => Js.eqb (voice_lang v) tag) voices))
  /\ (forall voices tag,
         (forall v, In v voices ->
                    startsWith (primarySubtag tag) (voice_lang v)
                    = Js.eqb (primarySubtag (voice_lang v)) (primarySubtag tag)) ->
         selectVoice voices tag = resolveVoice_spec voices tag)
  /\ (forall l v, preferDefault l = Some v ->
        In v l
        /\ (forall d, In d l -> voice_default d = true -> voice_default v = true)
        /\ ((forall d, In d l -> voice_default d = false) -> hd_error l = Some v))
  /\ (forall text tag,
         selectVoice [] tag = None
         /\ makeUtterance [] text tag = mkUtterance text None tag)
  /\ (forall voices text tag v,
         selectVoice voices tag = Some v ->
         makeUtterance voices text tag = mkUtterance text (Some v) (voice_lang v))
  /\ selectVoice [koKR; enUS] (js "ko-KR") = Some koKR
  /\ In (js "ko-KR") (map code supportedLanguages)
  /\ selectVoice [enUS; kokIN; koBare] (js "ko-KR") = Some kokIN
  /\ primarySubtag (voice_lang kokIN) = js "kok"
  /\ primarySubtag (js "ko-KR") = js "ko"
  /\ makeUtterance [enUS; kokIN; koBare] (js "annyeong") (js "ko-KR")
     = mkUtterance (js "annyeong") (Some kokIN) (js "kok-IN")
  /\ resolveVoice_spec [enUS; kokIN; koBare] (js "ko-KR") = Some koBare.
Proof.
  split; [|split; [|split; [|split; [|split]]]].
  - intros voices tag Hne.
    destruct (preferDefault_nonempty _ Hne) as [v Ev].
    rewrite selectVoice_steps. unfold resolveVoice_spec. cbv zeta.
    rewrite Ev. split; reflexivity.
  - intros voices tag Hsame. rewrite selectVoice_steps.
    unfold resolveVoice_spec. cbv zeta.
    replace (filter (fun v => startsWith (split_head dash tag) (voice_lang v)) voices)
      with (filter (fun v => Js.eqb (primarySubtag (voice_lang v)) (primarySubtag tag))
                   voices); [reflexivity|].
    apply filter_ext_in. intros v Hin. symmetry. apply (Hsame v Hin).
  - intros l v Ev. split; [apply preferDefault_In, Ev|]. split.
    + intros d Hin Hd. apply (preferDefault_default l v d Ev Hin Hd).
    + intros Hn. destruct l as [|a l]; [discriminate Ev|].
      rewrite (preferDefault_first l a Hn) in Ev. exact Ev.
  - intros text tag. split; reflexivity.
  - intros voices text tag v Ev. unfold makeUtterance. rewrite Ev. reflexivity.
  - repeat split; vm_compute; auto 10.
Qed.

Lemma second_step_tests_a_prefix_witness :
  selectVoice [enUS; koKR] (js "ko-KR") = Some koKR
  /\ resolveVoice_spec [enUS; koKR] (js "ko-KR") = Some koKR
  /\ selectVoice [enUS; koBare] (js "ko-KR") = resolveVoice_spec [enUS; koBare] (js "ko-KR")
  /\ makeUtterance [enUS; koKR] (js "hello") (js "ko-KR")
     = mkUtterance (js "hello") (Some koKR) (js "ko-KR").
Proof.
  destruct second_step_tests_a_prefix as (H1 & H2 & _ & _ & H5 & _).
  assert (Hne : filter (fun v => Js.eqb (voice_lang v) (js "ko-KR")) [enUS; koKR] <> [])
    by discriminate.
  assert (Hs : forall v, In v [enUS; koBare] ->
             startsWith (primarySubtag (js "ko-KR")) (voice_lang v)
             = Js.eqb (primarySubtag (voice_lang v)) (primarySubtag (js "ko-KR"))).
  { intros v [<- | [<- | []]]; reflexivity. }
  destruct (H1 [enUS; koKR] (js "ko-KR") Hne) as [Ha Hb].
  assert (Hk : selectVoice [enUS; koKR] (js "ko-KR") = Some koKR)
    by (rewrite Hb; reflexivity).
  split; [exact Hk|]. split; [rewrite <- Ha; exact Hk|].
  split; [exact (H2 [enUS; koBare] (js "ko-KR") Hs)|].
  exact (H5 [enUS; koKR] (js "hello") (js "ko-KR") koKR Hk).
Defined.

End VoiceResolution.
(** ** Sanitized rendering and speech text *)

Section SanitizedRendering.

Variable marked_parse : jsstring -> jsstring.
Variable sanitize : SanitizeConfig -> jsstring -> jsstring.
Variable textContent innerText : jsstring -> jsstring.

Lemma makeUtterance_text (vs : list Voice) (text languageCode : jsstring) :
  utt_text (makeUtterance vs text languageCode) = text.
Proof. unfold makeUtterance. destruct (selectVoice _ _); reflexivity. Qed.

(** On a supported platform [speak] cancels what the platform still
    speaks or holds, then queues its utterance. *)
Lemma speak_supported (t : TTS) (synth : SynthFlags) (text languageCode : jsstring)
      (log : Log) :
  isSupported t = true -> speechSynthesis t = true ->
  speak t synth text languageCode log
  = (mkTTS false true None (voices t) true true
           (Some (makeUtterance (voices t) text languageCode)),
     log ++ cancelFirst synth
         ++ [SpeechSpeak text
               (option_map voice_lang
                           (utt_voice (makeUtterance (voices t) text languageCode)))
               (utt_lang (makeUtterance (voices t) text languageCode))]).
Proof.
  intros Hs Hy. unfold speak, cancelFirst. rewrite Hs, Hy. cbn [negb orb].
  rewrite makeUtterance_text.
  destruct (speaking synth || pending synth).
  - rewrite <- app_assoc. reflexivity.
  - reflexivity.
Qed.

Lemma truthy_nonempty (x : jsstring) : truthy x = true <-> x <> [].
Proof. destruct x; cbn; split; congruence. Qed.

Lemma shown_In (cond : bool) (element node : Node) :
  In node (shown cond element) -> cond = true /\ node = element.
Proof.
  unfold shown. destruct cond; [|intros []].
  intros [<- | []]. auto.
Qed.

Abbreviation speakOrStop :=
  (handleSpeakOrStop marked_parse sanitize textContent innerText).
Abbreviation extracted s :=
  (plainText marked_parse sanitize textContent innerText (translatedText s)).
Abbreviation inputNodes := (inputSection marked_parse sanitize).
Abbreviation outputNodes := (outputSection marked_parse sanitize).

(** C9, as amended: whatever a speak click hands to the speech
    controller is the text content of the sanitized rendering of the
    translated markup with surrounding white space trimmed off, and it is
    never empty; an idle, supported controller with a translation whose
    trimmed text content is not empty is handed exactly that, for the
    target language, after a cancel of what the platform still speaks;
    when the trimmed text content is empty nothing is handed over and the
    speech slot says so.  Of the view: every element of the input and of
    the output section whose markup is set directly gets what the
    sanitizer returns for the rendered buffer of its section, the other
    elements are a spinner or one of three fixed texts, and a buffer that
    is shown is shown as exactly that one sanitized element. *)
Theorem speech_text_is_trimmed_sanitized_text
        (s : App) (synth : SynthFlags) (log : Log) :
  (exists added,
      snd (speakOrStop s synth log) = log ++ added
      /\ forall text voiceLang lang,
          In (SpeechSpeak text voiceLang lang) added ->
          text = trim (extracted s)
          /\ text <> []
          /\ translatedText s <> []
          /\ extracted s
             = or_else (textContent (sanitize HtmlProfile
                                       (marked_parse (translatedText s))))
                       (or_else (innerText (sanitize HtmlProfile
                                              (marked_parse (translatedText s))))
                                []))
  /\ (isSupported (tts s) = true -> speechSynthesis (tts s) = true ->
      isSpeaking (tts s) = false -> isSynthesizing (tts s) = false ->
      translatedText s <> [] -> trim (extracted s) <> [] ->
      let utterance :=
        makeUtterance (voices (tts s)) (trim (extracted s)) (code (targetLanguage s)) in
      snd (speakOrStop s synth log)
      = log ++ (if speaking synth || pending synth then [SpeechCancel] else [])
            ++ [SpeechSpeak (trim (extracted s))
                            (option_map voice_lang (utt_voice utterance))
                            (utt_lang utterance)]
      /\ currentUtterance (tts (fst (speakOrStop s synth log))) = Some utterance
      /\ utt_text utterance = trim (extracted s))
  /\ (isSupported (tts s) = true ->
      isSpeaking (tts s) = false -> isSynthesizing (tts s) = false ->
      translatedText s <> [] -> trim (extracted s) = [] ->
      speakOrStop s synth log
      = (setCurrentTtsError (Some (js "No text content available to speak.")) s, log))
  /\ (forall node, In node (inputNodes s) ->
        match node with
        | HtmlNode html =>
            html = sanitize DefaultConfig (marked_parse (inputText s))
            /\ inputText s <> []
        | TextNode text =>
            text = js "Upload a PDF or Image (JPG, PNG, WEBP) to see its Markdown content here, or use the example."
            /\ inputText s = []
        | SpinnerNode => inputText s = []
        end)
  /\ (forall node, In node (outputNodes s) ->
        match node with
        | HtmlNode html =>
            html = sanitize DefaultConfig (marked_parse (translatedText s))
            /\ translatedText s <> []
        | TextNode text =>
            (text = js "Translated text (Markdown rendered) will appear here."
             \/ text = js "Translation failed. Please check error messages above.")
            /\ translatedText s = []
        | SpinnerNode => translatedText s = []
        end)
  /\ (inputText s <> [] ->
      inputNodes s = [HtmlNode (sanitize DefaultConfig (marked_parse (inputText s)))])
  /\ (translatedText s <> [] ->
      outputNodes s
      = if isLoading s then []
        else [HtmlNode (sanitize DefaultConfig (marked_parse (translatedText s)))]).
Proof.
  assert (Hnil : forall P : jsstring -> Prop,
             exists added : Log, log = log ++ added
               /\ forall text (voiceLang : option jsstring) (lang : jsstring),
                   In (SpeechSpeak text voiceLang lang) added -> P text).
  { intros P. exists []. rewrite app_nil_r. split; [reflexivity|].
    intros ? ? ? []. }
  split; [|split; [|split; [|split; [|split; [|split]]]]].
  - unfold handleSpeakOrStop.
    destruct (isSupported (tts s)) eqn:Es; cbn [negb];
      [|cbn [snd]; apply (Hnil (fun text => _))].
    cbn [tts setCurrentTtsError isSpeaking isSynthesizing translatedText].
    destruct (isSpeaking (tts s) || isSynthesizing (tts s)).
    + unfold cancel. cbn [tts setCurrentTtsError]. rewrite Es. cbn [negb orb].
      destruct (speechSynthesis (tts s)); cbn [negb snd];
        [|apply (Hnil (fun text => _))].
      exists [SpeechCancel]. split; [reflexivity|].
      intros ? ? ? [H|[]]. discriminate H.
    + destruct (truthy (translatedText s)) eqn:Et;
        [|cbn [snd]; apply (Hnil (fun text => _))].
      destruct (truthy (trim (extracted s))) eqn:Ee;
        [|cbn [snd]; apply (Hnil (fun text => _))].
      apply truthy_nonempty in Et, Ee.
      cbn [tts setCurrentTtsError targetLanguage].
      destruct (speechSynthesis (tts s)) eqn:Ey.
      * rewrite (speak_supported _ synth _ _ log Es Ey). cbn [snd].
        eexists. split; [reflexivity|].
        intros text vl lang Hin. apply in_app_or in Hin as [Hin | [Hin | []]].
        -- unfold cancelFirst in Hin.
           destruct (speaking synth || pending synth); [|destruct Hin].
           destruct Hin as [Hin | []]. discriminate Hin.
        -- inversion Hin; subst. repeat split; auto.
      * unfold speak. rewrite Es, Ey. cbn [negb orb snd].
        apply (Hnil (fun text => _)).
  - intros Es Ey Ek Ez Ht He utterance. subst utterance.
    apply truthy_nonempty in Ht, He.
    unfold handleSpeakOrStop.
    rewrite Es. cbn [negb].
    cbn [tts setCurrentTtsError isSpeaking isSynthesizing translatedText targetLanguage].
    rewrite Ek, Ez. cbn [orb]. rewrite Ht, He.
    rewrite (speak_supported _ synth _ _ log Es Ey). cbn [fst snd tts setTts].
    cbn [currentUtterance]. unfold cancelFirst.
    rewrite makeUtterance_text. repeat split.
  - intros Es Ek Ez Ht He.
    apply truthy_nonempty in Ht.
    unfold handleSpeakOrStop.
    rewrite Es. cbn [negb].
    cbn [tts setCurrentTtsError isSpeaking isSynthesizing translatedText].
    rewrite Ek, Ez. cbn [orb]. rewrite Ht, He. cbn [truthy].
    destruct s; reflexivity.
  - intros node Hin. unfold inputSection in Hin.
    apply in_app_or in Hin as [Hin | Hin];
      [|apply in_app_or in Hin as [Hin | Hin]];
      apply shown_In in Hin as [Hc ->].
    + apply andb_prop in Hc as [_ Hc]. apply eqb_true in Hc. exact Hc.
    + apply andb_prop in Hc as [_ Hc]. split; [reflexivity|].
      destruct (inputText s); [reflexivity | discriminate Hc].
    + apply andb_prop in Hc as [Hc _]. split; [reflexivity|].
      apply truthy_nonempty, Hc.
  - intros node Hin. unfold outputSection in Hin.
    apply in_app_or in Hin as [Hin | Hin];
      [|apply in_app_or in Hin as [Hin | Hin];
        [|apply in_app_or in Hin as [Hin | Hin]]];
      apply shown_In in Hin as [Hc ->].
    + apply andb_prop in Hc as [_ Hc].
      destruct (translatedText s); [reflexivity | discriminate Hc].
    + apply andb_prop in Hc as [Hc _]. apply andb_prop in Hc as [_ Hc].
      split; [left; reflexivity|].
      destruct (translatedText s); [reflexivity | discriminate Hc].
    + apply andb_prop in Hc as [Hc _]. split; [reflexivity|].
      apply truthy_nonempty, Hc.
    + apply andb_prop in Hc as [_ Hc]. split; [right; reflexivity|].
      destruct (translatedText s); [reflexivity | discriminate Hc].
  - intros Hi. unfold inputSection, shown.
    destruct (inputText s) as [|c t] eqn:Ei; [congruence|].
    cbn [truthy Js.eqb negb andb orb app].
    replace (Js.eqb (c :: t) []) with false by reflexivity.
    destruct (showOverallSpinner s); reflexivity.
  - intros Ht. unfold outputSection, shown.
    destruct (translatedText s) as [|c t] eqn:Et; [congruence|].
    cbn [truthy negb andb]. rewrite !andb_false_r.
    destruct (isLoading s); reflexivity.
Qed.

End SanitizedRendering.

Lemma speech_text_is_trimmed_sanitized_text_witness :
  snd (handleSpeakOrStop sampleMarked sampleSanitize sampleTextContent
                         sampleTextContent sampleApp synthPaused [])
  = [SpeechCancel; SpeechSpeak (js "Hello") None (js "en-US")]
  /\ handleSpeakOrStop sampleMarked sampleSanitize sampleTextContent
                       sampleTextContent (setTranslatedText (js "  ") sampleApp)
                       synthIdle []
     = (setCurrentTtsError (Some (js "No text content available to speak."))
                           (setTranslatedText (js "  ") sampleApp), [])
  /\ outputSection sampleMarked sampleSanitize sampleApp
     = [HtmlNode (sampleSanitize DefaultConfig (sampleMarked (js "Hello")))].
Proof.
  destruct (speech_text_is_trimmed_sanitized_text
              sampleMarked sampleSanitize sampleTextContent sampleTextContent
              sampleApp synthPaused []) as (_ & H2 & _ & _ & _ & _ & H7).
  destruct (speech_text_is_trimmed_sanitized_text
              sampleMarked sampleSanitize sampleTextContent sampleTextContent
              (setTranslatedText (js "  ") sampleApp) synthIdle [])
    as (_ & _ & H3 & _).
  assert (Hh : translatedText sampleApp <> []) by discriminate.
  assert (Hb : translatedText (setTranslatedText (js "  ") sampleApp) <> [])
    by discriminate.
  assert (He : trim (plainText sampleMarked sampleSanitize sampleTextContent
                               sampleTextContent (translatedText sampleApp)) <> [])
    by (vm_compute; discriminate).
  split; [|split].
  - destruct (H2 eq_refl eq_refl eq_refl eq_refl Hh He) as (H & _).
    rewrite H. vm_compute. reflexivity.
  - apply (H3 eq_refl eq_refl eq_refl Hb). vm_compute. reflexivity.
  - rewrite (H7 Hh). reflexivity.
Defined.

(** C9, as stated, fails: for the translation [Hello] the renderer yields
    a paragraph followed by a line break, whose text content is [Hello]
    with that line break; the speech controller is handed [Hello]
    without it, whether or not the platform was still speaking. *)
Lemma speech_text_is_not_the_text_content :
  snd (handleSpeakOrStop sampleMarked sampleSanitize sampleTextContent
                         sampleTextContent sampleApp synthIdle [])
  = [SpeechSpeak (js "Hello") None (js "en-US")]
  /\ snd (handleSpeakOrStop sampleMarked sampleSanitize sampleTextContent
                            sampleTextContent sampleApp synthPaused [])
     = [SpeechCancel; SpeechSpeak (js "Hello") None (js "en-US")]
  /\ plainText sampleMarked sampleSanitize sampleTextContent sampleTextContent
               (translatedText sampleApp)
     = js "Hello" +++ [newline]
  /\ js "Hello"
     <> plainText sampleMarked sampleSanitize sampleTextContent sampleTextContent
                  (translatedText sampleApp).
Proof. repeat split; vm_compute; discriminate || reflexivity. Qed.

(** ** Further properties of the service client *)

Section ServiceMore.

Variable env : Env.

Lemma startsWith_app (p r : jsstring) : startsWith p (p ++ r) = true.
Proof.
  induction p as [|a p IH]; simpl; auto. rewrite N.eqb_refl. exact IH.
Qed.

Lemma includes_intro (p a b : jsstring) : includes p (a ++ p ++ b) = true.
Proof.
  induction a as [|c a IH].
  - simpl app. destruct (p ++ b) eqn:E; simpl; rewrite <- E;
      rewrite startsWith_app; reflexivity.
  - simpl. rewrite IH. apply orb_true_r.
Qed.

Lemma includes_elim (p s : jsstring) :
  includes p s = true -> exists a b, s = a ++ p ++ b.
Proof.
  induction s as [|c s IH]; simpl; intros H.
  - rewrite orb_false_r in H. apply startsWith_split in H as [r E].
    exists [], r. exact E.
  - apply orb_prop in H as [H|H].
    + apply startsWith_split in H as [r E]. exists [], r. exact E.
    + destruct (IH H) as (a & b & E). exists (c :: a), b. rewrite E. reflexivity.
Qed.

(** What the shared [catch] block rethrows always has a message. *)
Lemma rethrow_message (prefix unknown : jsstring) (e : Thrown) :
  prefix <> [] -> unknown <> [] ->
  exists m, rethrow prefix unknown e = ErrorObj m /\ m <> [].
Proof.
  intros Hp Hu. destruct e as [msg|]; simpl.
  - destruct (_ || _).
    + eexists. split; [reflexivity | discriminate].
    + exists (prefix ++ msg). split; [reflexivity|].
      destruct prefix; [congruence | discriminate].
  - exists unknown. auto.
Qed.

Lemma callModel_throws req onText bad prefix unknown (log log' : Log) (e : Thrown) :
  prefix <> [] -> unknown <> [] ->
  callModel env req onText bad prefix unknown log = (Throw e, log') ->
  exists m, e = ErrorObj m /\ m <> [].
Proof.
  intros Hp Hu. unfold callModel.
  destruct (generateContent _ _ _) as [t| |e0]; intros H; [discriminate| |].
  - destruct (rethrow_message prefix unknown (ErrorObj bad) Hp Hu) as (m & Em & Hm).
    rewrite Em in H. inversion H. exists m. auto.
  - destruct (rethrow_message prefix unknown e0 Hp Hu) as (m & Em & Hm).
    rewrite Em in H. inversion H. exists m. auto.
Qed.

Lemma callModel_ok req onText bad prefix unknown (log log' : Log) (t : jsstring) :
  callModel env req onText bad prefix unknown log = (Ok t, log') ->
  exists text, t = onText text.
Proof.
  unfold callModel.
  destruct (generateContent _ _ _) as [t0| |e0]; intros H; inversion H.
  exists t0. reflexivity.
Qed.

(** X1: whatever one of the three operations throws is an [Error] with a
    non-empty message; so the fallback texts of the callers
    ([err.message || ...]) are never used for it. *)
Theorem operations_throw_errors_with_messages
        (data : option jsstring) (mime raw text code : jsstring)
        (sys : option jsstring) (log log' : Log) (e : Thrown) (fallback : jsstring) :
  extractTextFromImageData env data mime log = (Throw e, log')
  \/ convertTextToMarkdown env raw log = (Throw e, log')
  \/ translateText env text code sys log = (Throw e, log') ->
  exists m, e = ErrorObj m /\ m <> [] /\ message_or e fallback = m.
Proof.
  intros H.
  assert (Hm : exists m, e = ErrorObj m /\ m <> []).
  { assert (Hcfg : forall (A : Type) (l l' : Log) (k : Result A * Log),
               match ensureApiKeyIsConfigured env with
               | Throw e0 => (Throw e0, l)
               | Ok _ => k
               end = (Throw e, l') ->
               (exists m, e = ErrorObj m /\ m <> []) \/ k = (Throw e, l')).
    { intros A l l' k. unfold ensureApiKeyIsConfigured.
      destruct (API_KEY env) as [key|].
      - destruct (Nat.eqb _ _); intros E; [|right; exact E].
        inversion E. left. eexists. split; [reflexivity | discriminate].
      - intros E. inversion E. left. eexists. split; [reflexivity | discriminate]. }
    destruct H as [H | [H | H]].
    - unfold extractTextFromImageData in H. apply Hcfg in H as [H|H]; [exact H|].
      apply callModel_throws in H; [exact H | discriminate | discriminate].
    - unfold convertTextToMarkdown in H. apply Hcfg in H as [H|H]; [exact H|].
      destruct (negb _); [discriminate|].
      apply callModel_throws in H; [exact H | discriminate | discriminate].
    - unfold translateText in H. apply Hcfg in H as [H|H]; [exact H|].
      apply callModel_throws in H; [exact H | discriminate | discriminate]. }
  destruct Hm as (m & -> & Hne). exists m. repeat split; auto.
  simpl. destruct m; [congruence | reflexivity].
Qed.

(** X2: the text an operation returns never carries surrounding white
    space: OCR text is trimmed, and reformatted and translated text went
    through the fence clean-up, which ends in a trim. *)
Theorem operations_return_trimmed_text
        (data : option jsstring) (mime raw text code : jsstring)
        (sys : option jsstring) (log log' : Log) (t : jsstring) :
  extractTextFromImageData env data mime log = (Ok t, log')
  \/ convertTextToMarkdown env raw log = (Ok t, log')
  \/ translateText env text code sys log = (Ok t, log') ->
  trim t = t.
Proof.
  unfold extractTextFromImageData, convertTextToMarkdown, translateText.
  destruct (ensureApiKeyIsConfigured env);
    [|intros [H|[H|H]]; discriminate].
  intros [H|[H|H]].
  - apply callModel_ok in H as [x ->]. apply trim_idem.
  - destruct (negb _).
    + inversion H. reflexivity.
    + apply callModel_ok in H as [x ->]. apply stripFence_trimmed.
  - apply callModel_ok in H as [x ->]. apply stripFence_trimmed.
Qed.

Lemma network_calls_app (a b : Log) :
  network_calls (a ++ b) = network_calls a + network_calls b.
Proof. unfold network_calls. rewrite filter_app, length_app. reflexivity. Qed.

Lemma callModel_network req onText bad prefix unknown (log : Log) :
  network_calls (snd (callModel env req onText bad prefix unknown log))
  = S (network_calls log).
Proof.
  rewrite callModel_log, network_calls_app. cbn. lia.
Qed.

(** X3: one invocation of an operation sends at most one request, and
    exactly one when the credential is configured (for the reformat
    operation: and the input is not blank); with a missing credential it
    sends none. *)
Theorem operations_send_at_most_one_request
        (data : option jsstring) (mime raw text code : jsstring)
        (sys : option jsstring) (log : Log) :
  let n1 := network_calls (snd (extractTextFromImageData env data mime log)) in
  let n2 := network_calls (snd (convertTextToMarkdown env raw log)) in
  let n3 := network_calls (snd (translateText env text code sys log)) in
  let n := network_calls log in
  (n <= n1 <= n + 1 /\ n <= n2 <= n + 1 /\ n <= n3 <= n + 1)
  /\ (credentialConfigured env ->
      n1 = n + 1 /\ n3 = n + 1 /\ (trim raw <> [] -> n2 = n + 1)
      /\ (trim raw = [] -> n2 = n))
  /\ (credentialMissing env -> n1 = n /\ n2 = n /\ n3 = n).
Proof.
  intros n1 n2 n3 n. unfold n1, n2, n3, n.
  unfold extractTextFromImageData, convertTextToMarkdown, translateText.
  assert (Hone : forall e : Event, is_network e = false ->
             network_calls (log ++ [e]) = network_calls log).
  { intros e He. rewrite network_calls_app. unfold network_calls at 2.
    cbn. rewrite He. cbn. lia. }
  split; [|split].
  - destruct (ensureApiKeyIsConfigured env); cbn [snd];
      rewrite ?callModel_network, ?Hone by reflexivity; try lia.
    destruct (negb _); cbn [snd];
      rewrite ?callModel_network, ?Hone by reflexivity; lia.
  - intros Hc. rewrite (ensure_configured env Hc).
    rewrite !callModel_network, !Hone by reflexivity.
    repeat split; try lia.
    + intros Hr. destruct (trim raw) as [|c r]; [congruence|]. cbn [truthy negb].
      rewrite callModel_network, Hone by reflexivity. lia.
    + intros ->. cbn [truthy negb snd]. apply Hone. reflexivity.
  - intros Hm. rewrite (ensure_missing env Hm). cbn [snd].
    rewrite !Hone by reflexivity. auto.
Qed.

End ServiceMore.

(** X4: when the endpoint rejects with an [Error] whose message contains
    one of the three phrases for an invalid key, each operation throws the
    invalid-key error instead of its own service error; for any other
    message it throws its own prefix followed by the message. *)
Theorem invalid_key_is_recognised (message a b : jsstring)
        (data : option jsstring) (mime raw text code : jsstring)
        (sys : option jsstring) (log : Log) :
  trim raw <> [] ->
  let env := rejectingEnv message in
  (message = a ++ js "API key not valid" ++ b
   \/ message = a ++ js "API_KEY_INVALID" ++ b
   \/ message = a ++ js "API key is invalid" ++ b ->
   fst (extractTextFromImageData env data mime log) = Throw (ErrorObj invalidKeyError)
   /\ fst (convertTextToMarkdown env raw log) = Throw (ErrorObj invalidKeyError)
   /\ fst (translateText env text code sys log) = Throw (ErrorObj invalidKeyError))
  /\ (includes (js "API key not valid") message = false ->
      includes (js "API_KEY_INVALID") message = false ->
      includes (js "API key is invalid") message = false ->
      fst (extractTextFromImageData env data mime log)
      = Throw (ErrorObj (js "AI OCR service error: " +++ message))
      /\ fst (convertTextToMarkdown env raw log)
         = Throw (ErrorObj (js "AI Markdown conversion service error: " +++ message))
      /\ fst (translateText env text code sys log)
         = Throw (ErrorObj (js "AI translation service error: " +++ message))).
Proof.
  intros Hr env.
  unfold extractTextFromImageData, convertTextToMarkdown, translateText, callModel.
  change (ensureApiKeyIsConfigured env) with (@Ok unit tt).
  destruct (trim raw) as [|c r]; [congruence|]. cbn [truthy negb].
  cbn [env rejectingEnv generateContent fst rethrow].
  split.
  - intros H.
    assert (Hi : includes (js "API key not valid") message
                 || includes (js "API_KEY_INVALID") message
                 || includes (js "API key is invalid") message = true).
    { destruct H as [-> | [-> | ->]]; rewrite includes_intro;
        rewrite ?orb_true_r; reflexivity. }
    rewrite Hi. auto.
  - intros -> -> ->. cbn [orb]. auto.
Qed.

Lemma invalid_key_is_recognised_witness :
  fst (translateText (rejectingEnv (js "400: API key not valid. Please pass a valid API key."))
                     (js "text") (js "en-US") None [])
  = Throw (ErrorObj invalidKeyError)
  /\ fst (extractTextFromImageData (rejectingEnv (js "503 overloaded")) None
                                   (js "image/png") [])
     = Throw (ErrorObj (js "AI OCR service error: 503 overloaded")).
Proof.
  split.
  - destruct (invalid_key_is_recognised
                (js "400: API key not valid. Please pass a valid API key.")
                (js "400: ") (js ". Please pass a valid API key.")
                None [] (js "x") (js "text") (js "en-US") None []
                ltac:(discriminate)) as [H _].
    destruct (H (or_introl eq_refl)) as (_ & _ & H3). exact H3.
  - destruct (invalid_key_is_recognised (js "503 overloaded") [] []
                None (js "image/png") (js "x") [] [] None []
                ltac:(discriminate)) as [_ H].
    destruct (H eq_refl eq_refl eq_refl) as (H1 & _). exact H1.
Defined.

Lemma operations_throw_errors_with_messages_witness :
  exists m, ErrorObj configurationError = ErrorObj m /\ m <> []
            /\ message_or (ErrorObj configurationError) (js "fallback") = m.
Proof.
  apply (operations_throw_errors_with_messages sampleEnvNoKey None [] [] [] [] None
           [] [CallExtractText None []] (ErrorObj configurationError) (js "fallback")).
  left. reflexivity.
Defined.

Lemma operations_return_trimmed_text_witness : trim (js "page text") = js "page text".
Proof.
  apply (operations_return_trimmed_text sampleEnv (Some (js "QUJD")) (js "image/png")
           [] [] [] None []
           (snd (extractTextFromImageData sampleEnv (Some (js "QUJD")) (js "image/png") []))).
  left. vm_compute. reflexivity.
Defined.

Lemma operations_send_at_most_one_request_witness :
  network_calls (snd (convertTextToMarkdown sampleEnv (js "raw") [])) = 1
  /\ network_calls (snd (translateText sampleEnvNoKey (js "t") (js "en-US") None [])) = 0.
Proof.
  split.
  - destruct (operations_send_at_most_one_request sampleEnv None [] (js "raw") [] []
                None []) as (_ & H & _).
    destruct H as (_ & _ & H & _).
    + exists (js "key"). split; [reflexivity | discriminate].
    + apply H. discriminate.
  - destruct (operations_send_at_most_one_request sampleEnvNoKey None [] [] (js "t")
                (js "en-US") None []) as (_ & _ & H).
    destruct (H (or_introl eq_refl)) as (_ & _ & H3). exact H3.
Defined.

(** ** Further properties of the fence clean-up *)

Section FenceMore.

Lemma substring_refl (t : jsstring) : substring_of t t.
Proof. exists [], []. rewrite app_nil_r. reflexivity. Qed.

Lemma substring_trans (r s t : jsstring) :
  substring_of r s -> substring_of s t -> substring_of r t.
Proof.
  intros (a & b & ->) (a' & b' & ->). exists (a' ++ a), (b ++ b').
  rewrite <- !app_assoc. reflexivity.
Qed.

Lemma substring_length (r t : jsstring) : substring_of r t -> length r <= length t.
Proof. intros (a & b & ->). rewrite !length_app. lia. Qed.

Lemma trim_substring (s : jsstring) : substring_of (trim s) s.
Proof.
  destruct (trimStart_split s) as [w1 [E1 _]].
  destruct (trimEnd_split (trimStart s)) as [w2 [E2 _]].
  exists w1, w2. unfold trim. rewrite <- E2. exact E1.
Qed.

(** X5: on a text that opens and closes with a fence the clean-up drops
    both fences and the word characters right after the opening fence and
    trims what is left; when nothing is left, the text comes back whole. *)
Theorem stripFence_on_wrapped_text (mid : jsstring) :
  stripFence (fence ++ mid ++ fence)
  = match trim (dropWhile is_word mid) with
    | [] => fence ++ mid ++ fence
    | c :: b => c :: b
    end.
Proof.
  rewrite stripFence_closed_form. unfold stripFence_closed.
  assert (T : trim (fence ++ mid ++ fence) = fence ++ mid ++ fence).
  { apply trim_id; [reflexivity|].
    rewrite app_assoc, rev_app_distr. reflexivity. }
  rewrite T, wrapped_intro, middle_wrapped. reflexivity.
Qed.

(** X6: the clean-up only cuts: its result is a contiguous piece of the
    input, so never longer than the input; and it never empties an answer:
    the result is empty exactly when the input is blank. *)
Theorem stripFence_only_cuts (text : jsstring) :
  substring_of (stripFence text) text
  /\ length (stripFence text) <= length text
  /\ (stripFence text = [] <-> trim text = []).
Proof.
  assert (Hsub : substring_of (stripFence text) (trim text)
                 /\ (stripFence text = [] <-> trim text = [])).
  { rewrite stripFence_closed_form. unfold stripFence_closed.
    destruct (wrapped (trim text)) eqn:W;
      [|split; [apply substring_refl | tauto]].
    apply wrapped_elim in W as [mid E]. rewrite E, middle_wrapped.
    destruct (trim (dropWhile is_word mid)) as [|c b] eqn:Et;
      [split; [apply substring_refl | tauto]|].
    split.
    - rewrite <- Et.
      destruct (takeWhile_dropWhile is_word mid) as (Em & _ & _).
      apply (substring_trans _ _ _ (trim_substring (dropWhile is_word mid))).
      exists (fence ++ takeWhile is_word mid), fence.
      rewrite <- app_assoc, (app_assoc (takeWhile is_word mid)), <- Em.
      reflexivity.
    - split; discriminate. }
  destruct Hsub as [Hs Hi]. split; [|split; [|exact Hi]].
  - apply (substring_trans _ _ _ Hs (trim_substring text)).
  - apply substring_length, (substring_trans _ _ _ Hs (trim_substring text)).
Qed.

End FenceMore.

(** ** Further properties of the speech controller and its view *)

Section SpeechMore.

Lemma onSpeechEvent_support (t : TTS) (e : SpeechEvent) :
  isSupported (onSpeechEvent t e) = isSupported t
  /\ speechSynthesis (onSpeechEvent t e) = speechSynthesis t.
Proof. destruct e; split; reflexivity. Qed.

Lemma events_support (evs : list SpeechEvent) (t : TTS) :
  isSupported (fold_left onSpeechEvent evs t) = isSupported t
  /\ speechSynthesis (fold_left onSpeechEvent evs t) = speechSynthesis t.
Proof.
  revert t. induction evs as [|e evs IH]; intros t; simpl; auto.
  destruct (IH (onSpeechEvent t e)) as [-> ->]. apply onSpeechEvent_support.
Qed.

Lemma events_voices (evs : list SpeechEvent) (t : TTS) :
  voices (fold_left onSpeechEvent evs t) = voices t.
Proof.
  revert t. induction evs as [|e evs IH]; intros t; simpl; [reflexivity|].
  rewrite IH. destruct e; reflexivity.
Qed.

(** X7: [cancel] on a supported platform leaves the hook idle whatever
    happened before: after [speak] and any sequence of lifecycle callbacks
    both flags are down and no utterance is current; it keeps the recorded
    error and the voices; and cancelling again changes nothing. *)
Theorem cancel_returns_to_idle (t : TTS) (synth : SynthFlags)
        (text languageCode : jsstring)
        (evs : list SpeechEvent) (log log' log'' : Log) :
  isSupported t = true -> speechSynthesis t = true ->
  let running := fold_left onSpeechEvent evs (fst (speak t synth text languageCode log)) in
  let stopped := fst (cancel running log') in
  idle stopped
  /\ ttsError stopped = ttsError running
  /\ voices stopped = voices t
  /\ fst (cancel stopped log'') = stopped
  /\ idle (fst (cancel t log)).
Proof.
  intros Hs Hy running stopped.
  assert (Hr : isSupported running = true /\ speechSynthesis running = true).
  { unfold running. destruct (events_support evs (fst (speak t synth text languageCode log)))
      as [-> ->]. unfold speak. rewrite Hs, Hy. auto. }
  destruct Hr as [Hrs Hry].
  assert (Hv : voices running = voices t).
  { unfold running. rewrite events_voices. unfold speak. rewrite Hs, Hy.
    reflexivity. }
  subst stopped. clearbody running. unfold cancel, idle.
  rewrite Hrs, Hry, Hs, Hy. cbn. repeat split; auto.
Qed.

Lemma cancel_returns_to_idle_witness :
  idle (fst (cancel (fold_left onSpeechEvent [OnStart; OnPause; OnResume]
                       (fst (speak sampleTts synthPaused (js "hello") (js "en-US") [])))
                    [])).
Proof.
  destruct (cancel_returns_to_idle sampleTts synthPaused (js "hello") (js "en-US")
              [OnStart; OnPause; OnResume] [] [] [] eq_refl eq_refl) as (H & _).
  exact H.
Defined.

Lemma selectVoice_some (vs : list Voice) (languageCode : jsstring) :
  vs <> [] -> exists v, selectVoice vs languageCode = Some v /\ In v vs.
Proof.
  intros Hne. unfold selectVoice.
  assert (Hpd : forall l : list Voice, l <> [] -> exists v, preferDefault l = Some v).
  { intros [|a l] H; [congruence|]. unfold preferDefault.
    destruct (find voice_default (a :: l)); eexists; reflexivity. }
  set (exact := filter (fun voice => Js.eqb (voice_lang voice) languageCode) vs).
  set (base := filter (fun voice =>
                         startsWith (split_head dash languageCode) (voice_lang voice)) vs).
  destruct exact as [|a ex] eqn:Ee.
  - destruct base as [|b ba] eqn:Eb.
    + destruct (Hpd vs Hne) as [v Ev]. destruct vs; [congruence|].
      rewrite Ev. exists v. split; [reflexivity | apply preferDefault_In, Ev].
    + destruct (Hpd (b :: ba)) as [v Ev]; [discriminate|]. rewrite Ev.
      exists v. split; [reflexivity|]. apply preferDefault_In in Ev.
      rewrite <- Eb in Ev. apply filter_In in Ev. tauto.
  - destruct (Hpd (a :: ex)) as [v Ev]; [discriminate|]. rewrite Ev.
    exists v. split; [reflexivity|]. apply preferDefault_In in Ev.
    rewrite <- Ee in Ev. apply filter_In in Ev. tauto.
Qed.

(** X8: when some voice carries exactly the requested tag, the chosen
    voice carries that tag, whatever the default flags of the other
    voices, and it is a default voice if one with that tag exists; the
    utterance is then labelled with the requested tag. *)
Theorem exact_tag_voice_wins (vs : list Voice) (languageCode text : jsstring)
        (v0 : Voice) :
  In v0 vs -> voice_lang v0 = languageCode ->
  exists v,
    selectVoice vs languageCode = Some v
    /\ In v vs /\ voice_lang v = languageCode
    /\ (forall d, In d vs -> voice_lang d = languageCode ->
                  voice_default d = true -> voice_default v = true)
    /\ utt_lang (makeUtterance vs text languageCode) = languageCode.
Proof.
  intros Hin Hl. unfold makeUtterance, selectVoice.
  set (exact := filter (fun voice => Js.eqb (voice_lang voice) languageCode) vs).
  assert (H0 : In v0 exact).
  { apply filter_In. split; [exact Hin|]. apply eqb_true. exact Hl. }
  destruct exact as [|a ex] eqn:Ee; [contradiction|].
  assert (Hpd : exists v, preferDefault (a :: ex) = Some v).
  { unfold preferDefault. destruct (find voice_default (a :: ex)); eexists; reflexivity. }
  destruct Hpd as [v Ev]. rewrite Ev. exists v.
  assert (Hv : In v (a :: ex)) by (apply preferDefault_In, Ev).
  rewrite <- Ee in Hv. apply filter_In in Hv as [Hv1 Hv2]. apply eqb_true in Hv2.
  repeat split; auto.
  intros d Hd Hdl Hdd. apply (preferDefault_default (a :: ex) v d Ev); [|exact Hdd].
  rewrite <- Ee. apply filter_In. split; [exact Hd | apply eqb_true, Hdl].
Qed.

Lemma exact_tag_voice_wins_witness :
  exists v, selectVoice [enUS; filPH; koKR] (js "ko-KR") = Some v
            /\ voice_lang v = js "ko-KR".
Proof.
  destruct (exact_tag_voice_wins [enUS; filPH; koKR] (js "ko-KR") (js "hi") koKR
              ltac:(right; right; left; reflexivity) eq_refl)
    as (v & H1 & _ & H3 & _).
  exists v. split; assumption.
Defined.

(** X9: once the platform has reported a non-empty voice list, every
    utterance [speak] queues is bound to a voice of that list and labelled
    with that voice's tag; a later empty report keeps the list; and what
    the platform is asked is a cancel, when it still speaks or holds an
    utterance, and then that utterance. *)
Theorem reported_voices_bind_every_utterance
        (available : list Voice) (t : TTS) (synth : SynthFlags)
        (text languageCode : jsstring) (log : Log) :
  available <> [] -> isSupported t = true -> speechSynthesis t = true ->
  let t1 := loadVoices [] (loadVoices available t) in
  voices t1 = available
  /\ exists v,
      In v available
      /\ currentUtterance (fst (speak t1 synth text languageCode log))
         = Some (mkUtterance text (Some v) (voice_lang v))
      /\ snd (speak t1 synth text languageCode log)
         = log ++ (if speaking synth || pending synth then [SpeechCancel] else [])
               ++ [SpeechSpeak text (Some (voice_lang v)) (voice_lang v)].
Proof.
  intros Hne Hs Hy t1. unfold t1. cbn [loadVoices].
  destruct available as [|a av]; [congruence|]. cbn [loadVoices voices].
  split; [reflexivity|].
  destruct (selectVoice_some (a :: av) languageCode Hne) as (v & Ev & Hin).
  exists v. split; [exact Hin|].
  rewrite speak_supported by (cbn [isSupported speechSynthesis]; assumption).
  cbn [fst snd currentUtterance voices]. unfold makeUtterance, cancelFirst.
  rewrite Ev. split; reflexivity.
Qed.

Lemma reported_voices_bind_every_utterance_witness :
  exists v,
    In v [koKR; enUS]
    /\ currentUtterance
         (fst (speak (loadVoices [] (loadVoices [koKR; enUS] sampleTts)) synthPaused
                     (js "hi") (js "vi-VN") []))
       = Some (mkUtterance (js "hi") (Some v) (voice_lang v))
    /\ snd (speak (loadVoices [] (loadVoices [koKR; enUS] sampleTts)) synthPaused
                  (js "hi") (js "vi-VN") [])
       = [SpeechCancel; SpeechSpeak (js "hi") (Some (voice_lang v)) (voice_lang v)].
Proof.
  assert (Hne : [koKR; enUS] <> []) by discriminate.
  destruct (reported_voices_bind_every_utterance [koKR; enUS] sampleTts synthPaused
              (js "hi") (js "vi-VN") [] Hne eq_refl eq_refl)
    as (_ & v & H1 & H2 & H3).
  exists v. split; [exact H1|]. split; [exact H2 | exact H3].
Defined.

(** X10: choosing a code of the catalog in the language selector makes
    the catalog entry of that code the target language, empties the speech
    slot and leaves both text buffers and the other two slots alone;
    choosing any other code changes nothing. *)
Theorem language_selector_looks_up_catalog (langCode : jsstring) (s : App) (log : Log) :
  (forall lang, In lang supportedLanguages -> code lang = langCode ->
     let s' := fst (handleChange langCode s log) in
     targetLanguage s' = lang
     /\ currentTtsError s' = None
     /\ inputText s' = inputText s /\ translatedText s' = translatedText s
     /\ error s' = error s /\ fileProcessingError s' = fileProcessingError s)
  /\ ((forall lang, In lang supportedLanguages -> code lang <> langCode) ->
      handleChange langCode s log = (s, log)).
Proof.
  split.
  - intros lang Hin Hc.
    assert (Hf : find (fun l => Js.eqb (code l) langCode) supportedLanguages
                 = Some lang).
    { subst langCode. unfold supportedLanguages in *.
      repeat (destruct Hin as [<- | Hin]; [reflexivity|]). contradiction. }
    unfold handleChange. rewrite Hf.
    unfold onSelectLanguage, cancelIfSupported, cancel. cbn.
    destruct (isSupported (tts s)); cbn;
      [destruct (speechSynthesis (tts s)); cbn|]; repeat split.
  - intros Hn. unfold handleChange.
    destruct (find _ supportedLanguages) as [l|] eqn:Hf; [|reflexivity].
    apply find_some in Hf as [Hin He]. apply eqb_true in He.
    exfalso. exact (Hn l Hin He).
Qed.

Lemma language_selector_looks_up_catalog_witness :
  targetLanguage (fst (handleChange (js "vi-VN") sampleApp []))
  = mkLang (js "vi-VN") (js "Vietnamese")
  /\ handleChange (js "xx-XX") sampleApp [] = (sampleApp, []).
Proof.
  destruct (language_selector_looks_up_catalog (js "vi-VN") sampleApp []) as [H _].
  destruct (language_selector_looks_up_catalog (js "xx-XX") sampleApp []) as [_ H'].
  split.
  - destruct (H (mkLang (js "vi-VN") (js "Vietnamese"))
                ltac:(do 6 right; left; reflexivity) eq_refl) as (H1 & _).
    exact H1.
  - apply H'. intros lang Hin.
    unfold supportedLanguages in Hin.
    repeat (destruct Hin as [<- | Hin]; [discriminate|]). contradiction.
Defined.

End SpeechMore.

Section SpeakClickMore.

Variable marked_parse : jsstring -> jsstring.
Variable sanitize : SanitizeConfig -> jsstring -> jsstring.
Variable textContent innerText : jsstring -> jsstring.

(** X11: a click on the speak button touches only the speech slot and
    the hook: both text buffers, the general and the file-processing slot,
    the progress flags and the target language are as before, and the log
    gains no service event. *)
Theorem speak_click_leaves_text_and_other_slots
        (s : App) (synth : SynthFlags) (log : Log) :
  let s' :=
    fst (handleSpeakOrStop marked_parse sanitize textContent innerText s synth log) in
  let log' :=
    snd (handleSpeakOrStop marked_parse sanitize textContent innerText s synth log) in
  inputText s' = inputText s /\ translatedText s' = translatedText s
  /\ error s' = error s /\ fileProcessingError s' = fileProcessingError s
  /\ isLoading s' = isLoading s /\ isExtractingText s' = isExtractingText s
  /\ isFormattingToMarkdown s' = isFormattingToMarkdown s
  /\ targetLanguage s' = targetLanguage s
  /\ filter is_service_event log' = filter is_service_event log.
Proof.
  unfold handleSpeakOrStop.
  assert (Hadd : forall l e, is_service_event e = false ->
             filter is_service_event (l ++ [e]) = filter is_service_event l).
  { intros l e He. rewrite filter_app. cbn. rewrite He. apply app_nil_r. }
  destruct (isSupported (tts s)) eqn:Es; cbn [negb]; [|cbn; repeat split].
  cbn [tts setCurrentTtsError isSpeaking isSynthesizing translatedText].
  destruct (isSpeaking (tts s) || isSynthesizing (tts s)).
  - unfold cancel. cbn [tts setCurrentTtsError]. rewrite Es. cbn [negb orb].
    destruct (speechSynthesis (tts s)); cbn; rewrite ?Hadd by reflexivity;
      repeat split.
  - destruct (truthy (translatedText s)); [|cbn; repeat split].
    destruct (truthy (trim _)); [|cbn; repeat split].
    unfold speak. cbn [tts setCurrentTtsError]. rewrite Es. cbn [negb orb].
    destruct (speechSynthesis (tts s));
      [destruct (speaking synth || pending synth)|];
      cbn; rewrite ?Hadd by reflexivity; repeat split.
Qed.

(** X23: on a platform without speech synthesis the mounted hook is
    inert: [speak] queues nothing and only records that speech is not
    available, [cancel] does nothing, the known voices are kept, the speak
    button is disabled, a click on it only writes the no-support message
    to the speech slot, and the upload prologue produces no speech event. *)
Theorem unsupported_platform_is_inert
        (t : TTS) (synth : SynthFlags) (available : list Voice)
        (text languageCode : jsstring) (s : App) (log : Log) :
  let t0 := mountTTS false available t in
  let s0 := setTts t0 s in
  isSupported t0 = false
  /\ voices t0 = voices t
  /\ snd (speak t0 synth text languageCode log) = log
  /\ currentUtterance (fst (speak t0 synth text languageCode log)) = currentUtterance t
  /\ ttsError (fst (speak t0 synth text languageCode log))
     = Some (js "Text-to-Speech is not supported or initialized.")
  /\ cancel t0 log = (t0, log)
  /\ speakDisabled s0 = true
  /\ handleSpeakOrStop marked_parse sanitize textContent innerText s0 synth log
     = (setCurrentTtsError
          (Some (js "Text-to-Speech is not supported by this browser.")) s0, log)
  /\ snd (beginUpload s0 log) = log.
Proof. intros t0 s0. subst t0 s0. repeat split. Qed.

End SpeakClickMore.

(** X12: a platform error during speech ends with the hook idle and, once
    the effect has copied it, shows as an error alert with the platform's
    error code, both text buffers untouched; the two messages of the speak
    button show as an error (no support) and as information (nothing to
    speak). *)
Theorem speech_error_surfaces_as_error_alert (s : App) (err : jsstring) :
  let s' := syncTtsError (setTts (onSpeechEvent (tts s) (OnError err)) s) in
  ttsAlert s' = Some (js "TTS Info: Speech error: " +++ err, AlertError)
  /\ idle (tts s')
  /\ inputText s' = inputText s /\ translatedText s' = translatedText s
  /\ error s' = error s /\ fileProcessingError s' = fileProcessingError s
  /\ ttsAlert (setCurrentTtsError
                 (Some (js "Text-to-Speech is not supported by this browser.")) s)
     = Some (js "TTS Info: Text-to-Speech is not supported by this browser.", AlertError)
  /\ ttsAlert (setCurrentTtsError (Some (js "No text content available to speak.")) s)
     = Some (js "TTS Info: No text content available to speak.", AlertInfo).
Proof.
  intros s'. unfold s', idle. repeat split; vm_compute; reflexivity.
Qed.

(** ** Further properties of the upload handler *)

Section UploadMore.

Variable env : Env.

Lemma formatStage_fields (label raw : jsstring) (s : App) (log : Log) :
  let r := fst (formatStage env label raw s log) in
  same_frame s r /\ isExtractingText r = isExtractingText s
  /\ isFormattingToMarkdown r = false.
Proof.
  unfold formatStage, same_frame.
  destruct (convertTextToMarkdown env raw log) as [[md|e] l]; cbn; repeat split.
Qed.

(** X13: whatever the file and whatever fails, the upload ends settled:
    both progress flags are down, the file input is reset, the translated
    buffer is empty, the general slot is empty (failures of ingestion only
    ever go to the file-processing slot), and the translation flag and the
    target language are as before. *)
Theorem upload_always_ends_settled (f : File) (s : App) (log : Log) :
  let s' := fst (handleFileUpload env (Some f) s log) in
  isExtractingText s' = false /\ isFormattingToMarkdown s' = false
  /\ fileInputValue s' = []
  /\ translatedText s' = [] /\ error s' = None
  /\ isLoading s' = isLoading s /\ targetLanguage s' = targetLanguage s.
Proof.
  unfold handleFileUpload.
  assert (Hb : let s1 := fst (beginUpload s log) in
               translatedText s1 = [] /\ error s1 = None
               /\ isLoading s1 = isLoading s /\ targetLanguage s1 = targetLanguage s
               /\ isFormattingToMarkdown s1 = false).
  { unfold beginUpload, cancelIfSupported, cancel. cbn.
    destruct (isSupported (tts s)); cbn;
      [destruct (speechSynthesis (tts s)); cbn|]; repeat split. }
  destruct (beginUpload s log) as [s1 log0]. cbn [fst] in Hb.
  destruct Hb as (B1 & B2 & B3 & B4 & B5).
  assert (Hfmt : forall label raw s2 l,
             translatedText s2 = [] -> error s2 = None ->
             isLoading s2 = isLoading s -> targetLanguage s2 = targetLanguage s ->
             isExtractingText s2 = false ->
             let r := clearFileInput (fst (formatStage env label raw s2 l)) in
             isExtractingText r = false /\ isFormattingToMarkdown r = false
             /\ fileInputValue r = []
             /\ translatedText r = [] /\ error r = None
             /\ isLoading r = isLoading s /\ targetLanguage r = targetLanguage s).
  { intros label raw s2 l H1 H2 H3 H4 H5.
    destruct (formatStage_fields label raw s2 l) as ((F1 & F2 & F3 & F4) & F5 & F6).
    cbn. repeat split; congruence. }
  destruct (dispatch (file_type f)).
  - unfold pdfBranch.
    destruct (file_pdf f) as [e|e|pages]; try (cbn; repeat split; assumption).
    destruct (ocrPages env pages [] log0) as [[acc|e] log1];
      [|cbn; repeat split; assumption].
    unfold pdfFinish. destruct (truthy (trim acc));
      [|cbn; repeat split; assumption].
    match goal with
    | |- context [formatStage ?e ?l ?r ?st ?lg] =>
        pose proof (Hfmt l r st lg B1 B2 B3 B4 eq_refl) as H;
        destruct (formatStage e l r st lg)
    end. exact H.
  - unfold imageBranch. destruct (file_read f) as [| |url].
    + destruct (fileProcessingError s) as [[|c m]|]; cbn; repeat split; assumption.
    + destruct (fileProcessingError s) as [[|c m]|]; cbn; repeat split; assumption.
    + destruct (extractTextFromImageData _ _ _ _) as [[raw|e] log1];
        [|cbn; repeat split; assumption].
      destruct (truthy (trim raw)); [|cbn; repeat split; assumption].
      match goal with
      | |- context [formatStage ?e ?l ?r ?st ?lg] =>
          pose proof (Hfmt l r st lg B1 B2 B3 B4 eq_refl) as H;
          destruct (formatStage e l r st lg)
      end. exact H.
  - cbn. repeat split; assumption.
Qed.

(** X14: for an image, a failed OCR call ends the upload at once: the
    buffer stays empty, the slot shows the OCR error with the operation's
    message, and no reformat is attempted; an OCR answer without text ends
    it with the no-content message, again without a reformat. *)
Theorem image_without_text_is_terminal
        (f : File) (s : App) (log log1 : Log) (url : jsstring)
        (r : Result jsstring) :
  dispatch (file_type f) = KindImage ->
  file_read f = ReadDataUrl url ->
  extractTextFromImageData env (split_second comma url) (file_type f)
                           (snd (beginUpload s log)) = (r, log1) ->
  match r with Ok raw => raw = [] | Throw _ => True end ->
  let s' := fst (handleFileUpload env (Some f) s log) in
  inputText s' = []
  /\ snd (handleFileUpload env (Some f) s log) = log1
  /\ fileProcessingError s'
     = Some match r with
            | Throw ocrErr =>
                js "Image OCR Error: "
                +++ message_or ocrErr (js "Could not extract text from image.")
            | Ok _ => js "No text content could be extracted from the image (OCR)."
            end.
Proof.
  intros Hd Hr He Hb. unfold handleFileUpload.
  destruct (beginUpload_state s log) as (Hin & _).
  cbv zeta in Hin.
  destruct (beginUpload s log) as [s1 log0]. cbn [fst snd] in *.
  rewrite Hd. unfold imageBranch. rewrite Hr, He.
  destruct r as [raw|e]; [subst raw|]; cbn; auto.
Qed.

Lemma ocrPages_app (pre rest : list PageResult) :
  forall (acc : jsstring) (log : Log),
    ocrPages env (pre ++ rest) acc log
    = match ocrPages env pre acc log with
      | (Ok r, l) => ocrPages env rest r l
      | (Throw e, l) => (Throw e, l)
      end.
Proof.
  induction pre as [|page pre IH]; intros acc log; [reflexivity|].
  cbn [app ocrPages]. destruct page as [e| |e|u]; try reflexivity.
  destruct (split_second comma u) as [[|c d]|]; try apply IH.
  destruct (extractTextFromImageData _ _ _ _) as [[t|e] l]; apply IH.
Qed.

(** X15: a page that cannot be fetched or rendered stops the page loop:
    the pages after it are never read, and the upload ends in the PDF
    processing error with the text of the earlier pages discarded (the
    buffer stays empty); a PDF that cannot be opened ends the same way
    without any OCR call. *)
Theorem pdf_render_failure_aborts
        (pre post : list PageResult) (bad : PageResult) (e : Thrown)
        (text : jsstring) (f : File) (s : App) (log log1 : Log) :
  page_throws bad = Some e ->
  file_type f = js "application/pdf" ->
  ocrPages env pre [] (snd (beginUpload s log)) = (Ok text, log1) ->
  ocrPages env (pre ++ bad :: post) [] (snd (beginUpload s log)) = (Throw e, log1)
  /\ (file_pdf f = Opened (pre ++ bad :: post) ->
      let s' := fst (handleFileUpload env (Some f) s log) in
      inputText s' = []
      /\ fileProcessingError s'
         = Some (js "PDF Processing/OCR Error: "
                 +++ message_or e (js "Could not process PDF."))
      /\ snd (handleFileUpload env (Some f) s log) = log1)
  /\ (file_pdf f = OpenFails e \/ file_pdf f = BufferFails e ->
      let s' := fst (handleFileUpload env (Some f) s log) in
      inputText s' = []
      /\ fileProcessingError s'
         = Some (js "PDF Processing/OCR Error: "
                 +++ message_or e (js "Could not process PDF."))
      /\ snd (handleFileUpload env (Some f) s log) = snd (beginUpload s log)).
Proof.
  intros Hb Ht Ho.
  assert (Hloop : ocrPages env (pre ++ bad :: post) [] (snd (beginUpload s log))
                  = (Throw e, log1)).
  { rewrite ocrPages_app, Ho. cbn [ocrPages].
    destruct bad as [e0| |e0|u]; inversion Hb; reflexivity. }
  destruct (beginUpload_state s log) as (Hin & _). cbv zeta in Hin.
  split; [exact Hloop|]. unfold handleFileUpload.
  destruct (beginUpload s log) as [s1 log0]. cbn [fst snd] in *.
  rewrite Ht, dispatch_pdf. unfold pdfBranch. split.
  - intros ->. rewrite Hloop. cbn. auto.
  - intros [-> | ->]; cbn; auto.
Qed.

Lemma extractText_calls (data : option jsstring) (mime : jsstring) (log : Log) :
  length (filter is_ocr_call (snd (extractTextFromImageData env data mime log)))
  = S (length (filter is_ocr_call log))
  /\ network_calls (snd (extractTextFromImageData env data mime log))
     <= S (network_calls log).
Proof.
  unfold extractTextFromImageData.
  destruct (ensureApiKeyIsConfigured env); cbn [snd];
    rewrite ?callModel_log, ?network_calls_app, !filter_app, ?length_app; cbn; lia.
Qed.

(** X16: pages are read one at a time, each at most once: when the loop
    completes, the OCR operation was invoked exactly once per page that
    rendered with a payload, and at most one request went out per page;
    when it aborts, never more than that. *)
Theorem one_ocr_call_per_page (pages : list PageResult) :
  forall (acc : jsstring) (log : Log),
    let calls l := length (filter is_ocr_call l) in
    let out := ocrPages env pages acc log in
    calls (snd out) <= calls log + length (filter page_has_payload pages)
    /\ network_calls (snd out) <= network_calls log + length pages
    /\ (forall r, fst out = Ok r ->
          calls (snd out) = calls log + length (filter page_has_payload pages)).
Proof.
  induction pages as [|page rest IH]; intros acc log calls out;
    subst out calls; cbv beta.
  - cbn [ocrPages snd fst filter length]. repeat split; intros; lia.
  - assert (Hskip : page_has_payload page = false ->
              forall a,
                ocrPages env (page :: rest) acc log = ocrPages env rest a log ->
                length (filter is_ocr_call (snd (ocrPages env (page :: rest) acc log)))
                <= length (filter is_ocr_call log)
                   + length (filter page_has_payload (page :: rest))
                /\ network_calls (snd (ocrPages env (page :: rest) acc log))
                   <= network_calls log + length (page :: rest)
                /\ (forall r, fst (ocrPages env (page :: rest) acc log) = Ok r ->
                      length (filter is_ocr_call
                                (snd (ocrPages env (page :: rest) acc log)))
                      = length (filter is_ocr_call log)
                        + length (filter page_has_payload (page :: rest)))).
    { intros Hp a ->. cbn [filter length]. rewrite Hp.
      destruct (IH a log) as (H1 & H2 & H3). cbv zeta beta in H1, H2, H3.
      repeat split; [lia | lia | exact H3]. }
    destruct page as [e| |e|u].
    + cbn [ocrPages snd fst filter length page_has_payload].
      repeat split; intros; try lia; discriminate.
    + cbn [ocrPages snd fst filter length page_has_payload].
      repeat split; intros; try lia; discriminate.
    + cbn [ocrPages snd fst filter length page_has_payload].
      repeat split; intros; try lia; discriminate.
    + destruct (split_second comma u) as [[|c d]|] eqn:Es.
      * apply (Hskip ltac:(cbn; rewrite Es; reflexivity) acc).
        cbn [ocrPages]. rewrite Es. reflexivity.
      * destruct (extractText_calls (Some (c :: d)) (js "image/jpeg") log) as [C N].
        assert (Hp : page_has_payload (Rendered u) = true)
          by (cbn; rewrite Es; reflexivity).
        cbn [ocrPages filter length]. rewrite Es, Hp. cbn [length].
        destruct (extractTextFromImageData env (Some (c :: d)) (js "image/jpeg") log)
          as [[t|e] l]; cbn [snd] in C, N.
        -- destruct (IH (acc +++ t +++ blankLine) l) as (H1 & H2 & H3).
           cbv zeta beta in H1, H2, H3. repeat split; try lia.
           intros r Hr. rewrite (H3 r Hr). lia.
        -- destruct (IH acc l) as (H1 & H2 & H3).
           cbv zeta beta in H1, H2, H3. repeat split; try lia.
           intros r Hr. rewrite (H3 r Hr). lia.
      * apply (Hskip ltac:(cbn; rewrite Es; reflexivity) acc).
        cbn [ocrPages]. rewrite Es. reflexivity.
Qed.

(** X17: when the bytes of an image cannot be read, the handler looks at
    the file-processing slot as it was when the upload began: if it was
    empty, the slot gets the image processing error; if it held a message,
    the slot, emptied by the prologue, stays empty and the failure is not
    shown.  No service event is produced either way. *)
Theorem image_read_failure_uses_stale_slot (f : File) (s : App) (log : Log) :
  dispatch (file_type f) = KindImage ->
  file_read f = ReadError \/ file_read f = ReadNull ->
  let s' := fst (handleFileUpload env (Some f) s log) in
  (match fileProcessingError s with Some (_ :: _) => False | _ => True end ->
   fileProcessingError s'
   = Some (js "Image Processing Error: "
           +++ match file_read f with
               | ReadNull => js "File reading resulted in null."
               | _ => js "Could not process image file."
               end))
  /\ (forall c m, fileProcessingError s = Some (c :: m) ->
                  fileProcessingError s' = None)
  /\ inputText s' = []
  /\ snd (handleFileUpload env (Some f) s log) = snd (beginUpload s log).
Proof.
  intros Hd Hr. unfold handleFileUpload.
  destruct (beginUpload_state s log) as (Hin & _ & _ & Hfp & _).
  cbv zeta in Hin, Hfp.
  destruct (beginUpload s log) as [s1 log0]. cbn [fst snd] in *.
  rewrite Hd. unfold imageBranch.
  destruct Hr as [-> | ->];
    (destruct (fileProcessingError s) as [[|c m]|]; cbn;
     repeat split; auto; try contradiction; try discriminate;
     intros c' m' H'; discriminate || exact Hfp).
Qed.

End UploadMore.

(** ** Further properties of translation and of the missing credential *)

Section TranslateMore.

Variable env : Env.

Lemma network_calls_event (log : Log) (e : Event) :
  is_network e = false -> network_calls (log ++ [e]) = network_calls log.
Proof.
  intros He. rewrite network_calls_app. unfold network_calls at 2.
  cbn. rewrite He. cbn. lia.
Qed.

Lemma cancelIfSupported_frame (s : App) (log : Log) :
  let r := cancelIfSupported s log in
  network_calls (snd r) = network_calls log
  /\ inputText (fst r) = inputText s /\ translatedText (fst r) = translatedText s
  /\ error (fst r) = error s /\ fileProcessingError (fst r) = fileProcessingError s
  /\ isLoading (fst r) = isLoading s /\ currentTtsError (fst r) = currentTtsError s
  /\ targetLanguage (fst r) = targetLanguage s.
Proof.
  unfold cancelIfSupported, cancel.
  destruct (isSupported (tts s)); cbn -[network_calls]; [|repeat split].
  destruct (speechSynthesis (tts s)); cbn -[network_calls];
    rewrite ?network_calls_event by reflexivity; repeat split.
Qed.

Lemma extractText_missing (data : option jsstring) (mime : jsstring) (log : Log) :
  credentialMissing env ->
  extractTextFromImageData env data mime log
  = (Throw (ErrorObj configurationError), log ++ [CallExtractText data mime]).
Proof.
  intros Hm. unfold extractTextFromImageData. rewrite (ensure_missing env Hm).
  reflexivity.
Qed.

Lemma ocrPages_missing (pages : list PageResult) :
  credentialMissing env ->
  forall (acc : jsstring) (log : Log),
    network_calls (snd (ocrPages env pages acc log)) = network_calls log
    /\ ((forall p, In p pages -> page_throws p = None) ->
        fst (ocrPages env pages acc log) = Ok acc).
Proof.
  intros Hm. induction pages as [|page rest IH]; intros acc log.
  - cbn. auto.
  - cbn [ocrPages]. destruct page as [e| |e|u];
      try (cbn [snd fst]; split; [reflexivity|];
           intros H; specialize (H _ (or_introl eq_refl)); discriminate H).
    assert (Hrest : (forall p, In p (Rendered u :: rest) -> page_throws p = None) ->
                    forall p, In p rest -> page_throws p = None)
      by (intros H p Hp; apply H; right; exact Hp).
    destruct (split_second comma u) as [[|c d]|].
    + destruct (IH acc log) as [H1 H2]. split; [exact H1 | auto].
    + rewrite extractText_missing by exact Hm.
      destruct (IH acc (log ++ [CallExtractText (Some (c :: d)) (js "image/jpeg")]))
        as [H1 H2].
      rewrite network_calls_event in H1 by reflexivity. split; [exact H1 | auto].
    + destruct (IH acc log) as [H1 H2]. split; [exact H1 | auto].
Qed.

Lemma convert_missing (raw : jsstring) (log : Log) :
  credentialMissing env ->
  convertTextToMarkdown env raw log
  = (Throw (ErrorObj configurationError), log ++ [CallConvertToMarkdown raw]).
Proof.
  intros Hm. unfold convertTextToMarkdown. rewrite (ensure_missing env Hm).
  reflexivity.
Qed.

(** X18: with an absent or blank credential neither an upload nor a
    translate click sends a request.  A PDF whose pages all render then
    ends with the no-content message (the configuration error of each page
    is swallowed), an image ends with the configuration error in the
    file-processing slot, and a translate click with it in the general
    slot. *)
Theorem missing_credential_never_reaches_network
        (file : option File) (terms : list (jsstring * jsstring))
        (s : App) (log : Log) :
  credentialMissing env ->
  let up := handleFileUpload env file s log in
  let tr := handleTranslate env terms s log in
  network_calls (snd up) = network_calls log
  /\ network_calls (snd tr) = network_calls log
  /\ (forall f pages, file = Some f ->
        file_type f = js "application/pdf" -> file_pdf f = Opened pages ->
        (forall p, In p pages -> page_throws p = None) ->
        fileProcessingError (fst up)
        = Some (js "No text content could be extracted from the PDF (OCR)."))
  /\ (forall f url, file = Some f ->
        dispatch (file_type f) = KindImage -> file_read f = ReadDataUrl url ->
        fileProcessingError (fst up)
        = Some (js "Image OCR Error: " +++ configurationError))
  /\ (trim (inputText s) <> [] -> error (fst tr) = Some configurationError).
Proof.
  intros Hm up tr. subst up tr.
  assert (Hup : network_calls (snd (handleFileUpload env file s log))
                = network_calls log).
  { destruct file as [f|]; [|reflexivity]. unfold handleFileUpload, beginUpload.
    match goal with
    | |- context [cancelIfSupported ?st log] =>
        destruct (cancelIfSupported_frame st log) as (Hn & _);
        destruct (cancelIfSupported st log) as [s1 log0]
    end. cbn [fst snd] in Hn. rewrite <- Hn.
    destruct (dispatch (file_type f)); [| |reflexivity].
    - unfold pdfBranch. destruct (file_pdf f) as [e|e|pages]; try reflexivity.
      destruct (ocrPages_missing pages Hm [] log0) as [Hp _].
      destruct (ocrPages env pages [] log0) as [[acc|e] l]; cbn [snd] in Hp;
        [|exact Hp].
      unfold pdfFinish. destruct (truthy (trim acc)); [|exact Hp].
      unfold formatStage. rewrite convert_missing by exact Hm. cbn [snd].
      rewrite network_calls_event by reflexivity. exact Hp.
    - unfold imageBranch. destruct (file_read f) as [| |url]; try reflexivity.
      rewrite extractText_missing by exact Hm. cbn [snd].
      apply network_calls_event. reflexivity. }
  split; [exact Hup|]. split; [|split; [|split]].
  - unfold handleTranslate. destruct (negb _); [reflexivity|].
    match goal with
    | |- context [cancelIfSupported ?st log] =>
        destruct (cancelIfSupported_frame st log) as (Hn & _);
        destruct (cancelIfSupported st log) as [s1 log0]
    end. cbn [fst snd] in Hn. rewrite <- Hn.
    unfold translateText. rewrite (ensure_missing env Hm). cbn [snd].
    apply network_calls_event. reflexivity.
  - intros f pages -> Ht Hp Hall. unfold handleFileUpload.
    destruct (beginUpload s log) as [s1 log0]. rewrite Ht, dispatch_pdf.
    unfold pdfBranch. rewrite Hp.
    destruct (ocrPages_missing pages Hm [] log0) as [_ Ho].
    specialize (Ho Hall).
    destruct (ocrPages env pages [] log0) as [r l]. cbn [fst] in Ho. subst r.
    reflexivity.
  - intros f url -> Hd Hr. unfold handleFileUpload.
    destruct (beginUpload s log) as [s1 log0]. rewrite Hd.
    unfold imageBranch. rewrite Hr, extractText_missing by exact Hm. reflexivity.
  - intros Hi. unfold handleTranslate.
    destruct (trim (inputText s)) as [|c t]; [congruence|]. cbn [truthy negb].
    destruct (cancelIfSupported _ log) as [s1 log0].
    unfold translateText. rewrite (ensure_missing env Hm). reflexivity.
Qed.

(** X19: a translate click with a blank input buffer only writes the
    validation message to the general slot, without any event.  With a
    non-blank buffer and a configured credential it leaves the input
    buffer and the file-processing slot alone, ends with the loading flag
    down and the speech slot empty, and: if the endpoint answers with
    text, the translated buffer is that text after the fence clean-up and
    the general slot is empty; if it rejects or answers without text, the
    translated buffer is empty and the general slot holds the error. *)
Theorem translate_click_outcomes (terms : list (jsstring * jsstring))
        (s : App) (log : Log) :
  let s' := fst (handleTranslate env terms s log) in
  (trim (inputText s) = [] ->
   handleTranslate env terms s log
   = (setError (Some (js "Please upload a file or ensure there is content to translate."))
               s, log))
  /\ (trim (inputText s) <> [] -> credentialConfigured env ->
      inputText s' = inputText s
      /\ fileProcessingError s' = fileProcessingError s
      /\ isLoading s' = false /\ currentTtsError s' = None
      /\ (forall answer,
            (forall n r, generateContent env n r = RespText answer) ->
            translatedText s' = stripFence answer /\ error s' = None)
      /\ (forall e,
            (forall n r, generateContent env n r = RespReject e) ->
            translatedText s' = []
            /\ exists m, error s' = Some m /\ m <> [])
      /\ ((forall n r, generateContent env n r = RespNoText) ->
          translatedText s' = []
          /\ error s'
             = Some (js "AI translation service error: Translation failed: Unexpected response format from AI."))).
Proof.
  intros s'. subst s'. unfold handleTranslate. split.
  - intros ->. reflexivity.
  - intros Hi Hc. destruct (trim (inputText s)) as [|c t]; [congruence|].
    cbn [truthy negb].
    match goal with
    | |- context [cancelIfSupported ?st log] =>
        destruct (cancelIfSupported_frame st log)
          as (_ & F1 & F2 & F3 & F4 & F5 & F6 & _);
        destruct (cancelIfSupported st log) as [s1 log0]
    end. cbn in F1, F2, F3, F4, F5, F6.
    unfold translateText, callModel. rewrite (ensure_configured env Hc).
    destruct (generateContent env _ _) as [answer| |e] eqn:Eg.
    + cbn. split; [exact F1|]. split; [exact F4|]. split; [reflexivity|].
      split; [exact F6|]. split; [|split].
      * intros a Ha. rewrite Ha in Eg. inversion Eg. split; [reflexivity | exact F3].
      * intros e Ha. rewrite Ha in Eg. discriminate.
      * intros Ha. rewrite Ha in Eg. discriminate.
    + cbn. split; [exact F1|]. split; [exact F4|]. split; [reflexivity|].
      split; [exact F6|]. split; [|split].
      * intros a Ha. rewrite Ha in Eg. discriminate.
      * intros e Ha. rewrite Ha in Eg. discriminate.
      * intros _. split; [exact F2 | reflexivity].
    + destruct (rethrow_message (js "AI translation service error: ")
                  (js "An unknown error occurred while communicating with the AI translation service.")
                  e ltac:(discriminate) ltac:(discriminate)) as (m & Em & Hm).
      rewrite Em. cbn. split; [exact F1|]. split; [exact F4|].
      split; [reflexivity|]. split; [exact F6|]. split; [|split].
      * intros a Ha. rewrite Ha in Eg. discriminate.
      * intros e0 Ha. split; [exact F2|]. exists m. auto.
      * intros Ha. rewrite Ha in Eg. discriminate.
Qed.

Lemma lawTermsString_includes (terms : list (jsstring * jsstring)) (ko en : jsstring) :
  In (ko, en) terms ->
  exists a b, lawTermsString terms = a ++ (js "* " +++ ko +++ js ": " +++ en) ++ b.
Proof.
  induction terms as [|[k e] rest IH]; [contradiction|].
  intros [H|H].
  - inversion H; subst. exists [].
    destruct rest as [|p rest'].
    + exists []. cbn [lawTermsString app]. rewrite app_nil_r. reflexivity.
    + exists ([newline] ++ lawTermsString (p :: rest')).
      change (lawTermsString ((ko, en) :: p :: rest'))
        with (js "* " +++ ko +++ js ": " +++ en +++ [newline]
              +++ lawTermsString (p :: rest')).
      cbn [app]. rewrite <- !app_assoc. reflexivity.
  - destruct (IH H) as (a & b & E). destruct rest as [|p rest']; [contradiction|].
    exists (js "* " +++ k +++ js ": " +++ e +++ [newline] +++ a), b.
    change (lawTermsString ((k, e) :: p :: rest'))
      with (js "* " +++ k +++ js ": " +++ e +++ [newline]
            +++ lawTermsString (p :: rest')).
    rewrite E, <- !app_assoc. reflexivity.
Qed.

Lemma includes_app_r (p a s : jsstring) :
  includes p s = true -> includes p (a ++ s) = true.
Proof.
  intros H. apply includes_elim in H as (a' & b' & ->).
  rewrite app_assoc. apply includes_intro.
Qed.

Lemma includes_app_l (p s b : jsstring) :
  includes p s = true -> includes p (s ++ b) = true.
Proof.
  intros H. apply includes_elim in H as (a' & b' & ->).
  rewrite <- !app_assoc. apply includes_intro.
Qed.

Lemma includes_head (p b : jsstring) : includes p (p ++ b) = true.
Proof. apply (includes_intro p [] b). Qed.

Lemma fullSystemInstruction_glossary (x : jsstring) :
  exists post,
    fullSystemInstruction
      (Some (js "Reference for some Korean construction/safety terms (use if relevant):
" +++ x))
    = (js "Reference for some Korean construction/safety terms (use if relevant):
" +++ x) ++ post.
Proof. eexists. reflexivity. Qed.

(** X20: the request a translate click sends carries the whole input
    buffer and the target language code in its prompt, and its system
    instruction lists every glossary term as a bullet [* term: gloss]; it
    is the only request of the click. *)
Theorem translate_request_carries_text_and_glossary
        (terms : list (jsstring * jsstring)) (s : App) (log : Log) :
  trim (inputText s) <> [] -> credentialConfigured env ->
  exists prompt sys before,
    snd (handleTranslate env terms s log)
    = before ++ [Network (mkRequest GEMINI_MODEL_NAME (PromptText prompt) (Some sys)
                                    3 9 30)]
    /\ network_calls before = network_calls log
    /\ includes (inputText s) prompt = true
    /\ includes (code (targetLanguage s)) prompt = true
    /\ forall ko en, In (ko, en) terms ->
         includes (js "* " +++ ko +++ js ": " +++ en) sys = true.
Proof.
  intros Hi Hc. unfold handleTranslate.
  destruct (trim (inputText s)) as [|c t]; [congruence|]. cbn [truthy negb].
  match goal with
  | |- context [cancelIfSupported ?st log] =>
      destruct (cancelIfSupported_frame st log) as (Hn & _);
      destruct (cancelIfSupported st log) as [s1 log0]
  end. cbn [fst snd] in Hn.
  unfold translateText. rewrite (ensure_configured env Hc).
  exists (translatePrompt (inputText s) (code (targetLanguage s))).
  eexists. exists (log0 ++ [CallTranslate (inputText s) (code (targetLanguage s))]).
  split; [|split; [|split; [|split]]].
  - match goal with
    | |- context [callModel ?e ?rq ?f ?b ?p ?u ?l] =>
        pose proof (callModel_log e rq f b p u l) as Hl;
        destruct (callModel e rq f b p u l) as [[res|err] l']
    end; cbn [snd] in Hl |- *; subst l'; reflexivity.
  - rewrite network_calls_event by reflexivity. exact Hn.
  - unfold translatePrompt. do 3 apply includes_app_r. apply includes_head.
  - unfold translatePrompt. apply includes_app_r. apply includes_head.
  - intros ko en Hin.
    destruct (lawTermsString_includes terms ko en Hin) as (a & b & E).
    destruct (fullSystemInstruction_glossary (lawTermsString terms)) as (post & ->).
    apply includes_app_l, includes_app_r. rewrite E. apply includes_intro.
Qed.

End TranslateMore.

(** ** Uploads against an answering endpoint *)

Section EndToEnd.

Variable env : Env.

Lemma extractText_answer (ocrAnswer promptAnswer : jsstring)
      (data : option jsstring) (mime : jsstring) (log : Log) :
  credentialConfigured env -> answers env ocrAnswer promptAnswer ->
  extractTextFromImageData env data mime log
  = (Ok (trim ocrAnswer),
     log ++ [CallExtractText data mime; Network (ocrRequest data mime)]).
Proof.
  intros Hc Ha. unfold extractTextFromImageData, callModel.
  rewrite (ensure_configured env Hc), Ha. cbn [rq_contents ocrRequest].
  rewrite <- app_assoc. reflexivity.
Qed.

Lemma convert_answer (ocrAnswer promptAnswer raw : jsstring) (log : Log) :
  credentialConfigured env -> answers env ocrAnswer promptAnswer ->
  trim raw <> [] ->
  convertTextToMarkdown env raw log
  = (Ok (stripFence promptAnswer),
     log ++ [CallConvertToMarkdown raw; Network (markdownRequest raw)]).
Proof.
  intros Hc Ha Hr. unfold convertTextToMarkdown, callModel.
  rewrite (ensure_configured env Hc), Ha.
  destruct (trim raw); [congruence|]. cbn [truthy negb rq_contents markdownRequest].
  rewrite <- app_assoc. reflexivity.
Qed.

(** X21: an image upload against an endpoint that answers makes exactly
    two requests, in this order: the OCR request with the payload of the
    data URL and the declared type, then the reformat request for the
    trimmed OCR answer; the input buffer ends as the reformat answer after
    the fence clean-up and the file-processing slot is empty. *)
Theorem image_upload_end_to_end
        (f : File) (s : App) (log : Log) (url ocrAnswer promptAnswer : jsstring) :
  credentialConfigured env -> answers env ocrAnswer promptAnswer ->
  dispatch (file_type f) = KindImage -> file_read f = ReadDataUrl url ->
  trim ocrAnswer <> [] ->
  let payload := split_second comma url in
  let s' := fst (handleFileUpload env (Some f) s log) in
  inputText s' = stripFence promptAnswer
  /\ fileProcessingError s' = None
  /\ snd (handleFileUpload env (Some f) s log)
     = snd (beginUpload s log)
       ++ [CallExtractText payload (file_type f);
           Network (ocrRequest payload (file_type f));
           CallConvertToMarkdown (trim ocrAnswer);
           Network (markdownRequest (trim ocrAnswer))].
Proof.
  intros Hc Ha Hd Hr Ht payload s'. subst payload s'. unfold handleFileUpload.
  destruct (beginUpload_state s log) as (_ & _ & _ & Hfp & _). cbv zeta in Hfp.
  destruct (beginUpload s log) as [s1 log0]. cbn [fst snd] in *.
  rewrite Hd. unfold imageBranch.
  rewrite Hr, (extractText_answer ocrAnswer promptAnswer) by assumption.
  rewrite trim_idem.
  destruct (trim ocrAnswer) as [|c t] eqn:Et; [congruence|]. cbn [truthy].
  unfold formatStage.
  rewrite (convert_answer ocrAnswer promptAnswer)
    by (assumption || (rewrite <- Et, trim_idem, Et; discriminate)).
  cbn. rewrite <- app_assoc. auto.
Qed.



End EndToEnd.

(** ** Instances of the further theorems *)

Lemma image_without_text_is_terminal_witness :
  fileProcessingError
    (fst (handleFileUpload (rejectingEnv (js "overloaded"))
            (Some (sampleImage (js "image/png"))) sampleApp []))
  = Some (js "Image OCR Error: AI OCR service error: overloaded").
Proof.
  pose (env := rejectingEnv (js "overloaded")).
  pose (l1 := snd (extractTextFromImageData env
                     (split_second comma (dataUrl (js "QUJD"))) (js "image/png")
                     (snd (beginUpload sampleApp [])))).
  destruct (image_without_text_is_terminal env (sampleImage (js "image/png"))
              sampleApp [] l1 (dataUrl (js "QUJD"))
              (Throw (ErrorObj (js "AI OCR service error: overloaded")))
              eq_refl eq_refl ltac:(vm_compute; reflexivity) I) as (_ & _ & H).
  exact H.
Defined.

Lemma pdf_render_failure_aborts_witness :
  fst (ocrPages sampleEnv
         [Rendered (dataUrl (js "QUJD")); NoCanvasContext; Rendered (dataUrl (js "REVG"))]
         [] (snd (beginUpload sampleApp [])))
  = Throw (ErrorObj (js "Could not get canvas context for PDF page rendering.")).
Proof.
  pose (l1 := snd (ocrPages sampleEnv [Rendered (dataUrl (js "QUJD"))] []
                     (snd (beginUpload sampleApp [])))).
  destruct (pdf_render_failure_aborts sampleEnv
              [Rendered (dataUrl (js "QUJD"))] [Rendered (dataUrl (js "REVG"))]
              NoCanvasContext
              (ErrorObj (js "Could not get canvas context for PDF page rendering."))
              (js "page text" +++ blankLine) (samplePdf []) sampleApp [] l1
              eq_refl eq_refl ltac:(vm_compute; reflexivity)) as (H & _).
  cbn [app] in H. rewrite H. reflexivity.
Defined.

Lemma image_read_failure_uses_stale_slot_witness :
  fileProcessingError
    (fst (handleFileUpload sampleEnv
            (Some (mkFile (js "a.png") (js "image/png") (OpenFails NonError) ReadNull))
            sampleApp []))
  = Some (js "Image Processing Error: File reading resulted in null.")
  /\ fileProcessingError
       (fst (handleFileUpload sampleEnv
               (Some (mkFile (js "a.png") (js "image/png") (OpenFails NonError) ReadNull))
               (setFileProcessingError (Some (js "old message")) sampleApp) []))
     = None.
Proof.
  split.
  - destruct (image_read_failure_uses_stale_slot sampleEnv
                (mkFile (js "a.png") (js "image/png") (OpenFails NonError) ReadNull)
                sampleApp [] eq_refl (or_intror eq_refl)) as (H & _).
    exact (H I).
  - destruct (image_read_failure_uses_stale_slot sampleEnv
                (mkFile (js "a.png") (js "image/png") (OpenFails NonError) ReadNull)
                (setFileProcessingError (Some (js "old message")) sampleApp) []
                eq_refl (or_intror eq_refl)) as (_ & H & _).
    exact (H _ _ eq_refl).
Defined.

Lemma missing_credential_never_reaches_network_witness :
  network_calls
    (snd (handleFileUpload sampleEnvNoKey
            (Some (samplePdf [Rendered (dataUrl (js "QUJD"))])) sampleApp []))
  = 0
  /\ fileProcessingError
       (fst (handleFileUpload sampleEnvNoKey
               (Some (samplePdf [Rendered (dataUrl (js "QUJD"))])) sampleApp []))
     = Some (js "No text content could be extracted from the PDF (OCR).").
Proof.
  destruct (missing_credential_never_reaches_network sampleEnvNoKey
              (Some (samplePdf [Rendered (dataUrl (js "QUJD"))])) [] sampleApp []
              (or_introl eq_refl)) as (H1 & _ & H3 & _).
  split; [exact H1|].
  apply (H3 _ [Rendered (dataUrl (js "QUJD"))] eq_refl eq_refl eq_refl).
  intros p [<- | []]. reflexivity.
Defined.

Lemma translate_click_outcomes_witness :
  translatedText
    (fst (handleTranslate (answeringEnv (js "```markdown
# Titre
```") (js "```markdown
# Titre
```")) [] sampleApp []))
  = js "# Titre"
  /\ handleTranslate sampleEnv [] (setInputText (js "  ") sampleApp) []
     = (setError (Some (js "Please upload a file or ensure there is content to translate."))
                 (setInputText (js "  ") sampleApp), []).
Proof.
  split.
  - destruct (translate_click_outcomes
                (answeringEnv (js "```markdown
# Titre
```") (js "```markdown
# Titre
```")) [] sampleApp []) as (_ & H).
    destruct H as (_ & _ & _ & _ & H & _).
    + discriminate.
    + exists (js "key"). split; [reflexivity | discriminate].
    + destruct (H (js "```markdown
# Titre
```") ltac:(intros n r; cbn; destruct (rq_contents r); reflexivity))
        as [H1 _].
      rewrite H1. vm_compute. reflexivity.
  - destruct (translate_click_outcomes sampleEnv []
                (setInputText (js "  ") sampleApp) []) as (H & _).
    apply H. reflexivity.
Defined.

Lemma translate_request_carries_text_and_glossary_witness :
  exists prompt sys before,
    snd (handleTranslate sampleEnv [(js "TBM", js "Toolbox Meeting (TBM)")]
                         sampleApp [])
    = before ++ [Network (mkRequest GEMINI_MODEL_NAME (PromptText prompt) (Some sys)
                                    3 9 30)]
    /\ includes (js "* TBM: Toolbox Meeting (TBM)") sys = true.
Proof.
  assert (Hc : credentialConfigured sampleEnv)
    by (exists (js "key"); split; [reflexivity | discriminate]).
  assert (Hi : trim (inputText sampleApp) <> []) by discriminate.
  destruct (translate_request_carries_text_and_glossary sampleEnv
              [(js "TBM", js "Toolbox Meeting (TBM)")] sampleApp [] Hi Hc)
    as (prompt & sys & before & H1 & _ & _ & _ & H5).
  exists prompt, sys, before. split; [exact H1|].
  apply (H5 (js "TBM") (js "Toolbox Meeting (TBM)")). left. reflexivity.
Defined.

Lemma image_upload_end_to_end_witness :
  inputText
    (fst (handleFileUpload (answeringEnv (js " raw ") (js "# raw"))
            (Some (sampleImage (js "image/webp"))) sampleApp []))
  = js "# raw".
Proof.
  assert (Hc : credentialConfigured (answeringEnv (js " raw ") (js "# raw")))
    by (exists (js "key"); split; [reflexivity | discriminate]).
  assert (Ha : answers (answeringEnv (js " raw ") (js "# raw")) (js " raw ") (js "# raw"))
    by (intros n r; reflexivity).
  assert (Ht : trim (js " raw ") <> []) by discriminate.
  destruct (image_upload_end_to_end (answeringEnv (js " raw ") (js "# raw"))
              (sampleImage (js "image/webp")) sampleApp []
              (dataUrl (js "QUJD")) (js " raw ") (js "# raw")
              Hc Ha eq_refl eq_refl Ht) as (H & _).
  rewrite H. reflexivity.
Defined.

